(** * Glasswall Archive Manager wrapper: a shallow embedding

    The development follows two source files:
    - [glasswall/common/gw_utils.py]: [CwdHandler], [buffer_to_bytes],
      [list_file_paths], [as_bytes], [as_io_BytesIO], [validate_xml];
    - [glasswall/libraries/archive_manager/archive_manager.py]:
      [ArchiveManager.Decorators.release_after], [release],
      [analyse_archive], [analyse_directory], [protect_archive],
      [protect_directory].

    Python code that raises, mutates objects, touches the file system, the
    process working directory and the loaded native library is written in a
    state-and-exception monad over an explicit [World]. *)

From Stdlib Require Import ZArith String List Ascii Strings.Byte.
From stdpp Require Import base option gmap strings list fin_maps.

Local Open Scope string_scope.
Local Open Scope Z_scope.

(** ** Python values *)

Abbreviation bytes := (list byte).

(** Object identities of the mutable objects on the Python heap. *)
Abbreviation loc := positive.

(** The argument values the public methods can receive.  [str] and [bytes]
    are immutable and carried by value; [bytearray] and [io.BytesIO] are
    mutable objects and carried by reference.  [VInt] stands for a value of
    a type that none of the [isinstance] tests accepts. *)
Inductive pyval : Type :=
| VNone
| VStr (s : string)
| VBytes (b : bytes)
| VBytearray (l : loc)
| VBytesIO (l : loc)
| VPolicy (text : string)
| VInt (z : Z).

(** A [bytearray] holds its bytes; an [io.BytesIO] holds its bytes and the
    position of the next read. *)
Inductive pyobj : Type :=
| ObjBytearray (data : bytes)
| ObjBytesIO (data : bytes) (pos : nat).

(** [str.encode("utf-8")] and [bytes.decode()]: a Python [str] is
    represented by the string of its UTF-8 code units. *)
Definition encode (s : string) : bytes := list_byte_of_string s.
Definition decode (b : bytes) : string := string_of_list_byte b.

(** ** The native library *)

Inductive entry_point : Type :=
| GwArchiveVersion
| GwArchiveDone
| GwFileAnalysisArchive
| GwFileProtectAndReportArchive.

Global Instance entry_point_eq_dec : EqDecision entry_point.
Proof. solve_decision. Defined.

(** What the wrapper does with [self.library], oldest event first:
    assigning [.argtypes] or [.restype] of a foreign function, or calling
    one. *)
Inductive lib_event : Type :=
| SetArgtypes (f : entry_point)
| SetRestype (f : entry_point)
| Call (f : entry_point).

Global Instance lib_event_eq_dec : EqDecision lib_event.
Proof. solve_decision. Defined.

(** Exception classes of [glasswall.libraries.archive_manager.errors]:
    the classes stored in [errors.error_codes], named by the table that is
    passed in, and the fallback [errors.UnknownErrorCode]. *)
Inductive error_class : Type :=
| KnownError (name : string)
| UnknownErrorCode.

(** ** Exceptions *)

Inductive exn : Type :=
| TypeError (v : pyval)
| FileNotFoundError (path : string)
| NotADirectoryError (path : string)
| ValueError (v : pyval)
| UnboundLocalError (name : string)
| EngineError (cls : error_class) (status : Z)
| NativeError (msg : string)
| AccessViolation (addr : Z).

(** ** The world *)

Record World : Type := mkWorld {
  cwd : string;                  (* os.getcwd() *)
  files : gmap string bytes;     (* regular files, by absolute path *)
  dirs : gset string;            (* directories, by absolute path *)
  heap : gmap loc pyobj;         (* bytearray and io.BytesIO objects *)
  native_mem : gmap Z byte;      (* memory owned by the engine *)
  lib_log : list lib_event       (* uses of self.library *)
}.

Definition set_cwd (d : string) (w : World) : World :=
  mkWorld d (files w) (dirs w) (heap w) (native_mem w) (lib_log w).
Definition set_files (f : gmap string bytes) (w : World) : World :=
  mkWorld (cwd w) f (dirs w) (heap w) (native_mem w) (lib_log w).
Definition set_dirs (d : gset string) (w : World) : World :=
  mkWorld (cwd w) (files w) d (heap w) (native_mem w) (lib_log w).
Definition set_heap (h : gmap loc pyobj) (w : World) : World :=
  mkWorld (cwd w) (files w) (dirs w) h (native_mem w) (lib_log w).
Definition set_native_mem (m : gmap Z byte) (w : World) : World :=
  mkWorld (cwd w) (files w) (dirs w) (heap w) m (lib_log w).
Definition set_lib_log (l : list lib_event) (w : World) : World :=
  mkWorld (cwd w) (files w) (dirs w) (heap w) (native_mem w) l.

(** ** The monad of Python statements *)

Inductive result (A : Type) : Type :=
| Ok (a : A)
| Raised (e : exn).
Arguments Ok {A} a.
Arguments Raised {A} e.

Definition M (A : Type) : Type := World → result A * World.

Definition ret {A} (a : A) : M A := λ w, (Ok a, w).
Definition raise {A} (e : exn) : M A := λ w, (Raised e, w).
Definition bind {A B} (m : M A) (k : A → M B) : M B :=
  λ w, match m w with
       | (Ok a, w') => k a w'
       | (Raised e, w') => (Raised e, w')
       end.
Definition get : M World := λ w, (Ok w, w).
Definition modify (f : World → World) : M unit := λ w, (Ok tt, f w).

Declare Scope py_scope.
Delimit Scope py_scope with py.
Notation "x <- m ;; k" := (bind m (λ x, k))
  (at level 100, m at next level, right associativity) : py_scope.
Notation "m ;; k" := (bind m (λ _, k))
  (at level 100, right associativity) : py_scope.
Local Open Scope py_scope.

(** [for x in xs: body x], stopping at the first exception. *)
Fixpoint for_each {A} (xs : list A) (body : A → M unit) : M unit :=
  match xs with
  | [] => ret tt
  | x :: xs' => body x ;; for_each xs' body
  end.

(** A [for] loop that updates a local variable [s]. *)
Fixpoint for_acc {A S} (xs : list A) (body : A → S → M S) (s : S) : M S :=
  match xs with
  | [] => ret s
  | x :: xs' => s' <- body x s ;; for_acc xs' body s'
  end.

(** Value, exception and final world of a run. *)
Definition outcome {A} (m : M A) (w : World) : result A := fst (m w).
Definition final {A} (m : M A) (w : World) : World := snd (m w).

(** ** Host interfaces

    [os.path] is a per-host module ([posixpath], [ntpath]); the functions
    the wrapper uses are the fields.  [abspath] and [relpath] read the
    current directory, which is passed explicitly. *)
Class OsPath : Type := {
  sep : string;
  join : string → string → string;
  normpath : string → string;
  dirname : string → string;
  abspath : string → string → string;            (* cwd, path *)
  relpath : string → string → string → string;   (* cwd, path, start *)
  ancestors : string → list string               (* a directory and its parents *)
}.

(** [lxml.etree]: [parse] and [fromstring] return [None] where the library
    raises [XMLSyntaxError]; [tostring] is called with [encoding="utf-8"],
    [xml_declaration=True], [pretty_print=True]; [indent] with four
    spaces. *)
Class Lxml : Type := {
  etree : Type;
  etree_parse : bytes → option etree;
  etree_fromstring : bytes → option etree;
  etree_indent : etree → etree;
  etree_tostring : etree → bytes
}.

(** What a foreign call of the engine does: it raises, or it returns a
    status, having possibly written into the input block it was handed and
    having placed the two output blocks in its own memory. *)
Record native_return : Type := mkNativeReturn {
  nr_status : Z;
  nr_input_buffer : bytes;
  nr_output_buffer : option Z;
  nr_output_buffer_length : nat;
  nr_output_report_buffer : option Z;
  nr_output_report_buffer_length : nat;
  nr_memory : gmap Z byte
}.

Inductive native_outcome : Type :=
| NativeReturns (r : native_return)
| NativeRaises (e : exn).

(** The engine, as seen through an entry point: a function of the working
    directory of the process, the input block and the policy string. *)
Class Engine : Type := {
  engine_call : entry_point → string → bytes → bytes → native_outcome
}.

(** The tables of [successes.success_codes] and [errors.error_codes]. *)
Class StatusTables : Type := {
  success_codes : gset Z;
  error_codes : gmap Z error_class
}.

(** [glasswall.GwReturnObj] once all three attributes are set. *)
Record GwReturnObj : Type := mkGwReturnObj {
  status : Z;
  output_file : bytes;
  output_report : bytes
}.

(** Python classes named in the [isinstance] tests. *)
Inductive pyclass : Type :=
| NoneType | str | bytes_ | bytearray | BytesIO | Policy | int.

Global Instance pyclass_eq_dec : EqDecision pyclass.
Proof. solve_decision. Defined.

Definition type_of (v : pyval) : pyclass :=
  match v with
  | VNone => NoneType
  | VStr _ => str
  | VBytes _ => bytes_
  | VBytearray _ => bytearray
  | VBytesIO _ => BytesIO
  | VPolicy _ => Policy
  | VInt _ => int
  end.

Definition isinstance (v : pyval) (classes : list pyclass) : bool :=
  bool_decide (type_of v ∈ classes).

(** ** Primitives of the interpreter and of the [os] module *)

Section Primitives.
Context `{OsPath}.

(** [os.path.isfile], [os.path.isdir], [os.getcwd], [os.chdir].  A path is
    looked up at its absolute path.  This is what the system does for a
    path that is spelled out, in which [abspath] has nothing to resolve;
    the empty path, and a path with a [..] step or with a separator at its
    end, the system may refuse where the absolute path exists. *)
Definition isfile (p : string) : M bool :=
  w <- get ;; ret (bool_decide (is_Some (files w !! abspath (cwd w) p))).

Definition isdir (p : string) : M bool :=
  w <- get ;; ret (bool_decide (abspath (cwd w) p ∈ dirs w)).

Definition getcwd : M string := w <- get ;; ret (cwd w).

(** A regular file stands at the absolute path [p] or in place of a
    directory above it. *)
Definition file_on_the_way (w : World) (p : string) : bool :=
  bool_decide (Exists (λ a, is_Some (files w !! a)) (p :: ancestors p)).

(** [os.chdir(d)] where [d] is no directory raises [NotADirectoryError] if
    a step of [d] is a regular file, and [FileNotFoundError] if it does not
    exist. *)
Definition chdir (d : string) : M unit :=
  ok <- isdir d ;;
  if ok : bool
  then modify (λ w, set_cwd (abspath (cwd w) d) w)
  else
    w <- get ;;
    if file_on_the_way w (abspath (cwd w) d)
    then raise (NotADirectoryError d)
    else raise (FileNotFoundError d).

(** [with open(p, "rb") as f: f.read()]. *)
Definition read_file (p : string) : M bytes :=
  w <- get ;;
  match files w !! abspath (cwd w) p with
  | Some b => ret b
  | None => raise (FileNotFoundError p)
  end.

(** [with open(p, "wb") as f: f.write(data)]. *)
Definition write_file (p : string) (data : bytes) : M unit :=
  modify (λ w, set_files (<[abspath (cwd w) p := data]> (files w)) w).

(** [os.makedirs(d, exist_ok=True)]. *)
Definition makedirs (d : string) : M unit :=
  modify (λ w, set_dirs (dirs w ∪ list_to_set (ancestors (abspath (cwd w) d))) w).

(** A new mutable object. *)
Definition alloc (o : pyobj) : M loc :=
  w <- get ;;
  let l := fresh (dom (heap w)) in
  modify (set_heap (<[l := o]> (heap w))) ;;
  ret l.

(** [bytes(b)] of a [bytearray] [b]. *)
Definition bytearray_contents (l : loc) : M bytes :=
  w <- get ;;
  match heap w !! l with
  | Some (ObjBytearray data) => ret data
  | _ => raise (TypeError (VBytearray l))
  end.

(** [stream.read()] of an [io.BytesIO]: the bytes from the current
    position on; the position moves to the end. *)
Definition stream_read (l : loc) : M bytes :=
  w <- get ;;
  match heap w !! l with
  | Some (ObjBytesIO data pos) =>
      modify (set_heap (<[l := ObjBytesIO data (Nat.max pos (length data))]> (heap w))) ;;
      ret (drop pos data)
  | _ => raise (TypeError (VBytesIO l))
  end.

(** An assignment to, or a call of, an attribute of [self.library]. *)
Definition log_lib (e : lib_event) : M unit :=
  modify (λ w, set_lib_log (lib_log w ++ [e]) w).
End Primitives.

(** [os.walk] and [os.listdir] enumerate the file system of the world:
    [walk] yields, per directory visited, its path and the names of the
    files in it; [listdir] yields the names in one directory. *)
Class OsDir : Type := {
  walk : World → string → list (string * list string);
  listdir : World → string → list string
}.

(** [hashlib.md5]: an md5 object is the sequence of the bytes it was fed
    ([update(a); update(b)] is [update(a + b)]); [md5_hexdigest] is the
    digest of that sequence. *)
Class Hashlib : Type := {
  md5_hexdigest : bytes → string
}.

(** ** Python [str] methods, on ASCII text *)

Definition isupper (c : ascii) : bool :=
  (65 <=? nat_of_ascii c)%nat && (nat_of_ascii c <=? 90)%nat.

Definition islower (c : ascii) : bool :=
  (97 <=? nat_of_ascii c)%nat && (nat_of_ascii c <=? 122)%nat.

Definition lower (c : ascii) : ascii :=
  if isupper c then ascii_of_nat (nat_of_ascii c + 32) else c.

Definition upper (c : ascii) : ascii :=
  if islower c then ascii_of_nat (nat_of_ascii c - 32) else c.

(** [s.lstrip(c)] for a one-character [c]. *)
Fixpoint lstrip (c : ascii) (s : string) : string :=
  match s with
  | String a s' => if Ascii.eqb a c then lstrip c s' else s
  | EmptyString => EmptyString
  end.

(** [s.replace(old, new)] for one-character [old] and [new]. *)
Fixpoint replace_char (old new : ascii) (s : string) : string :=
  match s with
  | String a s' =>
      String (if Ascii.eqb a old then new else a) (replace_char old new s')
  | EmptyString => EmptyString
  end.

(** [s.split(c)] for a one-character separator: the empty string splits
    into one empty word. *)
Fixpoint str_split (c : ascii) (s : string) : list string :=
  match s with
  | EmptyString => [""]
  | String a s' =>
      if Ascii.eqb a c then "" :: str_split c s'
      else match str_split c s' with
           | x :: xs => String a x :: xs
           | [] => [String a ""]
           end
  end.

(** [s.title()]: a letter that follows a letter is lowered, a letter that
    does not is raised. *)
Fixpoint title_from (previous_is_cased : bool) (s : string) : string :=
  match s with
  | EmptyString => EmptyString
  | String c s' =>
      if islower c then
        String (if previous_is_cased then c else upper c) (title_from true s')
      else if isupper c then
        String (if previous_is_cased then lower c else c) (title_from true s')
      else String c (title_from false s')
  end.

Definition title (s : string) : string := title_from false s.

(** Every character of the text passes the test. *)
Fixpoint str_all (P : ascii → bool) (s : string) : bool :=
  match s with
  | EmptyString => true
  | String c s' => P c && str_all P s'
  end.

(** The text holds ASCII characters only. *)
Definition is_ascii_text (s : string) : Prop :=
  str_all (λ c, (nat_of_ascii c <? 128)%nat) s = true.

(** ** [lxml] elements, as [lxml_elements_equal] reads them: tag, text,
    tail, attributes, children. *)
Unset Elimination Schemes.
Inductive element : Type :=
| Element (tag : string) (text tail : option string)
    (attrib : gmap string string) (children : list element).
Set Elimination Schemes.

(** ** JSON documents of the visual comparison: a dictionary from
    relative file paths to dictionaries of scalars. *)
Inductive scalar : Type :=
| JNull
| JBool (b : bool)
| JInt (z : Z)
| JStr (s : string).

Global Instance scalar_eq_dec : EqDecision scalar.
Proof. solve_decision. Defined.

(** [json.load] of the text of a file; [None] where it raises. *)
Class Json : Type := {
  json_load : bytes → option (gmap string (gmap string scalar))
}.

(** ** [glasswall/common/gw_utils.py] *)

Module gw_utils.
Section gw_utils.
Context `{OsPath, OsDir, Lxml}.

(** *** [class CwdHandler] *)
Record CwdHandler : Type := mkCwdHandler {
new_cwd : string;
old_cwd : string
}.

Definition CwdHandler__init__ (new_cwd : string) : M CwdHandler :=
d <- isdir new_cwd ;;
old <- getcwd ;;
ret (mkCwdHandler (if d : bool then new_cwd else dirname new_cwd) old).

Definition CwdHandler__enter__ (self : CwdHandler) : M unit :=
chdir (new_cwd self).

Definition CwdHandler__exit__ (self : CwdHandler) : M unit :=
chdir (old_cwd self).

(** [with CwdHandler(new_cwd=d): body].  The context expression is
  evaluated, [__enter__] runs, and if it returned, [__exit__] runs
  whether the body returns or raises; [__exit__] returns [None], so an
  exception of the body is raised again after it. *)
Definition with_CwdHandler {A} (d : string) (body : M A) : M A :=
self <- CwdHandler__init__ d ;;
CwdHandler__enter__ self ;;
λ w1,
  let '(r, w2) := body w1 in
  match CwdHandler__exit__ self w2 with
  | (Ok _, w3) => (r, w3)
  | (Raised e, w3) => (Raised e, w3)
  end.

(** *** [buffer_to_bytes]

  [ct.memmove(file_buffer, buffer.value, buffer_length.value)] copies
  [buffer_length.value] bytes out of the engine's memory, from the
  address [buffer.value] on ([None] is the null pointer, address 0);
  reading an address the engine does not own is an access violation. *)
Definition memmove_from (mem : gmap Z byte) (src : Z) (n : nat) : option bytes :=
mapM (λ i : nat, mem !! (src + Z.of_nat i)) (seq 0 n).

Definition buffer_to_bytes (buffer : option Z) (buffer_length : nat) : M bytes :=
w <- get ;;
match memmove_from (native_mem w) (default 0 buffer) buffer_length with
| Some file_buffer => ret file_buffer
| None => raise (AccessViolation (default 0 buffer))
end.

(** *** [list_file_paths] *)
Definition list_file_paths (directory : string) (recursive absolute : bool)
: M (list string) :=
d <- isdir directory ;;
if negb d then raise (NotADirectoryError directory) else
w <- get ;;
let files :=
  if recursive
  then '(root, files) ← walk w directory;
       file_ ← files;
       [normpath (join root file_)]
  else file_ ← listdir w directory;
       if bool_decide (is_Some (files w !! abspath (cwd w) (join directory file_)))
       then [normpath (join directory file_)] else [] in
ret (if absolute
     then (λ file_, abspath (cwd w) file_) <$> files
     else (λ file_, relpath (cwd w) file_ directory) <$> files).

(** *** [as_bytes] *)
Definition as_bytes (file_ : pyval) : M bytes :=
match file_ with
| VBytes b => ret b
| VBytearray l => bytearray_contents l
| VBytesIO l => stream_read l
| _ => raise (TypeError file_)
end.

(** *** [as_io_BytesIO] *)
Definition as_io_BytesIO (file_ : pyval) : M pyval :=
match file_ with
| VBytes b => l <- alloc (ObjBytesIO b 0) ;; ret (VBytesIO l)
| VBytearray l =>
    b <- bytearray_contents l ;;
    l' <- alloc (ObjBytesIO b 0) ;; ret (VBytesIO l')
| VBytesIO l => ret file_
| _ => raise (TypeError file_)
end.

(** *** [validate_xml]

  The [try] block binds [tree]; [except etree.XMLSyntaxError] raises
  [ValueError(xml)] with the value [xml] is bound to at that point,
  which the branches rebind before they parse. *)
Definition tree_or_ValueError (xml : pyval) (t : option etree) : M etree :=
match t with
| Some tree => ret tree
| None => raise (ValueError xml)
end.

Definition validate_xml (xml : pyval) : M string :=
tree <-
  match xml with
  | VStr s =>
      f <- isfile s ;;
      if f : bool
      then (* Get tree from file *)
           content <- read_file s ;;
           tree_or_ValueError xml (etree_parse content)
      else (* Get tree from xml string *)
           let xml := VBytes (encode s) in
           tree_or_ValueError xml (etree_fromstring (encode s))
  | VBytes _ | VBytearray _ =>
      (* Convert bytes, bytearray to io.BytesIO *)
      xml <- as_io_BytesIO xml ;;
      match xml with
      | VBytesIO l =>
          content <- stream_read l ;;
          tree_or_ValueError xml (etree_parse content)
      | _ => raise (TypeError xml)
      end
  | VBytesIO l =>
      content <- stream_read l ;;
      tree_or_ValueError xml (etree_parse content)
  | VPolicy text =>
      let xml := VBytes (encode text) in
      tree_or_ValueError xml (etree_fromstring (encode text))
  | _ => raise (TypeError xml)
  end ;;
(* convert tree to string and include xml declaration header utf8 *)
let tree := etree_indent tree in
let xml_string := decode (etree_tostring tree) in
ret xml_string.
End gw_utils.

Section gw_utils_pure.
Context `{OsPath}.

(** *** [crossplatform_path]: [os.path.normpath(path).replace("\\", "/")] *)
Definition crossplatform_path (path : string) : string :=
  replace_char (ascii_of_nat 92) (ascii_of_nat 47) (normpath path).

(** *** [as_snake_case] *)
Fixpoint snake_chars (s : string) : string :=
  match s with
  | EmptyString => EmptyString
  | String char s' =>
      (if isupper char then String "_" (String (lower char) "")
       else String char "") ++ snake_chars s'
  end.

Definition as_snake_case (string_ : string) : string :=
  lstrip "_" (snake_chars string_).

(** *** [as_title] *)
Definition as_title (string_ : string) : string :=
  String.concat "" (title <$> str_split "_" string_).

(** *** [flatten_list] *)
Definition flatten_list {A} (list_ : list (list A)) : list A :=
  sublist ← list_; item ← sublist; [item].

(** *** [lxml_elements_equal]: [any([...])] over the five comparisons,
    then [all(...)] over the zipped children. *)
Fixpoint lxml_elements_equal (e1 e2 : element) : bool :=
  match e1, e2 with
  | Element tag1 text1 tail1 attrib1 children1,
    Element tag2 text2 tail2 attrib2 children2 =>
      if bool_decide (tag1 ≠ tag2)
         || bool_decide (text1 ≠ text2)
         || bool_decide (tail1 ≠ tail2)
         || bool_decide (attrib1 ≠ attrib2)
         || bool_decide (length children1 ≠ length children2)
      then false
      else (fix all_zip (cs1 cs2 : list element) : bool :=
              match cs1, cs2 with
              | c1 :: cs1', c2 :: cs2' =>
                  lxml_elements_equal c1 c2 && all_zip cs1' cs2'
              | _, _ => true
              end) children1 children2
  end.
End gw_utils_pure.

Section gw_utils_md5.
Context `{OsPath, Hashlib}.

(** [file_.read(n)] of the file object that [open(path, "rb")] returns:
    the next [n] bytes, or all that is left for [n = -1]; the position
    moves past what was read.  A read length below [-1] is a
    [ValueError]. *)
Definition stream_read_n (file_ : loc) (n : Z) : M bytes :=
  if (n <? -1)%Z
  then raise (ValueError (VStr "read length must be non-negative or -1")) else
  w <- get ;;
  match heap w !! file_ with
  | Some (ObjBytesIO data pos) =>
      let rest := drop pos data in
      let chunk := if (n <? 0)%Z then rest else take (Z.to_nat n) rest in
      modify (set_heap (<[file_ := ObjBytesIO data (pos + length chunk)]> (heap w))) ;;
      ret chunk
  | _ => raise (TypeError (VBytesIO file_))
  end.

(** *** [_md5_chunked]

    [while True: data = file_.read(chunk_size); if not data: break;
    md5.update(data)].  Every turn of the loop but the last reads at
    least one byte, so one turn more than the bytes left is enough;
    [turns] counts them down. *)
Fixpoint md5_chunked_loop (turns : nat) (file_ : loc) (chunk_size : Z)
    (md5 : bytes) : M bytes :=
  match turns with
  | O => ret md5
  | S turns' =>
      data <- stream_read_n file_ chunk_size ;;
      match data with
      | [] => ret md5
      | _ => md5_chunked_loop turns' file_ chunk_size (md5 ++ data)
      end
  end.

Definition bytes_left (w : World) (file_ : loc) : nat :=
  match heap w !! file_ with
  | Some (ObjBytesIO data pos) => length data - pos
  | _ => 0
  end.

Definition _md5_chunked (file_ : loc) (chunk_size : Z) : M bytes :=
  w <- get ;;
  md5_chunked_loop (S (bytes_left w file_)) file_ chunk_size [].

(** *** [get_md5]

    The message of the [TypeError] is not modelled; [open(file_, "rb")]
    gives a file object at position 0 over the content of the file. *)
Definition get_md5 (file_ : pyval) (chunk_size : Z) (from_string : bool)
  : M string :=
  if negb (isinstance file_ [bytes_; str]) then raise (TypeError file_) else
  match file_ with
  | VBytes b => ret (md5_hexdigest b)
  | VStr s =>
      if from_string then ret (md5_hexdigest (encode s))
      else
        content <- read_file s ;;
        f <- alloc (ObjBytesIO content 0) ;;
        md5 <- _md5_chunked f chunk_size ;;
        ret (md5_hexdigest md5)
  | _ => raise (TypeError file_)
  end.
End gw_utils_md5.

Section gw_utils_json.
Context `{OsPath, Json}.

(** Python's [==] on the scalars: [True == 1] and [False == 0]. *)
Definition scalar_eq (a b : scalar) : bool :=
  match a, b with
  | JNull, JNull => true
  | JBool x, JBool y => Bool.eqb x y
  | JInt x, JInt y => (x =? y)%Z
  | JStr x, JStr y => String.eqb x y
  | JBool x, JInt y | JInt y, JBool x => (y =? (if x then 1 else 0))%Z
  | _, _ => false
  end.

(** [dict_.get(key)] in a boolean context: a missing key gives [None]. *)
Definition truthy (x : option scalar) : bool :=
  match x with
  | None | Some JNull => false
  | Some (JBool b) => b
  | Some (JInt z) => negb (z =? 0)%Z
  | Some (JStr s) => negb (String.eqb s "")
  end.

(** [dict_.get(key) in {False, None}]. *)
Definition in_False_None (x : option scalar) : bool :=
  match x with
  | None | Some JNull => true
  | Some v => scalar_eq v (JBool false)
  end.

(** [dict1 == dict2] on dictionaries of scalars, and on dictionaries of
    those. *)
Definition dict_eq (d1 d2 : gmap string scalar) : bool :=
  bool_decide (dom d1 = dom d2)
  && forallb (λ '(k, v), match d2 !! k with
                         | Some v' => scalar_eq v v'
                         | None => false
                         end) (map_to_list d1).

Definition comparison_eq (c1 c2 : gmap string (gmap string scalar)) : bool :=
  bool_decide (dom c1 = dom c2)
  && forallb (λ '(k, d), match c2 !! k with
                         | Some d' => dict_eq d d'
                         | None => false
                         end) (map_to_list c1).

(** *** [load_json_as_dictionary]; [json.JSONDecodeError] is a
    [ValueError]. *)
Definition load_json_as_dictionary (json_path : string)
  : M (gmap string (gmap string scalar)) :=
  content <- read_file json_path ;;
  match json_load content with
  | Some dictionary => ret dictionary
  | None => raise (ValueError (VBytes content))
  end.

(** *** [get_visual_comparison_json_differences]

    One turn of the loop over [expected_visual_comparison.items()]: the
    value to store under [relative_file], or [None] where the turn ends
    in [continue]. *)
Definition difference_for
    (allow_false_to_true differentiate_errors allow_timeout : bool)
    (output_visual_comparison : gmap string (gmap string scalar))
    (relative_file : string) (expected_dict : gmap string scalar)
  : option (gmap string scalar * option (gmap string scalar)) :=
  match output_visual_comparison !! relative_file with
  | None => Some (expected_dict, None)
  | Some output_dict =>
      if bool_decide (output_dict = ∅) then
        (* Key does not exist in output *)
        Some (expected_dict, None)
      else if negb (dict_eq expected_dict output_dict) then
        (* Value is different *)
        if allow_false_to_true
           && (negb (truthy (expected_dict !! "visually_identical"))
               && truthy (output_dict !! "visually_identical"))
        then None
        else if negb differentiate_errors
                && (in_False_None (expected_dict !! "visually_identical")
                    && in_False_None (output_dict !! "visually_identical"))
                && (truthy (expected_dict !! "error")
                    && truthy (output_dict !! "error"))
        then None
        else if allow_timeout
                && (bool_decide (expected_dict !! "error"
                                 = Some (JStr "VisualComparisonToolTimeout"))
                    || bool_decide (output_dict !! "error"
                                    = Some (JStr "VisualComparisonToolTimeout")))
        then None
        else Some (expected_dict, Some output_dict)
      else None
  end.

Definition get_visual_comparison_json_differences
    (expected_json_path output_json_path : string)
    (allow_false_to_true differentiate_errors allow_timeout : bool)
  : M (gmap string (gmap string scalar * option (gmap string scalar))) :=
  expected_visual_comparison <- load_json_as_dictionary expected_json_path ;;
  output_visual_comparison <- load_json_as_dictionary output_json_path ;;
  if comparison_eq expected_visual_comparison output_visual_comparison
  then ret ∅
  else
    ret (fold_left
           (λ differences '(relative_file, expected_dict),
              match difference_for allow_false_to_true differentiate_errors
                      allow_timeout output_visual_comparison
                      relative_file expected_dict with
              | Some difference => <[relative_file := difference]> differences
              | None => differences
              end)
           (map_to_list expected_visual_comparison) ∅).
End gw_utils_json.
End gw_utils.

(** ** [glasswall/libraries/archive_manager/archive_manager.py] *)

(** What a directory method hands back: [None], or the dictionary from
    relative paths to return objects. *)
Inductive pyret : Type :=
| RNone
| RDict (d : gmap string GwReturnObj).

Module ArchiveManager.
Section ArchiveManager.
Context `{OsPath, OsDir, Lxml, Engine, StatusTables}.

(** [self.library_path], and the text of the default policy
  [policies.ArchiveManager(default="sanitise",
  default_archive_manager="process")]. *)
Variable library_path : string.
Variable default_policy : string.

(** *** [release] and [Decorators.release_after] *)
Definition release : M unit :=
log_lib (Call GwArchiveDone) ;;
modify (set_native_mem ∅).

Definition release_after {A} (function : M A) : M A :=
result <- function ;;
release ;;
ret result.

(** *** The foreign call

  [self.library.f(ct.byref(ct_input_buffer), ...)]: the engine reads
  and may write the block [ct_input_buffer], which shares the memory
  of [input_buffer_bytearray]. *)
Definition foreign_call (f : entry_point) (input_buffer_bytearray : loc)
  (ct_content_management_policy : bytes) : M native_return :=
log_lib (Call f) ;;
block <- bytearray_contents input_buffer_bytearray ;;
w <- get ;;
match engine_call f (cwd w) block ct_content_management_policy with
| NativeRaises e => raise e
| NativeReturns r =>
    modify (λ w, set_native_mem (nr_memory r)
                   (set_heap (<[input_buffer_bytearray :=
                                  ObjBytearray (nr_input_buffer r)]> (heap w)) w)) ;;
    ret r
end.

(** *** The status test

  [if status not in successes.success_codes: if raise_unsupported:
  raise errors.error_codes.get(status, errors.UnknownErrorCode)(status)] *)
Definition check_status (status : Z) (raise_unsupported : bool) : M unit :=
if negb (bool_decide (status ∈ success_codes)) then
  if raise_unsupported
  then raise (EngineError (default UnknownErrorCode (error_codes !! status)) status)
  else ret tt
else ret tt.

(** *** Writing an output

  [if data: if isinstance(path, str): os.makedirs(...); open(...).write(data)] *)
Definition write_output (data : bytes) (path : pyval) : M unit :=
if bool_decide (data ≠ []) then
  match path with
  | VStr p => makedirs (dirname p) ;; write_file p data
  | _ => ret tt
  end
else ret tt.

Definition check_type (v : pyval) (classes : list pyclass) : M unit :=
if negb (isinstance v classes) then raise (TypeError v) else ret tt.

Definition abspath_if_str (v : pyval) : M pyval :=
match v with
| VStr p => w <- get ;; ret (VStr (abspath (cwd w) p))
| _ => ret v
end.

(** *** The parts of the method body

  [analyse_archive] and [protect_archive] are the same text except
  for the foreign function that is called (source lines 130 and 268);
  both assign [.argtypes] of [GwFileAnalysisArchive] (lines 106 and
  244).  The body is written once, over [declared], the function whose
  [.argtypes] is assigned, and [invoked], the one called. *)

(** "Convert inputs to bytes" (lines 89-95, 227-233).  The local name
  [input_file_bytes] is bound on the [str] branch and on the
  [(bytearray, io.BytesIO)] branch; [None] is the unbound name. *)
Definition read_input (input_file : pyval) : M (option bytes) :=
match input_file with
| VStr p =>
    f <- isfile p ;;
    if f : bool
    then b <- read_file p ;; ret (Some b)
    else raise (FileNotFoundError p)
| VBytearray _ | VBytesIO _ =>
    b <- gw_utils.as_bytes input_file ;; ret (Some b)
| _ => ret None
end.

(** The policy (lines 97-103, 235-241). *)
Definition load_policy (content_management_policy : pyval) : M string :=
content_management_policy <-
  match content_management_policy with
  | VStr p =>
      f <- isfile p ;;
      if f : bool
      then b <- read_file p ;; ret (VBytes b)
      else ret content_management_policy
  | VNone => (* Load default *) ret (VPolicy default_policy)
  | _ => ret content_management_policy
  end ;;
gw_utils.validate_xml content_management_policy.

(** After the call (lines 140-167, 278-305): the status test, the two
  output blocks, the two writes. *)
Definition collect_outputs (r : native_return)
  (output_file output_report : pyval) (raise_unsupported : bool)
: M GwReturnObj :=
let status := nr_status r in
check_status status raise_unsupported ;;
output_file_bytes <-
  gw_utils.buffer_to_bytes (nr_output_buffer r) (nr_output_buffer_length r) ;;
output_report_bytes <-
  gw_utils.buffer_to_bytes (nr_output_report_buffer r)
    (nr_output_report_buffer_length r) ;;
(* Write output file *)
write_output output_file_bytes output_file ;;
(* Write output report *)
write_output output_report_bytes output_report ;;
ret (mkGwReturnObj status output_file_bytes output_report_bytes).

(** The API call under the working-directory handler (lines 128-138,
  266-276). *)
Definition api_call (invoked : entry_point) (input_buffer_bytearray : loc)
  (ct_content_management_policy : bytes) : M native_return :=
gw_utils.with_CwdHandler library_path
  (foreign_call invoked input_buffer_bytearray ct_content_management_policy).

Definition archive_body (declared invoked : entry_point)
  (input_file output_file output_report content_management_policy : pyval)
  (raise_unsupported : bool) : M GwReturnObj :=
(* Validate arg types *)
check_type input_file [str; bytes_; bytearray; BytesIO] ;;
check_type output_file [NoneType; str] ;;
check_type output_report [NoneType; str] ;;
check_type content_management_policy
  [NoneType; str; bytes_; bytearray; BytesIO; Policy] ;;
(* Convert string path arguments to absolute paths *)
output_file <- abspath_if_str output_file ;;
output_report <- abspath_if_str output_report ;;
(* Convert inputs to bytes *)
input_file_bytes <- read_input input_file ;;
content_management_policy <- load_policy content_management_policy ;;
(* API function declaration *)
log_lib (SetArgtypes declared) ;;
(* Variable initialisation *)
input_file_bytes <-
  match input_file_bytes with
  | Some b => ret b
  | None => raise (UnboundLocalError "input_file_bytes")
  end ;;
input_buffer_bytearray <- alloc (ObjBytearray input_file_bytes) ;;
let ct_content_management_policy := encode content_management_policy in
(* API call *)
r <- api_call invoked input_buffer_bytearray ct_content_management_policy ;;
collect_outputs r output_file output_report raise_unsupported.

Definition analyse_archive
  (input_file output_file output_report content_management_policy : pyval)
  (raise_unsupported : bool) : M GwReturnObj :=
release_after
  (archive_body GwFileAnalysisArchive GwFileAnalysisArchive
     input_file output_file output_report content_management_policy
     raise_unsupported).

Definition protect_archive
  (input_file output_file output_report content_management_policy : pyval)
  (raise_unsupported : bool) : M GwReturnObj :=
release_after
  (archive_body GwFileAnalysisArchive GwFileProtectAndReportArchive
     input_file output_file output_report content_management_policy
     raise_unsupported).

(** *** [analyse_directory]: the loop has no [return]; the method hands
  back [None]. *)
Definition analyse_directory (input_directory output_directory : string)
  (content_management_policy : pyval) (raise_unsupported : bool) : M pyret :=
paths <- gw_utils.list_file_paths input_directory true false ;;
for_each paths (λ relative_path,
  (* construct absolute paths *)
  w <- get ;;
  let input_file := abspath (cwd w) (join input_directory relative_path) in
  let output_file := abspath (cwd w) (join output_directory relative_path) in
  (* call analyse_archive on each file in input_directory *)
  analyse_archive (VStr input_file) (VStr output_file)
    (VStr (output_file ++ ".xml")) content_management_policy
    raise_unsupported ;;
  ret tt) ;;
ret RNone.

(** *** [protect_directory] *)
Definition protect_step (input_directory : string)
  (output_directory output_report_directory : option string)
  (content_management_policy : pyval) (raise_unsupported : bool)
  (input_file : string) (protected_archives_dict : gmap string GwReturnObj)
: M (gmap string GwReturnObj) :=
w <- get ;;
let relative_path := relpath (cwd w) input_file input_directory in
let output_file :=
  match output_directory with
  | None => VNone
  | Some d => VStr (join (abspath (cwd w) d) relative_path)
  end in
let output_report :=
  match output_report_directory with
  | None => VNone
  | Some d => VStr (join (abspath (cwd w) d) (relative_path ++ ".xml"))
  end in
gw_return_object <-
  protect_archive (VStr input_file) output_file output_report
    content_management_policy raise_unsupported ;;
ret (<[relative_path := gw_return_object]> protected_archives_dict).

Definition protect_directory (input_directory : string)
  (output_directory output_report_directory : option string)
  (content_management_policy : pyval) (raise_unsupported : bool) : M pyret :=
paths <- gw_utils.list_file_paths input_directory true true ;;
protected_archives_dict <-
  for_acc paths
    (protect_step input_directory output_directory output_report_directory
       content_management_policy raise_unsupported) ∅ ;;
ret (RDict protected_archives_dict).
End ArchiveManager.
End ArchiveManager.

(** ** Concrete hosts, engines and tables

    Small executable instances of the interfaces, on which the methods
    can be run. *)

Module Samples.
(** *** Paths over a separator character *)
Fixpoint components (c : ascii) (s : string) : list string :=
  match s with
  | EmptyString => [""]
  | String a s' =>
      if Ascii.eqb a c then "" :: components c s'
      else match components c s' with
           | x :: xs => String a x :: xs
           | [] => [String a ""]
           end
  end.

Definition parts (c : ascii) (p : string) : list string :=
  filter (λ x, x ≠ "") (components c p).

Definition is_abs (c : ascii) (p : string) : bool :=
  match p with
  | String a _ => Ascii.eqb a c
  | EmptyString => false
  end.

(** Resolution of [.] and [..] over a stack of names. *)
Definition norm_parts (ps : list string) : list string :=
  rev (fold_left (λ acc x,
                    if String.eqb x "." then acc
                    else if String.eqb x ".." then tail acc
                    else x :: acc) ps []).

Definition render_abs (c : ascii) (ps : list string) : string :=
  match ps with
  | [] => String c ""
  | _ => String.concat "" ((λ x, String c x) <$> ps)
  end.

Definition host_abspath (c : ascii) (cwd p : string) : string :=
  render_abs c (norm_parts (if is_abs c p then parts c p
                            else parts c cwd ++ parts c p)).

Definition host_join (c : ascii) (a b : string) : string :=
  if is_abs c b then b
  else if String.eqb a "" then b
  else a ++ String c b.

Definition host_normpath (c : ascii) (p : string) : string :=
  if is_abs c p then render_abs c (norm_parts (parts c p))
  else match norm_parts (parts c p) with
       | [] => "."
       | ps => String.concat (String c "") ps
       end.

Definition host_dirname (c : ascii) (p : string) : string :=
  match removelast (components c p) with
  | [] => ""
  | [ "" ] => String c ""
  | init => String.concat (String c "") init
  end.

Fixpoint strip_common (xs ys : list string) : list string * list string :=
  match xs, ys with
  | x :: xs', y :: ys' =>
      if String.eqb x y then strip_common xs' ys' else (xs, ys)
  | _, _ => (xs, ys)
  end.

Definition host_relpath (c : ascii) (cwd path start : string) : string :=
  let start_list := parts c (host_abspath c cwd start) in
  let path_list := parts c (host_abspath c cwd path) in
  let '(up, down) := strip_common start_list path_list in
  match ((const ".." <$> up) ++ down)%list with
  | [] => "."
  | rel_list => String.concat (String c "") rel_list
  end.

Definition host_ancestors (c : ascii) (d : string) : list string :=
  (λ n, render_abs c (take n (parts c d))) <$> seq 0 (S (length (parts c d))).

Definition host_path (c : ascii) : OsPath :=
  {| sep := String c "";
     join := host_join c;
     normpath := host_normpath c;
     dirname := host_dirname c;
     abspath := host_abspath c;
     relpath := host_relpath c;
     ancestors := host_ancestors c |}.

Definition slash : ascii := ascii_of_nat 47.
Definition backslash : ascii := ascii_of_nat 92.

Definition posix_host : OsPath := host_path slash.
Definition backslash_host : OsPath := host_path backslash.

(** *** Directory listings read off the file map *)
Definition is_prefix_of (xs ys : list string) : bool :=
  bool_decide (take (length xs) ys = xs).

(** One [walk] item per file below [directory]: the directory that
    holds it, spelled from [directory] on, and its name. *)
Definition host_walk (c : ascii) (w : World) (directory : string)
  : list (string * list string) :=
  let base := parts c (host_abspath c (cwd w) directory) in
  '(path, _) ← map_to_list (files w);
  let ps := parts c path in
  if is_prefix_of base ps && bool_decide (length base < length ps)%nat then
    let below := drop (length base) ps in
    [(fold_left (host_join c) (removelast below) directory, [List.last below ""])]
  else [].

Definition host_listdir (c : ascii) (w : World) (directory : string) : list string :=
  let base := parts c (host_abspath c (cwd w) directory) in
  '(path, _) ← map_to_list (files w);
  let ps := parts c path in
  if is_prefix_of base ps && bool_decide (length ps = S (length base)) then
    [List.last ps ""]
  else [].

Definition host_dir (c : ascii) : OsDir :=
  {| walk := host_walk c; listdir := host_listdir c |}.

(** *** A parser that accepts the byte strings opening with [<] *)
Definition opens_with_angle (b : bytes) : option bytes :=
  match b with
  | x :: _ => if Byte.eqb x "<"%byte then Some b else None
  | [] => None
  end.

Definition angle_xml : Lxml :=
  {| etree := bytes;
     etree_parse := opens_with_angle;
     etree_fromstring := opens_with_angle;
     etree_indent := id;
     etree_tostring := id |}.

(** *** Engines *)
Definition block_at (base : Z) (b : bytes) : gmap Z byte :=
  list_to_map (imap (λ i x, (base + Z.of_nat i, x)) b).

Definition pointer_to (base : Z) (b : bytes) : option Z :=
  match b with [] => None | _ => Some base end.

(** An engine that answers every call with status [st], output [out]
    and report [rep], and overwrites the input block with zeros. *)
Definition fixed_engine (st : Z) (out rep : bytes) : Engine :=
  {| engine_call := λ _ _ block _,
       NativeReturns
         {| nr_status := st;
            nr_input_buffer := const "000"%byte <$> block;
            nr_output_buffer := pointer_to 4096 out;
            nr_output_buffer_length := length out;
            nr_output_report_buffer := pointer_to 8192 rep;
            nr_output_report_buffer_length := length rep;
            nr_memory := block_at 4096 out ∪ block_at 8192 rep |} |}.

(** An engine that copies its input to the output and the policy to
    the report. *)
Definition echo_engine : Engine :=
  {| engine_call := λ f cwd block policy,
       @engine_call (fixed_engine 1 block policy) f cwd block policy |}.

(** An engine whose calls raise. *)
Definition raising_engine : Engine :=
  {| engine_call := λ _ _ _ _, NativeRaises (NativeError "access violation") |}.

(** *** Status tables *)
Definition sample_tables : StatusTables :=
  {| success_codes := {[ 1 ]};
     error_codes := {[ (-1) := KnownError "GeneralFail" ]} |}.

(** *** A world: a library directory, an input tree, a policy file *)
Definition doc1 : bytes := encode "PK-one".
Definition policy_xml : string := "<config/>".

Definition sample_world (c : ascii) : World :=
  let p := render_abs c in
  {| cwd := p ["home"];
     files := {[ p ["in"; "a"; "doc1.zip"] := doc1 ]};
     dirs := list_to_set [p []; p ["home"]; p ["lib"]; p ["in"]; p ["in"; "a"]];
     heap := {[ 1%positive := ObjBytearray doc1;
                2%positive := ObjBytesIO doc1 0 ]};
     native_mem := ∅;
     lib_log := [] |}.

(** *** A digest that spells out the bytes it was fed *)
Definition spelled_digest : Hashlib := {| md5_hexdigest := decode |}.

(** *** Two visual comparisons, on disk as [/expected.json] and
    [/output.json] *)
Definition expected_comparison : gmap string (gmap string scalar) :=
  {[ "a.doc" := {[ "visually_identical" := JBool true; "tolerance" := JInt 0 ]};
     "b.doc" := {[ "error" := JStr "VisualComparisonToolTimeout" ]};
     "c.doc" := {[ "visually_identical" := JBool false; "tolerance" := JInt 0;
                   "error" := JStr "VisualComparisonToolContentMismatch" ]} ]}.

Definition output_comparison : gmap string (gmap string scalar) :=
  {[ "a.doc" := {[ "visually_identical" := JBool false; "tolerance" := JInt 0;
                   "error" := JStr "VisualComparisonToolFileMismatch" ]};
     "b.doc" := {[ "visually_identical" := JBool true; "tolerance" := JInt 0 ]} ]}.

Definition sample_json : Json :=
  {| json_load := λ b,
       if String.eqb (decode b) "expected" then Some expected_comparison
       else if String.eqb (decode b) "output" then Some output_comparison
       else None |}.

Definition comparison_world : World :=
  set_files {[ "/expected.json" := encode "expected";
               "/output.json" := encode "output" ]} (sample_world slash).

(** *** A return of the engine with no output file and a report *)
Definition report_only : native_return :=
  {| nr_status := 1;
     nr_input_buffer := [];
     nr_output_buffer := None;
     nr_output_buffer_length := 0;
     nr_output_report_buffer := Some 8192;
     nr_output_report_buffer_length := 2;
     nr_memory := block_at 8192 (encode "<r") |}.

(** *** An archive manager on a host with separator [c] *)
Definition sample_library_path (c : ascii) : string :=
  render_abs c ["lib"; "engine.so"].

Definition analyse (c : ascii) (E : Engine) :=
  @ArchiveManager.analyse_archive (host_path c) angle_xml E sample_tables
    (sample_library_path c) policy_xml.

Definition protect (c : ascii) (E : Engine) :=
  @ArchiveManager.protect_archive (host_path c) angle_xml E sample_tables
    (sample_library_path c) policy_xml.

Definition analyse_dir (c : ascii) (E : Engine) :=
  @ArchiveManager.analyse_directory (host_path c) (host_dir c) angle_xml E
    sample_tables (sample_library_path c) policy_xml.

Definition protect_dir (c : ascii) (E : Engine) :=
  @ArchiveManager.protect_directory (host_path c) (host_dir c) angle_xml E
    sample_tables (sample_library_path c) policy_xml.
End Samples.

(** ** Observations on a run *)

(** How often [GwArchiveDone] has been called. *)
Definition done_calls (w : World) : nat :=
  length (filter (λ e, e = Call GwArchiveDone) (lib_log w)).

(** The foreign functions whose [.argtypes] has been assigned, and the
    foreign functions called. *)
Definition declared_functions (w : World) : list entry_point :=
  omap (λ e, match e with SetArgtypes f => Some f | _ => None end) (lib_log w).

Definition called_functions (w : World) : list entry_point :=
  omap (λ e, match e with Call f => Some f | _ => None end) (lib_log w).

Definition is_Ok {A} (r : result A) : bool :=
  match r with Ok _ => true | Raised _ => false end.

(** The three-way reading of a status code, in the words of the
    specification: the success set first, then the failure mapping, then
    the catch-all. *)
Inductive status_outcome : Type :=
| Success
| KnownFailure (cls : error_class)
| UnknownFailure.

Definition resolve `{StatusTables} (st : Z) : status_outcome :=
  if bool_decide (st ∈ success_codes) then Success
  else match error_codes !! st with
       | Some cls => KnownFailure cls
       | None => UnknownFailure
       end.

Import ArchiveManager gw_utils.

(** ** Invariants and relations used in the statements *)

(** [inv I m]: a run of [m] from a world in [I] ends in [I], whether it
    returns or raises. *)
Definition inv {A} (I : World → Prop) (m : M A) : Prop :=
  ∀ w, I w → I (final m w).

(** The working directory, the files and the directories are the same in
    both worlds; a step that never changes them. *)
Definition same_fs (w w' : World) : Prop :=
  cwd w' = cwd w ∧ files w' = files w ∧ dirs w' = dirs w.

Definition fs_frame {A} (m : M A) : Prop := ∀ w, same_fs w (final m w).

(** The directory [c] exists, and, when [here] is set, the process is
    in it. *)
Definition dir_inv (c : string) (here : bool) (w : World) : Prop :=
  (if here then cwd w = c else True) ∧ c ∈ dirs w.

(** The object [l] is a [bytearray] holding [data]. *)
Definition holds (l : loc) (data : bytes) (w : World) : Prop :=
  heap w !! l = Some (ObjBytearray data).

(** The key under which [protect_directory] files a result. *)
Definition key_of `{OsPath} (input_directory c input_file : string) : string :=
  relpath c input_file input_directory.

(** The call of [protect_archive] that one turn of the loop of
    [protect_directory] makes for [input_file], in a process whose working
    directory is [c]: the output paths are built from the two output
    directories and the key of the file. *)
Definition loop_call `{OsPath, Lxml, Engine, StatusTables}
    (library_path default_policy input_directory : string)
    (output_directory output_report_directory : option string)
    (policy : pyval) (raise_unsupported : bool) (c : string)
    (input_file : string) : M GwReturnObj :=
  protect_archive library_path default_policy (VStr input_file)
    match output_directory with
    | None => VNone
    | Some d => VStr (join (abspath c d) (key_of input_directory c input_file))
    end
    match output_report_directory with
    | None => VNone
    | Some d =>
        VStr (join (abspath c d) (key_of input_directory c input_file ++ ".xml"))
    end policy raise_unsupported.

(** The calls [call x] for the [paths], made in this order from the world
    [w], each in the world the one before it left, all returned: [results]
    are what they returned, in the same order, and [w'] is the world after
    the last. *)
Inductive made_in_order {A} (call : string → M A)
  : list string → World → list A → World → Prop :=
| made_none w : made_in_order call [] w [] w
| made_next x xs w a w1 results w' :
    call x w = (Ok a, w1) →
    made_in_order call xs w1 results w' →
    made_in_order call (x :: xs) w (a :: results) w'.

(** [key] stands at place [i] of [keys] and at no later place. *)
Definition last_with_key (keys : list string) (i : nat) (key : string) : Prop :=
  keys !! i = Some key ∧ ∀ j, (i < j)%nat → keys !! j ≠ Some key.

(** [r] is what the foreign function [f] returned on some block, in some
    working directory, for the policy string [policy]. *)
Definition returned_by `{Engine} (f : entry_point) (r : native_return) : Prop :=
  ∃ dir block policy, engine_call f dir block policy = NativeReturns r.

(** What the result and the world of a run that returned owe to the
    lengths the foreign function [f] reports. *)
Definition outputs_respect_lengths `{Engine} (f : entry_point)
    (w : World) (g : GwReturnObj) (w' : World) : Prop :=
  ((∀ r, returned_by f r → nr_output_buffer_length r = 0%nat) →
   output_file g = []) ∧
  ((∀ r, returned_by f r → nr_output_report_buffer_length r = 0%nat) →
   output_report g = []) ∧
  ((∀ r, returned_by f r →
      nr_output_buffer_length r = 0%nat ∧
      nr_output_report_buffer_length r = 0%nat) →
   files w' = files w ∧ dirs w' = dirs w).

(** [t] is a tree that [etree.parse] or [etree.fromstring] built. *)
Definition parsed `{Lxml} (t : etree) : Prop :=
  ∃ b, etree_parse b = Some t ∨ etree_fromstring b = Some t.

(** What a run that started with the library log [L] may have added to
    it: nothing or only [s], if it raised; or [s] and then [c]. *)
Definition trace_shape {A} (L : list lib_event) (s c : lib_event)
    (r : result A) (v : World) : Prop :=
  (is_Ok r = false ∧ lib_log v = L) ∨
  (is_Ok r = false ∧ lib_log v = (L ++ [s])%list) ∨
  lib_log v = (L ++ [s; c])%list.

(** The run of [m] from [w] uses the library in the order of the method
    body: the [.argtypes] assignment on [declared], the call of [invoked],
    the call of [GwArchiveDone]; all three when [m] returns, and a prefix
    of the first two when it raises. *)
Definition uses_library_in_order {A} (declared invoked : entry_point)
    (m : M A) (w : World) : Prop :=
  ∃ added : list lib_event,
    lib_log (final m w) = (lib_log w ++ added)%list ∧
    if is_Ok (outcome m w)
    then added = [SetArgtypes declared; Call invoked; Call GwArchiveDone]
    else added = [] ∨ added = [SetArgtypes declared] ∨
         added = [SetArgtypes declared; Call invoked].

(** What [abspath_if_str] makes of an output argument in a process whose
    working directory is [c]. *)
Definition absolute_if_str `{OsPath} (c : string) (o : pyval) : pyval :=
  match o with VStr p => VStr (abspath c p) | _ => o end.

(** [p] names the same file from every working directory. *)
Definition absolute `{OsPath} (p : string) : Prop := ∀ c, abspath c p = p.

(** [p], taken from the working directory [c], is spelled out: its
    absolute path is [p] joined to [c] as it stands, and [abspath] has
    nothing to resolve in it -- no empty step, no [.] or [..], no
    separator at the end.  The system then looks for [p] at its absolute
    path. *)
Definition spelled_out `{OsPath} (c p : string) : Prop :=
  abspath c p = join c p.

(** [q] is the file that the output argument [o] names in [w]. *)
Definition names_file `{OsPath} (w : World) (o : pyval) (q : string) : Prop :=
  ∃ p, o = VStr p ∧ q = abspath (cwd w) p.

(** The directory that [CwdHandler(new_cwd=library_path)] changes to:
    [library_path] if it is a directory, else the directory part of it. *)
Definition library_directory `{OsPath} (w : World) (library_path : string)
  : string :=
  if bool_decide (abspath (cwd w) library_path ∈ dirs w)
  then library_path else dirname library_path.

(** * Theorems *)

(** ** The monad *)

Lemma bind_Ok {A B} (m : M A) (k : A → M B) w a w' :
  m w = (Ok a, w') → bind m k w = k a w'.
Proof. intros E. unfold bind. by rewrite E. Qed.

Lemma bind_Raised {A B} (m : M A) (k : A → M B) w e w' :
  m w = (Raised e, w') → bind m k w = (Raised e, w').
Proof. intros E. unfold bind. by rewrite E. Qed.

Lemma bind_run_Ok {A B} (m : M A) (k : A → M B) w b w' :
  bind m k w = (Ok b, w') →
  ∃ a w1, m w = (Ok a, w1) ∧ k a w1 = (Ok b, w').
Proof.
  unfold bind. destruct (m w) as [[a|e] w1]; [|done].
  intros Hk. by exists a, w1.
Qed.

Lemma bind_ret_l {A B} (a : A) (k : A → M B) w : bind (ret a) k w = k a w.
Proof. reflexivity. Qed.

Lemma bind_ext_m {A B} (m1 m2 : M A) (k : A → M B) w :
  m1 w = m2 w → bind m1 k w = bind m2 k w.
Proof. intros E. unfold bind. by rewrite E. Qed.

(** ** Status codes *)

Section Status.
Context `{StatusTables}.

(** C5. A status code is read three ways, in order: a code of the
    success set raises nothing, whatever [raise_unsupported] is; a code
    outside the success set that the failure mapping knows raises, when
    raising is enabled, the class mapped to it, built with the code; a
    code in neither table raises, when raising is enabled, the catch-all
    [UnknownErrorCode] built with the raw code.  With raising disabled
    no code raises.  [resolve] is the specification's three-way
    resolution, and [check_status] follows it. *)
Theorem check_status_three_way (st : Z) (w : World) :
  (st ∈ success_codes →
     resolve st = Success ∧
     ∀ raise_unsupported, check_status st raise_unsupported w = (Ok tt, w)) ∧
  (∀ cls, st ∉ success_codes → error_codes !! st = Some cls →
     resolve st = KnownFailure cls ∧
     check_status st true w = (Raised (EngineError cls st), w)) ∧
  (st ∉ success_codes → error_codes !! st = None →
     resolve st = UnknownFailure ∧
     check_status st true w = (Raised (EngineError UnknownErrorCode st), w)) ∧
  check_status st false w = (Ok tt, w).
Proof.
  unfold resolve, check_status. split; [|split; [|split]].
  - intros Hin. rewrite bool_decide_true by done. by split.
  - intros cls Hout Hcls. rewrite bool_decide_false by done.
    rewrite Hcls. by split.
  - intros Hout Hnone. rewrite bool_decide_false by done.
    rewrite Hnone. by split.
  - by destruct (bool_decide _).
Qed.
End Status.

(** With success set [{1}] and failure mapping [{-1: GeneralFail}]: the
    status 1 raises nothing, -1 raises its class, 7 raises the catch-all. *)
Lemma check_status_three_way_witness :
  let w := Samples.sample_world Samples.slash in
  let T := Samples.sample_tables in
  ((1 ∈ @success_codes T) ∧
   @check_status T 1 true w = (Ok tt, w)) ∧
  (((-1) ∉ @success_codes T) ∧
   (@error_codes T) !! (-1) = Some (KnownError "GeneralFail") ∧
   @check_status T (-1) true w
   = (Raised (EngineError (KnownError "GeneralFail") (-1)), w)) ∧
  ((7 ∉ @success_codes T) ∧
   (@error_codes T) !! 7 = None ∧
   @check_status T 7 true w = (Raised (EngineError UnknownErrorCode 7), w)).
Proof.
  intros w T.
  destruct (@check_status_three_way T 1 w) as (H1 & _).
  destruct (@check_status_three_way T (-1) w) as (_ & H2 & _).
  destruct (@check_status_three_way T 7 w) as (_ & _ & H3 & _).
  assert (Hin : 1 ∈ @success_codes T) by (simpl; set_solver).
  assert (Hout : ∀ z, z ≠ 1 → z ∉ @success_codes T) by (simpl; set_solver).
  split; [|split].
  - split; [exact Hin | by apply H1].
  - split; [by apply Hout|]. split; [reflexivity|].
    apply (H2 (KnownError "GeneralFail")); [by apply Hout | reflexivity].
  - split; [by apply Hout|]. split; [reflexivity|].
    apply H3; [by apply Hout | reflexivity].
Defined.

(** ** Release *)

Section Release.
Context `{OsPath, OsDir, Lxml, Engine, StatusTables}.

Lemma release_run (w : World) :
  release w
  = (Ok tt, set_native_mem ∅ (set_lib_log (lib_log w ++ [Call GwArchiveDone]) w)).
Proof. reflexivity. Qed.

Lemma release_done_calls (w : World) :
  done_calls (final release w) = S (done_calls w).
Proof.
  unfold final. rewrite release_run. unfold done_calls. simpl.
  rewrite filter_app, length_app, filter_cons, filter_nil.
  destruct (decide _); [simpl; lia | congruence].
Qed.

(** What [release_after] does, on either outcome of the wrapped
    function: [self.release()] runs once after a normal return and not
    at all after an exception, which leaves the wrapper as it left the
    function. *)
Lemma release_after_done_calls {A} (function : M A) (w : World) :
  outcome (release_after function) w = outcome function w ∧
  done_calls (final (release_after function) w)
  = (done_calls (final function w)
     + if is_Ok (outcome function w) then 1 else 0)%nat.
Proof.
  unfold release_after, outcome, final, bind.
  destruct (function w) as [[a|e] w'] eqn:E; simpl.
  - pose proof (release_done_calls w') as R. unfold final in R.
    rewrite release_run in *. simpl in *. split; [done|]. rewrite R. lia.
  - split; [done|]. lia.
Qed.
End Release.

(** C1. On the failing inputs the release entry point is not invoked.
    [protect_archive] on an existing archive for which the engine answers
    the failure status -1, with raising enabled, makes the foreign call,
    raises the typed engine failure and leaves [GwArchiveDone] uncalled;
    an input of an unsupported type (TypeError), an absent input path
    (FileNotFoundError) and a malformed policy (ValueError) leave it
    uncalled as well; the same call on a success status calls it once. *)
Theorem release_skipped_when_operation_raises :
  let w := Samples.sample_world Samples.slash in
  let failing := Samples.fixed_engine (-1) [] [] in
  let input := VStr "/in/a/doc1.zip" in
  ( outcome (Samples.protect Samples.slash failing input VNone VNone VNone true) w
    = Raised (EngineError (KnownError "GeneralFail") (-1)) ∧
    called_functions (final (Samples.protect Samples.slash failing input VNone VNone VNone true) w)
    = [GwFileProtectAndReportArchive] ∧
    done_calls (final (Samples.protect Samples.slash failing input VNone VNone VNone true) w) = 0%nat ) ∧
  ( outcome (Samples.analyse Samples.slash Samples.echo_engine (VInt 5) VNone VNone VNone true) w
    = Raised (TypeError (VInt 5)) ∧
    done_calls (final (Samples.analyse Samples.slash Samples.echo_engine (VInt 5) VNone VNone VNone true) w) = 0%nat ) ∧
  ( outcome (Samples.analyse Samples.slash Samples.echo_engine (VStr "/in/absent.zip") VNone VNone VNone true) w
    = Raised (FileNotFoundError "/in/absent.zip") ∧
    done_calls (final (Samples.analyse Samples.slash Samples.echo_engine (VStr "/in/absent.zip") VNone VNone VNone true) w) = 0%nat ) ∧
  ( outcome (Samples.analyse Samples.slash Samples.echo_engine input VNone VNone (VStr "not xml") true) w
    = Raised (ValueError (VBytes (encode "not xml"))) ∧
    done_calls (final (Samples.analyse Samples.slash Samples.echo_engine input VNone VNone (VStr "not xml") true) w) = 0%nat ) ∧
  ( is_Ok (outcome (Samples.protect Samples.slash Samples.echo_engine input VNone VNone VNone true) w) = true ∧
    done_calls (final (Samples.protect Samples.slash Samples.echo_engine input VNone VNone VNone true) w) = 1%nat ).
Proof. vm_compute. repeat split. Qed.

(** ** Input shapes *)

Section BytesInput.
Context `{OsPath, Lxml, Engine, StatusTables}.
Variable library_path : string.
Variable default_policy : string.

(** No run of the method body on a [bytes] input returns: either an
    earlier step raises, or the unbound name does. *)
Lemma archive_body_bytes_raises declared invoked b o1 o2 p ru w :
  is_Ok (outcome (archive_body library_path default_policy declared invoked
                    (VBytes b) o1 o2 p ru) w) = false.
Proof.
  unfold outcome.
  destruct (archive_body _ _ _ _ _ _ _ _ _ w) as [[g|e] w'] eqn:Hrun; [|done].
  exfalso. unfold archive_body in Hrun.
  do 6 (apply bind_run_Ok in Hrun as (? & ? & _ & Hrun)).
  apply bind_run_Ok in Hrun as (bound & ? & Hread & Hrun).
  unfold read_input, ret in Hread. simplify_eq.
  do 2 (apply bind_run_Ok in Hrun as (? & ? & _ & Hrun)).
  by apply bind_run_Ok in Hrun as (? & ? & Hname & _).
Qed.

Lemma bytes_input_never_completes b o1 o2 p ru w :
  is_Ok (outcome (analyse_archive library_path default_policy
                    (VBytes b) o1 o2 p ru) w) = false ∧
  is_Ok (outcome (protect_archive library_path default_policy
                    (VBytes b) o1 o2 p ru) w) = false.
Proof.
  unfold analyse_archive, protect_archive, release_after, outcome, bind.
  split.
  - pose proof (archive_body_bytes_raises GwFileAnalysisArchive
                  GwFileAnalysisArchive b o1 o2 p ru w) as Hb.
    unfold outcome in Hb.
    by destruct (archive_body _ _ _ _ _ _ _ _ _ w) as [[g|e] w'].
  - pose proof (archive_body_bytes_raises GwFileAnalysisArchive
                  GwFileProtectAndReportArchive b o1 o2 p ru w) as Hb.
    unfold outcome in Hb.
    by destruct (archive_body _ _ _ _ _ _ _ _ _ w) as [[g|e] w'].
Qed.
End BytesInput.

(** C2. On the failing input, an archive handed over as [bytes], neither
    method completes: no branch binds [input_file_bytes], and the use of
    the name raises [UnboundLocalError] once the policy is validated and
    [.argtypes] assigned, before any foreign call.  The same content as a
    path, a [bytearray] or an [io.BytesIO] gives the one result. *)
Theorem bytes_input_is_not_read :
  let w := Samples.sample_world Samples.slash in
  let E := Samples.echo_engine in
  let good := Ok (mkGwReturnObj 1 Samples.doc1 (encode Samples.policy_xml)) in
  ( outcome (Samples.analyse Samples.slash E (VBytes Samples.doc1) VNone VNone VNone true) w
    = Raised (UnboundLocalError "input_file_bytes") ∧
    outcome (Samples.protect Samples.slash E (VBytes Samples.doc1) VNone VNone VNone true) w
    = Raised (UnboundLocalError "input_file_bytes") ∧
    called_functions (final (Samples.analyse Samples.slash E (VBytes Samples.doc1) VNone VNone VNone true) w)
    = [] ) ∧
  ( outcome (Samples.analyse Samples.slash E (VStr "/in/a/doc1.zip") VNone VNone VNone true) w = good ∧
    outcome (Samples.analyse Samples.slash E (VBytearray 1) VNone VNone VNone true) w = good ∧
    outcome (Samples.analyse Samples.slash E (VBytesIO 2) VNone VNone VNone true) w = good ).
Proof. vm_compute. repeat split. Qed.

(** An [io.BytesIO] is read from its current position on: a stream over
    the same six bytes that stands at position 3 hands the engine the last
    three. *)
Lemma bytesio_is_read_from_its_position :
  let w := set_heap (<[2%positive := ObjBytesIO Samples.doc1 3]>
                       (heap (Samples.sample_world Samples.slash)))
             (Samples.sample_world Samples.slash) in
  outcome (Samples.analyse Samples.slash Samples.echo_engine
             (VBytesIO 2) VNone VNone VNone true) w
  = Ok (mkGwReturnObj 1 (drop 3 Samples.doc1) (encode Samples.policy_xml)).
Proof. vm_compute. reflexivity. Qed.

(** ** Entry points *)

(** C3. On the failing input, any call of [protect_archive] that reaches
    the declaration: [.argtypes] is assigned on [GwFileAnalysisArchive]
    and the function called is [GwFileProtectAndReportArchive], whose
    [.argtypes] is never assigned.  [analyse_archive] declares the
    function it calls. *)
Theorem protect_archive_declares_other_entry_point :
  let w := Samples.sample_world Samples.slash in
  let E := Samples.echo_engine in
  ( declared_functions (final (Samples.protect Samples.slash E (VBytearray 1) VNone VNone VNone true) w)
    = [GwFileAnalysisArchive] ∧
    called_functions (final (Samples.protect Samples.slash E (VBytearray 1) VNone VNone VNone true) w)
    = [GwFileProtectAndReportArchive; GwArchiveDone] ) ∧
  ( declared_functions (final (Samples.analyse Samples.slash E (VBytearray 1) VNone VNone VNone true) w)
    = [GwFileAnalysisArchive] ∧
    called_functions (final (Samples.analyse Samples.slash E (VBytearray 1) VNone VNone VNone true) w)
    = [GwFileAnalysisArchive; GwArchiveDone] ).
Proof. vm_compute. repeat split. Qed.

(** ** Invariants of runs *)

Lemma inv_ret {A} I (a : A) : inv I (ret a).
Proof. by intros w. Qed.

Lemma inv_raise {A} I e : inv I (@raise A e).
Proof. by intros w. Qed.

Lemma inv_get I : inv I get.
Proof. by intros w. Qed.

Lemma inv_modify (I : World → Prop) f : (∀ w, I w → I (f w)) → inv I (modify f).
Proof. intros Hf w. apply Hf. Qed.

Lemma inv_bind {A B} I (m : M A) (k : A → M B) :
  inv I m → (∀ a, inv I (k a)) → inv I (bind m k).
Proof.
  intros Hm Hk w Hw. specialize (Hm w Hw). unfold final, bind in *.
  destruct (m w) as [[a|e] w']; simpl in *; [by apply Hk | done].
Qed.

(** A [bind] whose continuation may rely on a fact [Q] about the value
    that was returned. *)
Lemma inv_bind_post {A B} I (Q : A → Prop) (m : M A) (k : A → M B) :
  inv I m →
  (∀ w a, I w → outcome m w = Ok a → Q a) →
  (∀ a, Q a → inv I (k a)) →
  inv I (bind m k).
Proof.
  intros Hm HQ Hk w Hw. specialize (Hm w Hw). specialize (HQ w).
  unfold final, outcome, bind in *.
  destruct (m w) as [[a|e] w']; simpl in *; [|done].
  apply Hk; [by apply HQ | done].
Qed.

Create HintDb inv discriminated.
#[export] Hint Resolve inv_ret inv_raise inv_get : inv.

(** Opens one [bind], or one [match] or [if] on a value. *)
Ltac inv_step :=
  match goal with
  | |- inv _ (bind _ _) => apply inv_bind; [|intros ?]
  | |- inv _ (match ?x with _ => _ end) => destruct x
  | |- inv _ (if ?x then _ else _) => destruct x
  | |- inv _ (let _ := _ in _) => cbv zeta
  end.

Ltac inv_auto := repeat (first [solve [eauto with inv] | inv_step]).

(** ** The working directory *)

Section WorkingDirectory.
Context `{OsPath, OsDir, Lxml, Engine, StatusTables}.
Variable library_path : string.
Variable default_policy : string.

(** [c] is the working directory of the process before the call: an
    absolute path, which [abspath] leaves as it is, of a directory that
    exists. *)
Variable c : string.
Hypothesis abspath_c : ∀ x, abspath x c = c.

Ltac prim :=
  intros w; unfold dir_inv, final;
  cbv [isfile isdir getcwd chdir read_file write_file makedirs alloc
       bytearray_contents stream_read log_lib release check_status
       buffer_to_bytes check_type abspath_if_str
       bind get modify ret raise];
  simpl; intros;
  repeat (case_match; simpl in *; simplify_eq; try done);
  try (destruct_and?; split; try done); try set_solver.

Section Steps.
Variable here : bool.

Lemma inv_isfile p : inv (dir_inv c here) (isfile p).
Proof. prim. Qed.
Lemma inv_read_file p : inv (dir_inv c here) (read_file p).
Proof. prim. Qed.
Lemma inv_write_file p data : inv (dir_inv c here) (write_file p data).
Proof. prim. Qed.
Lemma inv_makedirs d : inv (dir_inv c here) (makedirs d).
Proof. prim. Qed.
Lemma inv_alloc o : inv (dir_inv c here) (alloc o).
Proof. prim. Qed.
Lemma inv_bytearray_contents l : inv (dir_inv c here) (bytearray_contents l).
Proof. prim. Qed.
Lemma inv_stream_read l : inv (dir_inv c here) (stream_read l).
Proof. prim. Qed.
Lemma inv_log_lib e : inv (dir_inv c here) (log_lib e).
Proof. prim. Qed.
Lemma inv_release : inv (dir_inv c here) release.
Proof. prim. Qed.
Lemma inv_check_status st ru : inv (dir_inv c here) (check_status st ru).
Proof. prim. Qed.
Lemma inv_buffer_to_bytes b n : inv (dir_inv c here) (buffer_to_bytes b n).
Proof. prim. Qed.
Lemma inv_check_type v cs : inv (dir_inv c here) (check_type v cs).
Proof. prim. Qed.
Lemma inv_abspath_if_str v : inv (dir_inv c here) (abspath_if_str v).
Proof. prim. Qed.

Hint Resolve inv_isfile inv_read_file inv_write_file inv_makedirs inv_alloc
  inv_bytearray_contents inv_stream_read inv_log_lib inv_release
  inv_check_status inv_buffer_to_bytes inv_check_type inv_abspath_if_str : inv.

Lemma inv_tree_or_ValueError xml t : inv (dir_inv c here) (tree_or_ValueError xml t).
Proof. unfold tree_or_ValueError. inv_auto. Qed.
Hint Resolve inv_tree_or_ValueError : inv.

Lemma inv_as_bytes v : inv (dir_inv c here) (as_bytes v).
Proof. unfold as_bytes. inv_auto. Qed.

Lemma inv_as_io_BytesIO v : inv (dir_inv c here) (as_io_BytesIO v).
Proof. unfold as_io_BytesIO. inv_auto. Qed.
Hint Resolve inv_as_bytes inv_as_io_BytesIO : inv.

Lemma inv_validate_xml xml : inv (dir_inv c here) (validate_xml xml).
Proof. unfold validate_xml. inv_auto. Qed.
Hint Resolve inv_validate_xml : inv.

Lemma inv_read_input v : inv (dir_inv c here) (read_input v).
Proof. unfold read_input. inv_auto. Qed.

Lemma inv_load_policy v : inv (dir_inv c here) (load_policy default_policy v).
Proof. unfold load_policy. inv_auto. Qed.

Lemma inv_write_output data path : inv (dir_inv c here) (write_output data path).
Proof. unfold write_output. inv_auto. Qed.
Hint Resolve inv_read_input inv_load_policy inv_write_output : inv.

Lemma inv_collect_outputs r o1 o2 ru : inv (dir_inv c here) (collect_outputs r o1 o2 ru).
Proof. unfold collect_outputs. inv_auto. Qed.
End Steps.

Lemma inv_foreign_call here f b policy :
  inv (dir_inv c here) (foreign_call f b policy).
Proof.
  intros w. unfold dir_inv, final, foreign_call.
  cbv [log_lib bytearray_contents bind get modify ret raise]. simpl.
  repeat (case_match; simpl in *; simplify_eq; try done).
Qed.

(** The handler: whatever the body does to the working directory, and
    whether it returns or raises, [__exit__] puts the process back in
    [c]; if [__enter__] raises, the process has not left [c]. *)
Lemma inv_with_CwdHandler {A} d (body : M A) :
  inv (dir_inv c false) body → inv (dir_inv c true) (with_CwdHandler d body).
Proof.
  intros Hbody w [Hcwd Hdir]. unfold final, with_CwdHandler.
  cbv [CwdHandler__init__ CwdHandler__enter__ CwdHandler__exit__ chdir
       isdir getcwd bind get modify ret raise]. simpl.
  case_bool_decide; simpl; [|by destruct (file_on_the_way _ _)].
  match goal with |- context [body ?w1] =>
    specialize (Hbody w1); unfold final in Hbody;
    destruct (body w1) as [r w2] end.
  destruct Hbody as [_ Hdir2]; [by split|]. simpl in Hdir2.
  rewrite Hcwd, abspath_c, bool_decide_true by done.
  simpl. rewrite abspath_c. by split.
Qed.

Lemma inv_api_call f b policy :
  inv (dir_inv c true) (api_call library_path f b policy).
Proof. apply inv_with_CwdHandler, inv_foreign_call. Qed.

Hint Resolve inv_check_type inv_abspath_if_str inv_read_input inv_load_policy
  inv_log_lib inv_alloc inv_api_call inv_collect_outputs inv_release : inv.

Lemma inv_archive_body declared invoked i o1 o2 p ru :
  inv (dir_inv c true)
    (archive_body library_path default_policy declared invoked i o1 o2 p ru).
Proof. unfold archive_body. inv_auto. Qed.

Lemma inv_release_after {A} I (function : M A) :
  inv I function → inv I release → inv I (release_after function).
Proof. intros Hf Hr. unfold release_after. inv_auto. Qed.

Lemma inv_analyse_archive i o1 o2 p ru :
  inv (dir_inv c true) (analyse_archive library_path default_policy i o1 o2 p ru).
Proof. apply inv_release_after; [apply inv_archive_body | apply inv_release]. Qed.

Lemma inv_protect_archive i o1 o2 p ru :
  inv (dir_inv c true) (protect_archive library_path default_policy i o1 o2 p ru).
Proof. apply inv_release_after; [apply inv_archive_body | apply inv_release]. Qed.
End WorkingDirectory.

(** C8. The process is in an existing directory whose path [abspath]
    leaves as it is.  Then the API call under the working-directory
    handler ends in that directory on every exit path: when the foreign
    function returns, when it raises (the exception is raised again after
    [__exit__]), and when [__enter__] itself raises; and so do
    [analyse_archive] and [protect_archive] as a whole, whatever they
    return or raise. *)
Theorem cwd_restored_on_every_exit `{OsPath, Lxml, Engine, StatusTables}
    (library_path default_policy : string) (w : World) :
  (∀ x, abspath x (cwd w) = cwd w) →
  cwd w ∈ dirs w →
  (∀ f b policy,
     cwd (final (api_call library_path f b policy) w) = cwd w) ∧
  (∀ i o1 o2 p ru,
     cwd (final (analyse_archive library_path default_policy i o1 o2 p ru) w)
     = cwd w) ∧
  (∀ i o1 o2 p ru,
     cwd (final (protect_archive library_path default_policy i o1 o2 p ru) w)
     = cwd w).
Proof.
  intros Habs Hdir.
  assert (Hw : dir_inv (cwd w) true w) by by split.
  split; [|split]; intros.
  - by apply (inv_api_call library_path (cwd w) Habs f b policy w).
  - by apply (inv_analyse_archive library_path default_policy (cwd w) Habs
                i o1 o2 p ru w).
  - by apply (inv_protect_archive library_path default_policy (cwd w) Habs
                i o1 o2 p ru w).
Qed.

(** On a host with separator [/], in [/home], with the library in [/lib]:
    the foreign call raises, the exception reaches the caller, and the
    process is back in [/home]. *)
Lemma cwd_restored_on_every_exit_witness :
  let w := Samples.sample_world Samples.slash in
  let api := @api_call Samples.posix_host Samples.raising_engine
               (Samples.sample_library_path Samples.slash)
               GwFileAnalysisArchive 1%positive [] in
  (∀ x, @abspath Samples.posix_host x (cwd w) = cwd w) ∧
  cwd w ∈ dirs w ∧
  outcome api w = Raised (NativeError "access violation") ∧
  cwd (final api w) = cwd w.
Proof.
  intros w api.
  assert (Habs : ∀ x, @abspath Samples.posix_host x (cwd w) = cwd w)
    by (intros x; reflexivity).
  assert (Hdir : cwd w ∈ dirs w) by compute_done.
  split; [exact Habs|]. split; [exact Hdir|]. split; [reflexivity|].
  exact (proj1 (@cwd_restored_on_every_exit Samples.posix_host Samples.angle_xml
                  Samples.raising_engine Samples.sample_tables
                  (Samples.sample_library_path Samples.slash) Samples.policy_xml
                  w Habs Hdir) GwFileAnalysisArchive 1%positive []).
Defined.

(** ** Empty outputs *)

Section EmptyOutputs.
Context `{OsPath, StatusTables}.

Lemma buffer_to_bytes_zero (buffer : option Z) (w : World) :
  buffer_to_bytes buffer 0 w = (Ok [], w).
Proof. reflexivity. Qed.

Lemma write_output_empty (path : pyval) (w : World) :
  write_output [] path w = (Ok tt, w).
Proof. reflexivity. Qed.

Lemma write_output_returns (data : bytes) (path : pyval) (w : World) :
  write_output data path w = (Ok tt, final (write_output data path) w).
Proof.
  unfold final, write_output. case_bool_decide; [|done]. by destruct path.
Qed.

Lemma check_status_world (st : Z) (ru : bool) (w : World) :
  final (check_status st ru) w = w.
Proof. unfold final, check_status. by repeat case_match. Qed.

Lemma buffer_to_bytes_world (buffer : option Z) (n : nat) (w : World) :
  final (buffer_to_bytes buffer n) w = w.
Proof.
  unfold final, buffer_to_bytes, bind, get. simpl. by case_match.
Qed.
End EmptyOutputs.

(** ** Steps that leave the file system and the working directory alone *)

Lemma same_fs_refl w : same_fs w w.
Proof. by repeat split. Qed.

Lemma same_fs_trans w1 w2 w3 : same_fs w1 w2 → same_fs w2 w3 → same_fs w1 w3.
Proof. intros (?&?&?) (?&?&?). repeat split; congruence. Qed.

Lemma fs_frame_bind {A B} (m : M A) (k : A → M B) :
  fs_frame m → (∀ a, fs_frame (k a)) → fs_frame (bind m k).
Proof.
  intros Hm Hk w. specialize (Hm w). unfold final, bind in *.
  destruct (m w) as [[a|e] w1]; simpl in *; [|done].
  eapply same_fs_trans; [exact Hm | apply Hk].
Qed.

(** Two continuations that agree on the worlds a frame-respecting step can
    reach give the same run. *)
Lemma bind_ext_fs {A B} (m : M A) (k1 k2 : A → M B) (w : World) :
  fs_frame m →
  (∀ a w', same_fs w w' → k1 a w' = k2 a w') →
  bind m k1 w = bind m k2 w.
Proof.
  intros Hm Hk. specialize (Hm w). unfold final, bind in *.
  destruct (m w) as [[a|e] w1]; simpl in *; [by apply Hk | done].
Qed.

Section Frames.
Context `{OsPath, Lxml}.

Ltac frame_prim :=
  intros w; unfold same_fs, final;
  cbv [isfile read_file alloc bytearray_contents stream_read log_lib
       check_type abspath_if_str bind get modify ret raise];
  simpl; repeat (case_match; simpl in *; simplify_eq; try done).

Lemma fs_frame_check_type v cs : fs_frame (check_type v cs).
Proof. frame_prim. Qed.

Lemma fs_frame_abspath_if_str v : fs_frame (abspath_if_str v).
Proof. frame_prim. Qed.

Lemma fs_frame_read_input v : fs_frame (read_input v).
Proof. unfold read_input, as_bytes. frame_prim. Qed.
End Frames.

(** ** String policies *)

Section StringPolicy.
Context `{OsPath, Lxml, Engine, StatusTables}.
Variable library_path : string.
Variable default_policy : string.

(** A string that names no file is parsed as the XML text it is, the way
    the text of a policy object is. *)
Lemma load_policy_str_not_file (s : string) (w : World) :
  files w !! abspath (cwd w) s = None →
  load_policy default_policy (VStr s) w
  = match etree_fromstring (encode s) with
    | Some t => (Ok (decode (etree_tostring (etree_indent t))), w)
    | None => (Raised (ValueError (VBytes (encode s))), w)
    end.
Proof.
  intros Hnot. unfold load_policy, validate_xml.
  cbv [isfile bind get ret raise tree_or_ValueError]. simpl.
  rewrite Hnot. simpl. rewrite Hnot. simpl.
  by destruct (etree_fromstring (encode s)).
Qed.

Lemma load_policy_object (s : string) (w : World) :
  load_policy default_policy (VPolicy s) w
  = match etree_fromstring (encode s) with
    | Some t => (Ok (decode (etree_tostring (etree_indent t))), w)
    | None => (Raised (ValueError (VBytes (encode s))), w)
    end.
Proof.
  unfold load_policy, validate_xml. cbv [bind ret raise tree_or_ValueError].
  by destruct (etree_fromstring (encode s)).
Qed.

Lemma archive_body_str_as_text declared invoked i o1 o2 ru (s : string) (w : World) :
  files w !! abspath (cwd w) s = None →
  archive_body library_path default_policy declared invoked i o1 o2 (VStr s) ru w
  = archive_body library_path default_policy declared invoked i o1 o2 (VPolicy s) ru w.
Proof.
  intros Hnot. unfold archive_body.
  apply bind_ext_fs; [apply fs_frame_check_type|]. intros _ w1 F1.
  apply bind_ext_fs; [apply fs_frame_check_type|]. intros _ w2 F2.
  apply bind_ext_fs; [apply fs_frame_check_type|]. intros _ w3 F3.
  assert (Hstr : check_type (VStr s)
                   [NoneType; str; bytes_; bytearray; BytesIO; Policy] = ret tt)
    by reflexivity.
  assert (Hpol : check_type (VPolicy s)
                   [NoneType; str; bytes_; bytearray; BytesIO; Policy] = ret tt)
    by reflexivity.
  rewrite Hstr, Hpol, !bind_ret_l.
  apply bind_ext_fs; [apply fs_frame_abspath_if_str|]. intros o1' w4 F4.
  apply bind_ext_fs; [apply fs_frame_abspath_if_str|]. intros o2' w5 F5.
  apply bind_ext_fs; [apply fs_frame_read_input|]. intros b w6 F6.
  assert (F : same_fs w w6) by eauto 10 using same_fs_trans.
  destruct F as (Fc & Ff & _).
  apply bind_ext_m.
  rewrite load_policy_str_not_file, load_policy_object; [done|].
  by rewrite Fc, Ff.
Qed.
End StringPolicy.



(** ** Re-normalising a policy

    [validate_xml] hands its own output back to [lxml]: the first pass
    may parse with [etree.parse], the second parses the string with
    [etree.fromstring].  Whether the second pass gives the same string is
    a matter of two laws of the library, which the wrapper does not
    establish: parsing what was serialised gives the tree back, and
    indenting twice is indenting once. *)

Section Renormalise.
Context `{OsPath, Lxml}.

Hypothesis round_trip : ∀ t,
  parsed t →
  etree_fromstring (encode (decode (etree_tostring (etree_indent t))))
  = Some (etree_indent t).
Hypothesis indent_idempotent : ∀ t,
  parsed t → etree_indent (etree_indent t) = etree_indent t.

Lemma tree_or_ValueError_parsed xml b t w w' :
  tree_or_ValueError xml (etree_parse b) w = (Ok t, w') ∨
  tree_or_ValueError xml (etree_fromstring b) w = (Ok t, w') →
  parsed t.
Proof.
  unfold tree_or_ValueError, ret, raise. intros [Hrun|Hrun]; exists b.
  - left. destruct (etree_parse b); by simplify_eq.
  - right. destruct (etree_fromstring b); by simplify_eq.
Qed.

Lemma validate_xml_serialises xml w s w1 :
  validate_xml xml w = (Ok s, w1) →
  ∃ t, parsed t ∧ s = decode (etree_tostring (etree_indent t)).
Proof.
  unfold validate_xml. intros Hrun.
  apply bind_run_Ok in Hrun as (t & w' & Htree & Hret).
  unfold ret in Hret. simplify_eq. exists t. split; [|done].
  destruct xml; simpl in Htree; try done.
  - apply bind_run_Ok in Htree as ([] & ? & _ & Htree).
    + apply bind_run_Ok in Htree as (? & ? & _ & Htree).
      eapply tree_or_ValueError_parsed; eauto.
    + eapply tree_or_ValueError_parsed; eauto.
  - apply bind_run_Ok in Htree as ([] & ? & _ & Htree); try done.
    apply bind_run_Ok in Htree as (? & ? & _ & Htree).
    eapply tree_or_ValueError_parsed; eauto.
  - apply bind_run_Ok in Htree as ([] & ? & _ & Htree); try done.
    apply bind_run_Ok in Htree as (? & ? & _ & Htree).
    eapply tree_or_ValueError_parsed; eauto.
  - apply bind_run_Ok in Htree as (? & ? & _ & Htree).
    eapply tree_or_ValueError_parsed; eauto.
  - eapply tree_or_ValueError_parsed; eauto.
Qed.

Lemma validate_xml_again xml w s w1 :
  validate_xml xml w = (Ok s, w1) →
  isfile s w1 = (Ok false, w1) →
  validate_xml (VStr s) w1 = (Ok s, w1).
Proof.
  intros Hrun Hnofile.
  apply validate_xml_serialises in Hrun as (t & Ht & ->).
  unfold validate_xml, bind. cbv beta. rewrite Hnofile.
  unfold tree_or_ValueError. rewrite round_trip by done.
  unfold ret. by rewrite indent_idempotent.
Qed.
End Renormalise.

(** ** The caller's bytearray *)

Section CallerBytearray.
Context `{OsPath, OsDir, Lxml, Engine, StatusTables}.
Variable library_path : string.
Variable default_policy : string.

Variable l : loc.
Variable data : bytes.

Ltac heap_prim :=
  intros w; unfold holds, final;
  cbv [isfile isdir getcwd chdir read_file write_file makedirs
       bytearray_contents log_lib release check_status
       buffer_to_bytes check_type abspath_if_str
       bind get modify ret raise];
  simpl; intros;
  repeat (case_match; simpl in *; simplify_eq; try done); try done.

Lemma holds_isfile p : inv (holds l data) (isfile p).
Proof. heap_prim. Qed.
Lemma holds_read_file p : inv (holds l data) (read_file p).
Proof. heap_prim. Qed.
Lemma holds_write_file p b : inv (holds l data) (write_file p b).
Proof. heap_prim. Qed.
Lemma holds_makedirs d : inv (holds l data) (makedirs d).
Proof. heap_prim. Qed.
Lemma holds_chdir d : inv (holds l data) (chdir d).
Proof. heap_prim. Qed.
Lemma holds_bytearray_contents l' : inv (holds l data) (bytearray_contents l').
Proof. heap_prim. Qed.
Lemma holds_log_lib e : inv (holds l data) (log_lib e).
Proof. heap_prim. Qed.
Lemma holds_release : inv (holds l data) release.
Proof. heap_prim. Qed.
Lemma holds_check_status st ru : inv (holds l data) (check_status st ru).
Proof. heap_prim. Qed.
Lemma holds_buffer_to_bytes b n : inv (holds l data) (buffer_to_bytes b n).
Proof. heap_prim. Qed.
Lemma holds_check_type v cs : inv (holds l data) (check_type v cs).
Proof. heap_prim. Qed.
Lemma holds_abspath_if_str v : inv (holds l data) (abspath_if_str v).
Proof. heap_prim. Qed.

(** A new object is not the caller's. *)
Lemma alloc_fresh o w l' : holds l data w → outcome (alloc o) w = Ok l' → l' ≠ l.
Proof.
  unfold holds, outcome, alloc, bind, get, modify, ret. simpl.
  intros Hl [= <-] Heq.
  apply (is_fresh (dom (heap w))). rewrite Heq. apply elem_of_dom. by eexists.
Qed.

Lemma holds_alloc o : inv (holds l data) (alloc o).
Proof.
  intros w Hw. pose proof (alloc_fresh o w _ Hw eq_refl) as Hne.
  unfold holds, final, alloc, bind, get, modify, ret in *. simpl in *.
  by rewrite lookup_insert_ne.
Qed.

(** A stream that is read is not the caller's bytearray. *)
Lemma holds_stream_read l' : inv (holds l data) (stream_read l').
Proof.
  intros w Hw. unfold holds, final, stream_read, bind, get, modify, ret, raise in *.
  simpl. destruct (heap w !! l') as [[|d pos]|] eqn:E; simpl; try done.
  rewrite lookup_insert_ne; [done|]. intros ->. congruence.
Qed.

Hint Resolve holds_isfile holds_read_file holds_write_file holds_makedirs
  holds_chdir holds_bytearray_contents holds_log_lib holds_release
  holds_check_status holds_buffer_to_bytes holds_check_type
  holds_abspath_if_str holds_alloc holds_stream_read : inv.

Lemma holds_tree_or_ValueError xml t : inv (holds l data) (tree_or_ValueError xml t).
Proof. unfold tree_or_ValueError. inv_auto. Qed.
Hint Resolve holds_tree_or_ValueError : inv.

Lemma holds_as_bytes v : inv (holds l data) (as_bytes v).
Proof. unfold as_bytes. inv_auto. Qed.
Lemma holds_as_io_BytesIO v : inv (holds l data) (as_io_BytesIO v).
Proof. unfold as_io_BytesIO. inv_auto. Qed.
Hint Resolve holds_as_bytes holds_as_io_BytesIO : inv.

Lemma holds_validate_xml xml : inv (holds l data) (validate_xml xml).
Proof. unfold validate_xml. inv_auto. Qed.
Hint Resolve holds_validate_xml : inv.

Lemma holds_read_input v : inv (holds l data) (read_input v).
Proof. unfold read_input. inv_auto. Qed.
Lemma holds_load_policy v : inv (holds l data) (load_policy default_policy v).
Proof. unfold load_policy. inv_auto. Qed.
Lemma holds_write_output b path : inv (holds l data) (write_output b path).
Proof. unfold write_output. inv_auto. Qed.
Hint Resolve holds_read_input holds_load_policy holds_write_output : inv.

Lemma holds_collect_outputs r o1 o2 ru : inv (holds l data) (collect_outputs r o1 o2 ru).
Proof. unfold collect_outputs. inv_auto. Qed.

(** The engine writes into the block it is handed, and nowhere else on
    the heap. *)
Lemma holds_foreign_call f b policy :
  b ≠ l → inv (holds l data) (foreign_call f b policy).
Proof.
  intros Hne w. unfold holds, final, foreign_call.
  cbv [log_lib bytearray_contents bind get modify ret raise]. simpl.
  intros Hl.
  repeat (case_match; simpl in *; simplify_eq; try done).
  by rewrite lookup_insert_ne.
Qed.

Lemma holds_with_CwdHandler {A} d (body : M A) :
  inv (holds l data) body → inv (holds l data) (with_CwdHandler d body).
Proof.
  intros Hbody w Hw. unfold final, with_CwdHandler.
  cbv [CwdHandler__init__ CwdHandler__enter__ CwdHandler__exit__ chdir
       isdir getcwd bind get modify ret raise]. simpl.
  case_bool_decide; simpl; [|by destruct (file_on_the_way _ _)].
  match goal with |- context [body ?w1] =>
    specialize (Hbody w1 Hw); unfold final in Hbody;
    destruct (body w1) as [r w2] end.
  unfold holds in *. simpl in *.
  destruct (bool_decide (abspath (cwd w2) (cwd w) ∈ dirs w2)); simpl;
    [by destruct r|].
  destruct (file_on_the_way _ _); by destruct r.
Qed.

Lemma holds_api_call f b policy :
  b ≠ l → inv (holds l data) (api_call library_path f b policy).
Proof. intros Hne. by apply holds_with_CwdHandler, holds_foreign_call. Qed.

Hint Resolve holds_collect_outputs holds_api_call : inv.

Lemma holds_archive_body declared invoked i o1 o2 p ru :
  inv (holds l data)
    (archive_body library_path default_policy declared invoked i o1 o2 p ru).
Proof.
  unfold archive_body.
  do 10 (apply inv_bind; [solve [inv_auto] | intros ?]).
  apply (inv_bind_post _ (λ b, b ≠ l)); [inv_auto | | ].
  - intros w b Hw. by apply alloc_fresh.
  - intros b Hb. inv_auto.
Qed.
End CallerBytearray.

(** C10. The input is a [bytearray] object holding [data].  After
    [analyse_archive] and after [protect_archive], whether they return or
    raise, and whatever the engine wrote into the block it was handed,
    the caller's object holds [data]: the method reads the object into
    [bytes], copies them into a new [bytearray], and hands the engine the
    copy. *)
Theorem caller_bytearray_is_unchanged `{OsPath, Lxml, Engine, StatusTables}
    (library_path default_policy : string) (l : loc) (data : bytes)
    (o1 o2 p : pyval) (ru : bool) (w : World) :
  heap w !! l = Some (ObjBytearray data) →
  heap (final (analyse_archive library_path default_policy
                 (VBytearray l) o1 o2 p ru) w) !! l
  = Some (ObjBytearray data) ∧
  heap (final (protect_archive library_path default_policy
                 (VBytearray l) o1 o2 p ru) w) !! l
  = Some (ObjBytearray data).
Proof.
  intros Hl. split.
  - apply (inv_release_after (holds l data)); [|apply holds_release|done].
    apply holds_archive_body.
  - apply (inv_release_after (holds l data)); [|apply holds_release|done].
    apply holds_archive_body.
Qed.

(** The engine zeroes the block it is handed: the copy (object 3) is
    zeroed, the caller's bytearray (object 1) is not. *)
Lemma caller_bytearray_is_unchanged_witness :
  let w := Samples.sample_world Samples.slash in
  let run := Samples.analyse Samples.slash Samples.echo_engine
               (VBytearray 1) VNone VNone VNone true in
  heap w !! 1%positive = Some (ObjBytearray Samples.doc1) ∧
  heap (final run w) !! 1%positive = Some (ObjBytearray Samples.doc1) ∧
  heap (final run w) !! 3%positive
  = Some (ObjBytearray (const "000"%byte <$> Samples.doc1)).
Proof.
  intros w run.
  assert (Hl : heap w !! 1%positive = Some (ObjBytearray Samples.doc1))
    by reflexivity.
  split; [exact Hl|]. split; [|by vm_compute].
  exact (proj1 (@caller_bytearray_is_unchanged Samples.posix_host
                  Samples.angle_xml Samples.echo_engine Samples.sample_tables
                  (Samples.sample_library_path Samples.slash) Samples.policy_xml
                  1%positive Samples.doc1 VNone VNone VNone true w Hl)).
Defined.

(** ** Directories *)

Section Directories.
Context `{OsPath, OsDir, Lxml, Engine, StatusTables}.
Variable library_path : string.
Variable default_policy : string.
Variable input_directory : string.
Variable output_directory output_report_directory : option string.
Variable policy : pyval.
Variable raise_unsupported : bool.

Variable c : string.
Hypothesis abspath_c : ∀ x, abspath x c = c.

Lemma list_file_paths_world d r a w :
  final (list_file_paths d r a) w = w.
Proof.
  unfold final, list_file_paths, isdir, bind, get, ret, raise. simpl.
  by case_bool_decide.
Qed.

Lemma protect_step_run input_file acc w :
  cwd w = c →
  protect_step library_path default_policy input_directory output_directory
    output_report_directory policy raise_unsupported input_file acc w
  = match protect_archive library_path default_policy (VStr input_file)
            match output_directory with
            | None => VNone
            | Some d => VStr (join (abspath c d) (key_of input_directory c input_file))
            end
            match output_report_directory with
            | None => VNone
            | Some d => VStr (join (abspath c d) (key_of input_directory c input_file ++ ".xml"))
            end policy raise_unsupported w with
    | (Ok g, w1) => (Ok (<[key_of input_directory c input_file := g]> acc), w1)
    | (Raised e, w1) => (Raised e, w1)
    end.
Proof.
  intros Hc. unfold protect_step, key_of.
  change (bind get ?k w) with (k w w). cbv beta. rewrite Hc.
  unfold bind, ret. by destruct (protect_archive _ _ _ _ _ _ _ w) as [[g|e] w1].
Qed.

Lemma for_acc_protect paths acc w acc' w' :
  dir_inv c true w →
  for_acc paths
    (protect_step library_path default_policy input_directory output_directory
       output_report_directory policy raise_unsupported) acc w = (Ok acc', w') →
  ∃ results,
    made_in_order
      (loop_call library_path default_policy input_directory output_directory
         output_report_directory policy raise_unsupported c)
      paths w results w' ∧
    acc' = foldl (λ a kg, <[kg.1 := kg.2]> a) acc
             (zip (key_of input_directory c <$> paths) results).
Proof.
  revert acc w. induction paths as [|f paths IH]; intros acc w Hw Hrun.
  - simpl in Hrun. unfold ret in Hrun. simplify_eq.
    exists []. split; [constructor | done].
  - simpl in Hrun. unfold bind at 1 in Hrun.
    rewrite protect_step_run in Hrun by apply Hw.
    pose proof (inv_protect_archive library_path default_policy c abspath_c
                  (VStr f)
                  match output_directory with
                  | None => VNone
                  | Some d => VStr (join (abspath c d) (key_of input_directory c f))
                  end
                  match output_report_directory with
                  | None => VNone
                  | Some d => VStr (join (abspath c d) (key_of input_directory c f ++ ".xml"))
                  end policy raise_unsupported w Hw) as Hw1.
    unfold final in Hw1.
    destruct (protect_archive _ _ _ _ _ _ _ w) as [[g|e] w1] eqn:Hg;
      [|done]. simpl in Hw1.
    destruct (IH _ _ Hw1 Hrun) as (results & Hmade & ->).
    exists (g :: results). split; [|done].
    econstructor; [exact Hg | exact Hmade].
Qed.
End Directories.

Lemma bind_outcome_Ok {A B} (m : M A) (k : A → M B) w b :
  outcome (bind m k) w = Ok b →
  ∃ a w1, m w = (Ok a, w1) ∧ outcome (k a) w1 = Ok b.
Proof.
  unfold outcome, bind. destruct (m w) as [[a|e] w1]; simpl; [|done].
  intros Hk. by exists a, w1.
Qed.

Lemma made_in_order_length {A} (call : string → M A) paths w results w' :
  made_in_order call paths w results w' → length results = length paths.
Proof. induction 1; simpl; congruence. Qed.

Lemma dom_foldl_insert {V} (entries : list (string * V))
    (acc : gmap string V) :
  dom (foldl (λ a kg, <[kg.1 := kg.2]> a) acc entries)
  = dom acc ∪ list_to_set entries.*1.
Proof.
  revert acc. induction entries as [|[k v] entries IH]; intros acc; simpl.
  - by rewrite union_empty_r_L.
  - rewrite IH, dom_insert_L.
    rewrite (comm_L (∪) {[k]} (dom acc)). by rewrite <- (assoc_L (∪)).
Qed.

Lemma lookup_foldl_insert {V} (entries : list (string * V))
    (acc : gmap string V) (key : string) (v : V) :
  foldl (λ a kg, <[kg.1 := kg.2]> a) acc entries !! key = Some v ↔
  (∃ i, entries !! i = Some (key, v) ∧
        ∀ j kg, (i < j)%nat → entries !! j = Some kg → kg.1 ≠ key) ∨
  ((∀ kg, kg ∈ entries → kg.1 ≠ key) ∧ acc !! key = Some v).
Proof.
  revert acc. induction entries as [|[k0 v0] entries IH]; intros acc; simpl.
  - split.
    + intros Hacc. right. split; [|done]. intros kg Hin.
      by apply elem_of_nil in Hin.
    + intros [(i & Hi & _) | [_ Hacc]]; [by rewrite lookup_nil in Hi | done].
  - rewrite IH. split.
    + intros [(i & Hi & Hlater) | [Hnone Hacc]].
      * left. exists (S i). split; [done|]. intros [|j] kg Hj Hkg; [lia|].
        apply (Hlater j kg); [lia | done].
      * destruct (decide (key = k0)) as [->|Hne].
        -- rewrite lookup_insert_eq in Hacc. simplify_eq.
           left. exists 0%nat. split; [done|]. intros [|j] kg Hj Hkg; [lia|].
           apply Hnone. by eapply list_elem_of_lookup_2.
        -- rewrite lookup_insert_ne in Hacc by done.
           right. split; [|done]. intros kg Hin.
           apply elem_of_cons in Hin as [->|Hin]; [done | by apply Hnone].
    + intros [(i & Hi & Hlater) | [Hnone Hacc]].
      * destruct i as [|i]; simpl in Hi.
        -- simplify_eq. right. split; [|by rewrite lookup_insert_eq].
           intros kg Hin. apply list_elem_of_lookup_1 in Hin as [j Hj].
           apply (Hlater (S j) kg); [lia | done].
        -- left. exists i. split; [done|]. intros j kg Hj Hkg.
           apply (Hlater (S j) kg); [lia | done].
      * right. split.
        -- intros kg Hin. apply Hnone. by apply list_elem_of_further.
        -- rewrite lookup_insert_ne; [done|].
           intros <-. exact (Hnone (k0, v0) (list_elem_of_here _ _) eq_refl).
Qed.

Lemma lookup_filed {V} (keys : list string) (results : list V)
    (key : string) (v : V) :
  length results = length keys →
  foldl (λ a kg, <[kg.1 := kg.2]> a) (∅ : gmap string V) (zip keys results)
  !! key = Some v ↔
  ∃ i, last_with_key keys i key ∧ results !! i = Some v.
Proof.
  intros Hlen. rewrite lookup_foldl_insert. unfold last_with_key. split.
  - intros [(i & Hi & Hlater) | [_ Hempty]];
      [|by rewrite lookup_empty in Hempty].
    apply lookup_zip_with_Some in Hi as (k & v' & [= <- <-] & Hk & Hv).
    exists i. split; [|done]. split; [done|]. intros j Hj Hkey.
    destruct (lookup_lt_is_Some_2 results j) as [v' Hv'].
    { rewrite Hlen. by eapply lookup_lt_Some. }
    apply (Hlater j (key, v') Hj); [|done].
    apply lookup_zip_with_Some. by exists key, v'.
  - intros (i & [Hk Hlater] & Hv). left. exists i. split.
    + apply lookup_zip_with_Some. by exists key, v.
    + intros j [k' v'] Hj Hkg Heq. simpl in Heq. subst k'.
      apply lookup_zip_with_Some in Hkg as (k & v'' & [= <- <-] & Hk' & _).
      by apply (Hlater j Hj).
Qed.

(** C4, as the code has it.  [analyse_directory] hands back [None].
    [protect_directory], started in an existing directory whose path
    [abspath] leaves as it is, when it returns, has called
    [protect_archive] once for each file that [list_file_paths] lists, in
    that order, each call in the world the one before it left, with the
    output paths built from the key of the file; and it returns a
    dictionary whose keys are exactly the paths [os.path.relpath] gives,
    relative to the input directory, for the listed files -- spelled with
    the separator of the host, not rewritten to forward slashes --, with
    one entry per listed file where these relative paths are pairwise
    distinct, and whose entry under a key is what the call of this run
    returned for the file with that key (for the last such file, where
    several listed files have the same key). *)
Theorem protect_directory_returns_mapping
    `{OsPath, OsDir, Lxml, Engine, StatusTables}
    (library_path default_policy input_directory : string)
    (output_directory output_report_directory : option string)
    (policy : pyval) (raise_unsupported : bool) (w : World) (r : pyret) :
  (∀ x, abspath x (cwd w) = cwd w) →
  cwd w ∈ dirs w →
  (∀ analyse_output_directory,
     outcome (analyse_directory library_path default_policy input_directory
                analyse_output_directory policy raise_unsupported) w = Ok r →
     r = RNone) ∧
  (outcome (protect_directory library_path default_policy input_directory
              output_directory output_report_directory policy
              raise_unsupported) w = Ok r →
   ∃ paths results w' d,
     list_file_paths input_directory true true w = (Ok paths, w) ∧
     made_in_order
       (loop_call library_path default_policy input_directory
          output_directory output_report_directory policy raise_unsupported
          (cwd w))
       paths w results w' ∧
     protect_directory library_path default_policy input_directory
       output_directory output_report_directory policy raise_unsupported w
     = (Ok r, w') ∧
     r = RDict d ∧
     dom d = list_to_set (key_of input_directory (cwd w) <$> paths) ∧
     (NoDup (key_of input_directory (cwd w) <$> paths) →
      size d = length paths) ∧
     (∀ key g, d !! key = Some g ↔
        ∃ i, last_with_key (key_of input_directory (cwd w) <$> paths) i key ∧
             results !! i = Some g)).
Proof.
  intros Habs Hdir. split.
  - unfold analyse_directory. intros out Hrun.
    apply bind_outcome_Ok in Hrun as (paths & w1 & _ & Hrun).
    apply bind_outcome_Ok in Hrun as ([] & w2 & _ & Hrun).
    unfold outcome, ret in Hrun. simpl in Hrun. congruence.
  - unfold protect_directory. intros Hrun.
    apply bind_outcome_Ok in Hrun as (paths & w1 & Hlist & Hrun).
    pose proof (list_file_paths_world input_directory true true w) as Hw1.
    unfold final in Hw1. rewrite Hlist in Hw1. simpl in Hw1. subst w1.
    apply bind_outcome_Ok in Hrun as (d & w2 & Hloop & Hrun).
    unfold outcome, ret in Hrun. simpl in Hrun. simplify_eq.
    destruct (for_acc_protect library_path default_policy input_directory
                output_directory output_report_directory policy
                raise_unsupported (cwd w) Habs paths ∅ w d w2)
      as (results & Hmade & Hd); [by split | done |].
    pose proof (made_in_order_length _ _ _ _ _ Hmade) as Hlen.
    assert (Hkeys : (zip (key_of input_directory (cwd w) <$> paths) results).*1
                    = key_of input_directory (cwd w) <$> paths).
    { apply fst_zip. rewrite length_fmap. lia. }
    assert (Hdom : dom d
                   = list_to_set (key_of input_directory (cwd w) <$> paths)).
    { rewrite Hd, dom_foldl_insert, Hkeys, dom_empty_L.
      by rewrite union_empty_l_L. }
    exists paths, results, w2, d.
    split; [done|]. split; [done|]. split.
    { by rewrite (bind_Ok _ _ _ _ _ Hlist), (bind_Ok _ _ _ _ _ Hloop). }
    split; [done|]. split; [done|]. split.
    + intros Hnodup. rewrite <- size_dom, Hdom, size_list_to_set by done.
      by rewrite length_fmap.
    + intros key g. rewrite Hd. apply lookup_filed.
      by rewrite length_fmap.
Qed.

(** One archive, [in/a/doc1.zip], under the input directory.  On the host
    with separator [/], [analyse_directory] processes it and hands back
    [None], not a dictionary.  On the host with separator [\],
    [protect_directory] files the result under the key spelled with that
    separator, and nothing under the forward-slash spelling. *)
Lemma batch_mapping_counterexample :
  let key sepc := String.concat (String sepc "") ["a"; "doc1.zip"] in
  ( outcome (Samples.analyse_dir Samples.slash Samples.echo_engine
               "/in" "/out" VNone true) (Samples.sample_world Samples.slash)
    = Ok RNone ∧
    ¬ ∃ d, outcome (Samples.analyse_dir Samples.slash Samples.echo_engine
                      "/in" "/out" VNone true) (Samples.sample_world Samples.slash)
           = Ok (RDict d) ) ∧
  ( ∃ d, outcome (Samples.protect_dir Samples.backslash Samples.echo_engine
                    (Samples.render_abs Samples.backslash ["in"]) None None
                    VNone true) (Samples.sample_world Samples.backslash)
         = Ok (RDict d) ∧
         key Samples.slash = "a/doc1.zip" ∧
         d !! key Samples.slash = None ∧
         d !! key Samples.backslash
         = Some (mkGwReturnObj 1 Samples.doc1 (encode Samples.policy_xml)) ).
Proof.
  intros key. split.
  - assert (Hrun : outcome (Samples.analyse_dir Samples.slash Samples.echo_engine
                     "/in" "/out" VNone true) (Samples.sample_world Samples.slash)
                   = Ok RNone) by (vm_compute; reflexivity).
    split; [exact Hrun|]. intros [d Hd]. rewrite Hrun in Hd. discriminate.
  - eexists. split; [vm_compute; reflexivity|]. by vm_compute.
Qed.

(** On the host with separator [/]: the one archive under [/in] is filed
    under [a/doc1.zip], with what the one call of the run returned. *)
Lemma protect_directory_returns_mapping_witness :
  let w := Samples.sample_world Samples.slash in
  let g := mkGwReturnObj 1 Samples.doc1 (encode Samples.policy_xml) in
  let r := RDict {[ "a/doc1.zip" := g ]} in
  let run := Samples.protect_dir Samples.slash Samples.echo_engine "/in"
               (Some "/out") (Some "/reports") VNone true in
  (∀ x, @abspath Samples.posix_host x (cwd w) = cwd w) ∧
  cwd w ∈ dirs w ∧
  outcome run w = Ok r ∧
  ∃ paths results w' d,
    @list_file_paths Samples.posix_host (Samples.host_dir Samples.slash)
      "/in" true true w = (Ok paths, w) ∧
    made_in_order
      (@loop_call Samples.posix_host Samples.angle_xml Samples.echo_engine
         Samples.sample_tables (Samples.sample_library_path Samples.slash)
         Samples.policy_xml "/in" (Some "/out") (Some "/reports") VNone true
         (cwd w))
      paths w results w' ∧
    run w = (Ok r, w') ∧
    r = RDict d ∧
    dom d = list_to_set (@key_of Samples.posix_host "/in" (cwd w) <$> paths) ∧
    (NoDup (@key_of Samples.posix_host "/in" (cwd w) <$> paths) →
     size d = length paths) ∧
    (∀ key g, d !! key = Some g ↔
       ∃ i, last_with_key (@key_of Samples.posix_host "/in" (cwd w) <$> paths)
              i key ∧
            results !! i = Some g).
Proof.
  intros w g r run.
  assert (Habs : ∀ x, @abspath Samples.posix_host x (cwd w) = cwd w)
    by (intros x; reflexivity).
  assert (Hdir : cwd w ∈ dirs w) by compute_done.
  assert (Hrun : outcome run w = Ok r) by (vm_compute; reflexivity).
  split; [exact Habs|]. split; [exact Hdir|]. split; [exact Hrun|].
  exact (proj2 (@protect_directory_returns_mapping Samples.posix_host
                  (Samples.host_dir Samples.slash) Samples.angle_xml
                  Samples.echo_engine Samples.sample_tables
                  (Samples.sample_library_path Samples.slash) Samples.policy_xml
                  "/in" (Some "/out") (Some "/reports") VNone true w r
                  Habs Hdir) Hrun).
Defined.

(** ** The result of a run comes from the engine's return *)


Section Returns.
Context `{OsPath, OsDir, Lxml, Engine, StatusTables}.
Variable library_path : string.
Variable default_policy : string.

Lemma foreign_call_returned f b policy w r w' :
  foreign_call f b policy w = (Ok r, w') → returned_by f r.
Proof.
  unfold foreign_call.
  cbv [log_lib bytearray_contents bind get modify ret raise]. simpl.
  intros Hrun.
  repeat (case_match; simpl in *; simplify_eq; try done).
  by eexists _, _, _.
Qed.

Lemma api_call_returned f b policy w r w' :
  api_call library_path f b policy w = (Ok r, w') → returned_by f r.
Proof.
  unfold api_call, with_CwdHandler. intros Hrun.
  apply bind_run_Ok in Hrun as (self & w1 & _ & Hrun).
  apply bind_run_Ok in Hrun as ([] & w2 & _ & Hrun).
  destruct (foreign_call f b policy w2) as [[r'|e] w3] eqn:Hcall.
  - destruct (CwdHandler__exit__ self w3) as [[[]|e] w4]; [|done].
    simplify_eq. by eapply foreign_call_returned.
  - by destruct (CwdHandler__exit__ self w3) as [[[]|e'] w4].
Qed.

(** A run of the method body that returns [g] made a foreign call that
    returned some [r], and [g] is what the part after the call made of
    [r]. *)
Lemma archive_body_returns declared invoked i o1 o2 p ru w g w' :
  archive_body library_path default_policy declared invoked i o1 o2 p ru w
  = (Ok g, w') →
  ∃ r o1' o2' w1,
    returned_by invoked r ∧ collect_outputs r o1' o2' ru w1 = (Ok g, w').
Proof.
  unfold archive_body. intros Hrun.
  do 11 (apply bind_run_Ok in Hrun as (? & ? & _ & Hrun)).
  apply bind_run_Ok in Hrun as (r & w1 & Hcall & Hrun).
  exists r. eexists _, _, w1. split; [|exact Hrun].
  by eapply api_call_returned.
Qed.

Lemma release_after_returns {A} (function : M A) w a w'' :
  release_after function w = (Ok a, w'') →
  ∃ w', function w = (Ok a, w') ∧ w'' = final release w'.
Proof.
  unfold release_after. intros Hrun.
  apply bind_run_Ok in Hrun as (a' & w' & Hf & Hrun).
  apply bind_run_Ok in Hrun as ([] & w2 & Hr & Hrun).
  unfold ret in Hrun. simplify_eq. exists w'. split; [done|].
  unfold final. by rewrite Hr.
Qed.
End Returns.

(** ** Steps before the outputs are written

    An invariant that does not look at the heap, the library log, the
    engine's memory or the working directory survives everything the
    method does up to and including the API call. *)

Section Stable.
Context `{OsPath, OsDir, Lxml, Engine, StatusTables}.
Variable library_path : string.
Variable default_policy : string.
Variable I : World → Prop.
Hypothesis I_heap : ∀ h w, I w → I (set_heap h w).
Variable allowed : lib_event → Prop.
Hypothesis I_log :
  ∀ e w, allowed e → I w → I (set_lib_log (lib_log w ++ [e]) w).
Hypothesis I_mem : ∀ m w, I w → I (set_native_mem m w).
Hypothesis I_cwd : ∀ d w, I w → I (set_cwd d w).

Ltac stable_prim :=
  intros w; unfold final;
  cbv [isfile isdir getcwd chdir read_file alloc
       bytearray_contents stream_read check_status
       buffer_to_bytes check_type abspath_if_str
       bind get modify ret raise];
  simpl; intros;
  repeat (case_match; simpl in *; simplify_eq; try done);
  eauto using I_heap, I_mem, I_cwd.

Lemma stable_isfile p : inv I (isfile p).
Proof. stable_prim. Qed.
Lemma stable_isdir p : inv I (isdir p).
Proof. stable_prim. Qed.
Lemma stable_getcwd : inv I getcwd.
Proof. stable_prim. Qed.
Lemma stable_chdir d : inv I (chdir d).
Proof. stable_prim. Qed.
Lemma stable_read_file p : inv I (read_file p).
Proof. stable_prim. Qed.
Lemma stable_alloc o : inv I (alloc o).
Proof. stable_prim. Qed.
Lemma stable_bytearray_contents l : inv I (bytearray_contents l).
Proof. stable_prim. Qed.
Lemma stable_stream_read l : inv I (stream_read l).
Proof. stable_prim. Qed.
Lemma stable_check_status st ru : inv I (check_status st ru).
Proof. stable_prim. Qed.
Lemma stable_buffer_to_bytes buffer n : inv I (buffer_to_bytes buffer n).
Proof. stable_prim. Qed.
Lemma stable_log_lib e : allowed e → inv I (log_lib e).
Proof. intros He w Hw. by apply I_log. Qed.
Lemma stable_release : allowed (Call GwArchiveDone) → inv I release.
Proof. intros He w Hw. by apply I_mem, I_log. Qed.
Lemma stable_check_type v cs : inv I (check_type v cs).
Proof. stable_prim. Qed.
Lemma stable_abspath_if_str v : inv I (abspath_if_str v).
Proof. stable_prim. Qed.

Hint Resolve stable_isfile stable_isdir stable_getcwd stable_chdir
  stable_read_file stable_alloc stable_bytearray_contents stable_stream_read
  stable_check_status stable_buffer_to_bytes stable_check_type
  stable_abspath_if_str : inv.

Lemma stable_tree_or_ValueError xml t : inv I (tree_or_ValueError xml t).
Proof. unfold tree_or_ValueError. inv_auto. Qed.
Hint Resolve stable_tree_or_ValueError : inv.

Lemma stable_as_bytes v : inv I (as_bytes v).
Proof. unfold as_bytes. inv_auto. Qed.
Lemma stable_as_io_BytesIO v : inv I (as_io_BytesIO v).
Proof. unfold as_io_BytesIO. inv_auto. Qed.
Hint Resolve stable_as_bytes stable_as_io_BytesIO : inv.

Lemma stable_validate_xml xml : inv I (validate_xml xml).
Proof. unfold validate_xml. inv_auto. Qed.
Hint Resolve stable_validate_xml : inv.

Lemma stable_read_input v : inv I (read_input v).
Proof. unfold read_input. inv_auto. Qed.
Lemma stable_load_policy v : inv I (load_policy default_policy v).
Proof. unfold load_policy. inv_auto. Qed.

Lemma stable_foreign_call f b policy :
  allowed (Call f) → inv I (foreign_call f b policy).
Proof.
  intros He w Hw. apply (I_log _ _ He) in Hw. revert Hw.
  unfold final, foreign_call.
  cbv [log_lib bytearray_contents bind get modify ret raise]. simpl.
  intros Hw.
  repeat (case_match; simpl in *; simplify_eq; try done);
    eauto using I_heap, I_mem.
Qed.

Lemma stable_with_CwdHandler {A} d (body : M A) :
  inv I body → inv I (with_CwdHandler d body).
Proof.
  intros Hbody. unfold with_CwdHandler.
  apply inv_bind; [unfold CwdHandler__init__; inv_auto|]. intros self.
  apply inv_bind; [apply stable_chdir|]. intros _ w1 Hw1.
  specialize (Hbody w1 Hw1). unfold final in *.
  destruct (body w1) as [r w2]. simpl in Hbody.
  pose proof (stable_chdir (old_cwd self) w2 Hbody) as Hexit.
  unfold CwdHandler__exit__, final in *.
  by destruct (chdir (old_cwd self) w2) as [[[]|e] w3].
Qed.

Lemma stable_api_call f b policy :
  allowed (Call f) → inv I (api_call library_path f b policy).
Proof. intros He. by apply stable_with_CwdHandler, stable_foreign_call. Qed.

(** The run up to the collection of the outputs. *)
Lemma archive_body_returns_stable declared invoked i o1 o2 p ru w g w' :
  allowed (SetArgtypes declared) → allowed (Call invoked) →
  I w →
  archive_body library_path default_policy declared invoked i o1 o2 p ru w
  = (Ok g, w') →
  ∃ r o1' o2' w1,
    returned_by invoked r ∧ I w1 ∧
    collect_outputs r o1' o2' ru w1 = (Ok g, w').
Proof.
  assert (Hstep : ∀ {A B} (m : M A) (k : A → M B) w b w',
    inv I m → I w → bind m k w = (Ok b, w') →
    ∃ a w1, m w = (Ok a, w1) ∧ I w1 ∧ k a w1 = (Ok b, w')).
  { intros A B m k w0 b w0' Hm Hw Hrun.
    apply bind_run_Ok in Hrun as (a & w1 & Hrun1 & Hrun).
    exists a, w1. split; [done|]. split; [|done].
    specialize (Hm w0 Hw). unfold final in Hm. by rewrite Hrun1 in Hm. }
  unfold archive_body. intros Hdeclared Hinvoked Hw Hrun.
  do 4 (apply Hstep in Hrun as (? & ? & _ & Hw' & Hrun);
        [clear Hw; rename Hw' into Hw | apply stable_check_type | exact Hw]).
  do 2 (apply Hstep in Hrun as (? & ? & _ & Hw' & Hrun);
        [clear Hw; rename Hw' into Hw | apply stable_abspath_if_str | exact Hw]).
  apply Hstep in Hrun as (? & ? & _ & Hw' & Hrun);
    [clear Hw; rename Hw' into Hw | apply stable_read_input | exact Hw].
  apply Hstep in Hrun as (? & ? & _ & Hw' & Hrun);
    [clear Hw; rename Hw' into Hw | apply stable_load_policy | exact Hw].
  apply Hstep in Hrun as (? & ? & _ & Hw' & Hrun);
    [clear Hw; rename Hw' into Hw | by apply stable_log_lib | exact Hw].
  apply Hstep in Hrun as (? & ? & _ & Hw' & Hrun);
    [clear Hw; rename Hw' into Hw | inv_auto | exact Hw].
  apply Hstep in Hrun as (? & ? & _ & Hw' & Hrun);
    [clear Hw; rename Hw' into Hw | apply stable_alloc | exact Hw].
  apply Hstep in Hrun as (r & w1 & Hcall & Hw' & Hrun);
    [| by apply stable_api_call | exact Hw].
  exists r. eexists _, _, w1. split; [by eapply api_call_returned|]. by split.
Qed.

(** Where the invariant does not look at the files and directories
    either, it survives the whole method. *)
Section Whole.
Hypothesis I_files : ∀ f w, I w → I (set_files f w).
Hypothesis I_dirs : ∀ d w, I w → I (set_dirs d w).

Lemma stable_write_output b path : inv I (write_output b path).
Proof.
  intros w Hw. unfold final, write_output.
  cbv [makedirs write_file bind modify ret]. simpl.
  repeat (case_match; simpl in *; simplify_eq; try done);
    eauto using I_files, I_dirs.
Qed.

Lemma stable_collect_outputs r o1 o2 ru : inv I (collect_outputs r o1 o2 ru).
Proof.
  pose proof stable_write_output. unfold collect_outputs. inv_auto.
Qed.

Lemma stable_archive_body declared invoked i o1 o2 p ru :
  allowed (SetArgtypes declared) → allowed (Call invoked) →
  inv I (archive_body library_path default_policy declared invoked
           i o1 o2 p ru).
Proof.
  intros Hdeclared Hinvoked.
  pose proof stable_read_input. pose proof stable_load_policy.
  pose proof (stable_log_lib _ Hdeclared).
  pose proof (λ b policy, stable_api_call invoked b policy Hinvoked).
  pose proof stable_collect_outputs.
  unfold archive_body. inv_auto.
Qed.
End Whole.
End Stable.

(** No run of [protect_archive] assigns [.argtypes] of the function it
    calls: the only assignment in the method body is on
    [GwFileAnalysisArchive]. *)
Lemma protect_archive_never_declares_its_entry_point
    `{OsPath, Lxml, Engine, StatusTables}
    (library_path default_policy : string) (i o1 o2 p : pyval) (ru : bool)
    (w : World) :
  SetArgtypes GwFileProtectAndReportArchive ∉ lib_log w →
  SetArgtypes GwFileProtectAndReportArchive
    ∉ lib_log (final (protect_archive library_path default_policy
                        i o1 o2 p ru) w).
Proof.
  set (I := λ v : World, SetArgtypes GwFileProtectAndReportArchive ∉ lib_log v).
  set (allowed := λ e, e ≠ SetArgtypes GwFileProtectAndReportArchive).
  assert (Hlog : ∀ e v, allowed e → I v → I (set_lib_log (lib_log v ++ [e]) v)).
  { intros e v He Hv. unfold I. simpl. rewrite elem_of_app, list_elem_of_singleton.
    intros [?|?]; [by apply Hv | by apply He]. }
  intros Hw.
  assert (Hbody : inv I (archive_body library_path default_policy
                           GwFileAnalysisArchive GwFileProtectAndReportArchive
                           i o1 o2 p ru))
    by (eapply stable_archive_body with (allowed := allowed); done).
  assert (Hrelease : inv I release)
    by (eapply stable_release with (allowed := allowed); done).
  exact (inv_release_after I _ Hbody Hrelease w Hw).
Qed.

(** C7. A block of length zero is rebuilt as the empty byte sequence,
    whatever the pointer (the null pointer included), without an error;
    an empty output is not written, whatever path was supplied.  So,
    after a foreign call that reports a zero-length output file, the
    method ends either by raising with the world as it was, or by
    returning a result whose [output_file] is the empty byte sequence, in
    the world that the write of the report alone produces: nothing is
    created at the output path by the output file, not even an empty
    file.  The same holds of the report, and with both lengths zero the
    world is untouched.  For the two methods as a whole: where every
    return of the foreign function reports a zero-length output, a run
    that returns has the empty [output_file]; likewise for the report;
    and where both are always of length zero, the files and directories
    after the run are those before it. *)
Theorem zero_length_output_is_empty_and_unwritten
    `{OsPath, Lxml, Engine, StatusTables} :
  (∀ buffer w, buffer_to_bytes buffer 0 w = (Ok [], w)) ∧
  (∀ path w, write_output [] path w = (Ok tt, w)) ∧
  (∀ r o1 o2 ru w,
     nr_output_buffer_length r = 0%nat →
     match collect_outputs r o1 o2 ru w with
     | (Ok g, w') =>
         output_file g = [] ∧ w' = final (write_output (output_report g) o2) w
     | (Raised _, w') => w' = w
     end) ∧
  (∀ r o1 o2 ru w,
     nr_output_report_buffer_length r = 0%nat →
     match collect_outputs r o1 o2 ru w with
     | (Ok g, w') =>
         output_report g = [] ∧ w' = final (write_output (output_file g) o1) w
     | (Raised _, w') => w' = w
     end) ∧
  (∀ r o1 o2 ru w,
     nr_output_buffer_length r = 0%nat →
     nr_output_report_buffer_length r = 0%nat →
     final (collect_outputs r o1 o2 ru) w = w) ∧
  (∀ library_path default_policy i o1 o2 p ru w g w',
     (analyse_archive library_path default_policy i o1 o2 p ru w = (Ok g, w') →
      outputs_respect_lengths GwFileAnalysisArchive w g w') ∧
     (protect_archive library_path default_policy i o1 o2 p ru w = (Ok g, w') →
      outputs_respect_lengths GwFileProtectAndReportArchive w g w')).
Proof.
  split; [exact buffer_to_bytes_zero|]. split; [exact write_output_empty|].
  assert (Hgen : ∀ r o1 o2 ru w,
    match collect_outputs r o1 o2 ru w with
    | (Ok g, w') =>
        (nr_output_buffer_length r = 0%nat → output_file g = []) ∧
        (nr_output_report_buffer_length r = 0%nat → output_report g = []) ∧
        w' = final (write_output (output_report g) o2)
               (final (write_output (output_file g) o1) w)
    | (Raised _, w') => w' = w
    end).
  { intros r o1 o2 ru w. unfold collect_outputs.
    pose proof (check_status_world (nr_status r) ru w) as Hs. unfold final in Hs.
    unfold bind at 1. destruct (check_status _ _ w) as [[[]|e] w1]; simpl in Hs;
      subst w1; [|done].
    pose proof (buffer_to_bytes_world (nr_output_buffer r)
                  (nr_output_buffer_length r) w) as Hb1. unfold final in Hb1.
    pose proof (buffer_to_bytes_zero (nr_output_buffer r) w) as Hz1.
    unfold bind at 1.
    destruct (buffer_to_bytes (nr_output_buffer r) _ w) as [[b1|e] w1] eqn:E1;
      simpl in Hb1; subst w1; [|done].
    pose proof (buffer_to_bytes_world (nr_output_report_buffer r)
                  (nr_output_report_buffer_length r) w) as Hb2. unfold final in Hb2.
    pose proof (buffer_to_bytes_zero (nr_output_report_buffer r) w) as Hz2.
    unfold bind at 1.
    destruct (buffer_to_bytes (nr_output_report_buffer r) _ w) as [[b2|e] w1] eqn:E2;
      simpl in Hb2; subst w1; [|done].
    unfold bind at 1. rewrite (write_output_returns b1 o1 w).
    unfold bind at 1. rewrite (write_output_returns b2 o2). simpl.
    split; [|split]; [| |done].
    - intros Hn. rewrite Hn in E1. congruence.
    - intros Hn. rewrite Hn in E2. congruence. }
  assert (Hfile : ∀ r o1 o2 ru w,
     nr_output_buffer_length r = 0%nat →
     match collect_outputs r o1 o2 ru w with
     | (Ok g, w') =>
         output_file g = [] ∧ w' = final (write_output (output_report g) o2) w
     | (Raised _, w') => w' = w
     end).
  { intros r o1 o2 ru w Hn. specialize (Hgen r o1 o2 ru w).
    destruct (collect_outputs r o1 o2 ru w) as [[g|e] w']; [|done].
    destruct Hgen as (Hf & _ & ->). rewrite (Hf Hn). split; [done|].
    unfold final at 2. by rewrite write_output_empty. }
  assert (Hreport : ∀ r o1 o2 ru w,
     nr_output_report_buffer_length r = 0%nat →
     match collect_outputs r o1 o2 ru w with
     | (Ok g, w') =>
         output_report g = [] ∧ w' = final (write_output (output_file g) o1) w
     | (Raised _, w') => w' = w
     end).
  { intros r o1 o2 ru w Hn. specialize (Hgen r o1 o2 ru w).
    destruct (collect_outputs r o1 o2 ru w) as [[g|e] w']; [|done].
    destruct Hgen as (_ & Hr & ->). rewrite (Hr Hn). split; [done|].
    unfold final at 1. by rewrite write_output_empty. }
  assert (Hboth : ∀ r o1 o2 ru w,
     nr_output_buffer_length r = 0%nat →
     nr_output_report_buffer_length r = 0%nat →
     final (collect_outputs r o1 o2 ru) w = w).
  { intros r o1 o2 ru w Hn1 Hn2. specialize (Hgen r o1 o2 ru w).
    unfold final at 1.
    destruct (collect_outputs r o1 o2 ru w) as [[g|e] w']; [|done].
    destruct Hgen as (Hf & Hr & ->). rewrite (Hf Hn1), (Hr Hn2). simpl.
    unfold final. by rewrite !write_output_empty. }
  split; [exact Hfile|]. split; [exact Hreport|]. split; [exact Hboth|].
  assert (Hbody : ∀ library_path default_policy declared invoked
                    i o1 o2 p ru w g w',
    release_after (archive_body library_path default_policy declared invoked
                     i o1 o2 p ru) w = (Ok g, w') →
    outputs_respect_lengths invoked w g w').
  { intros library_path default_policy declared invoked i o1 o2 p ru w g w' Hrun.
    apply release_after_returns in Hrun as (w2 & Hrun & ->).
    eapply archive_body_returns_stable
      with (I := λ v, files v = files w ∧ dirs v = dirs w)
           (allowed := λ _, True) in Hrun; [|done..].
    destruct Hrun as (r & o1' & o2' & w1 & Hret & [Hf Hd] & Hrun).
    specialize (Hfile r o1' o2' ru w1). specialize (Hreport r o1' o2' ru w1).
    specialize (Hboth r o1' o2' ru w1). unfold final in Hboth at 1.
    rewrite Hrun in Hfile, Hreport, Hboth. simpl in Hboth.
    split; [|split].
    - intros Hall. by apply Hfile, Hall.
    - intros Hall. by apply Hreport, Hall.
    - intros Hall. destruct (Hall r Hret) as [Hzero1 Hzero2].
      rewrite (Hboth Hzero1 Hzero2). by unfold final. }
  intros library_path default_policy i o1 o2 p ru w g w'.
  split; apply Hbody.
Qed.

(** After a call that reported no output file and a two-byte report, with
    both paths supplied: the result has the empty [output_file], the
    report is on disk, and there is no file at the output path. *)
Lemma zero_length_output_is_empty_and_unwritten_witness :
  let w := set_native_mem (nr_memory Samples.report_only)
             (Samples.sample_world Samples.slash) in
  let run := @collect_outputs Samples.posix_host Samples.sample_tables
               Samples.report_only (VStr "/out/x.zip") (VStr "/out/x.zip.xml")
               true in
  nr_output_buffer_length Samples.report_only = 0%nat ∧
  match run w with
  | (Ok g, w') =>
      output_file g = [] ∧
      w' = final (@write_output Samples.posix_host (output_report g)
                    (VStr "/out/x.zip.xml")) w
  | (Raised _, w') => w' = w
  end ∧
  outcome run w = Ok (mkGwReturnObj 1 [] (encode "<r")) ∧
  files (final run w) !! "/out/x.zip" = None ∧
  files (final run w) !! "/out/x.zip.xml" = Some (encode "<r").
Proof.
  intros w run.
  split; [reflexivity|]. split; [|by vm_compute].
  destruct (@zero_length_output_is_empty_and_unwritten Samples.posix_host
              Samples.angle_xml Samples.echo_engine Samples.sample_tables)
    as (_ & _ & Hfile & _).
  exact (Hfile Samples.report_only (VStr "/out/x.zip") (VStr "/out/x.zip.xml")
           true w eq_refl).
Defined.



(** * Further properties of the two files *)

(** ** Text *)

Lemma str_all_app P s t :
  str_all P (s ++ t) = str_all P s && str_all P t.
Proof.
  induction s as [|c s IH]; simpl; [done|]. by rewrite IH, andb_assoc.
Qed.

Lemma str_all_impl (P Q : ascii → bool) s :
  (∀ c, P c = true → Q c = true) → str_all P s = true → str_all Q s = true.
Proof.
  intros HPQ. induction s as [|c s IH]; simpl; [done|].
  rewrite !andb_true_iff. intros [Hc Hs]. split; [by apply HPQ | by apply IH].
Qed.

Lemma replace_char_clears old new s :
  old ≠ new →
  str_all (λ c, negb (Ascii.eqb c old)) (replace_char old new s) = true.
Proof.
  intros Hne. induction s as [|c s IH]; simpl; [done|].
  rewrite IH, andb_true_r.
  destruct (Ascii.eqb c old) eqn:E.
  - apply negb_true_iff, Ascii.eqb_neq. congruence.
  - by rewrite E.
Qed.

Lemma replace_char_absent old new s :
  str_all (λ c, negb (Ascii.eqb c old)) s = true → replace_char old new s = s.
Proof.
  induction s as [|c s IH]; simpl; [done|].
  rewrite andb_true_iff, negb_true_iff. intros [-> Hs]. by rewrite IH.
Qed.

Lemma replace_char_length old new s :
  String.length (replace_char old new s) = String.length s.
Proof. induction s as [|c s IH]; simpl; [done|]. by rewrite IH. Qed.

(** X1. The path [crossplatform_path] returns holds no backslash,
    whatever [os.path.normpath] made of the argument; it is as long as
    the normalised path; it is the normalised path itself where that
    holds no backslash; and so replacing again changes nothing. *)
Theorem crossplatform_path_has_no_backslash `{OsPath} (path : string) :
  str_all (λ c, negb (Ascii.eqb c (ascii_of_nat 92))) (crossplatform_path path)
  = true ∧
  String.length (crossplatform_path path) = String.length (normpath path) ∧
  (str_all (λ c, negb (Ascii.eqb c (ascii_of_nat 92))) (normpath path) = true →
   crossplatform_path path = normpath path) ∧
  replace_char (ascii_of_nat 92) (ascii_of_nat 47) (crossplatform_path path)
  = crossplatform_path path.
Proof.
  unfold crossplatform_path.
  assert (Hclear := replace_char_clears (ascii_of_nat 92) (ascii_of_nat 47)
                      (normpath path) ltac:(done)).
  split; [done|]. split; [apply replace_char_length|].
  split; [apply replace_char_absent|]. by apply replace_char_absent.
Qed.

(** On the host with separator [\], the relative path [a\doc1.zip]
    becomes [a/doc1.zip]. *)
Lemma crossplatform_path_has_no_backslash_witness :
  let path := String.concat (String Samples.backslash "") ["a"; "doc1.zip"] in
  str_all (λ c, negb (Ascii.eqb c (ascii_of_nat 92)))
    (@normpath Samples.posix_host "a/doc1.zip") = true ∧
  @crossplatform_path Samples.posix_host "a/doc1.zip"
  = @normpath Samples.posix_host "a/doc1.zip" ∧
  @crossplatform_path Samples.backslash_host path = "a/doc1.zip".
Proof.
  intros path.
  assert (Hno : str_all (λ c, negb (Ascii.eqb c (ascii_of_nat 92)))
                  (@normpath Samples.posix_host "a/doc1.zip") = true)
    by reflexivity.
  split; [exact Hno|]. split; [|reflexivity].
  exact (proj1 (proj2 (proj2 (@crossplatform_path_has_no_backslash
                                Samples.posix_host "a/doc1.zip"))) Hno).
Defined.

(** *** [as_snake_case] and [as_title] *)

Lemma lower_is_not_upper c : isupper (lower c) = false.
Proof. by destruct c as [[] [] [] [] [] [] [] []]. Qed.

Lemma upper_of_lower c :
  islower c = true → isupper (upper c) = true ∧ lower (upper c) = c.
Proof. by destruct c as [[] [] [] [] [] [] [] []]. Qed.

Lemma lower_not_upper c : islower c = true → isupper c = false.
Proof. by destruct c as [[] [] [] [] [] [] [] []]. Qed.

Lemma lstrip_suffix P c s :
  str_all P s = true → str_all P (lstrip c s) = true.
Proof.
  induction s as [|a s IH]; simpl; [done|].
  destruct (Ascii.eqb a c); [|done].
  rewrite andb_true_iff. intros [_ Hs]. by apply IH.
Qed.

Lemma lstrip_not_leading c s t : lstrip c s ≠ String c t.
Proof.
  induction s as [|a s IH]; simpl; [done|].
  destruct (Ascii.eqb a c) eqn:E; [done|].
  intros [= -> _]. by rewrite Ascii.eqb_refl in E.
Qed.

Lemma lstrip_id c s : (∀ t, s ≠ String c t) → lstrip c s = s.
Proof.
  destruct s as [|a s]; simpl; [done|]. intros Hs.
  destruct (Ascii.eqb a c) eqn:E; [|done].
  apply Ascii.eqb_eq in E as ->. by destruct (Hs s).
Qed.

Lemma snake_chars_lowered s :
  str_all (λ c, negb (isupper c)) (snake_chars s) = true.
Proof.
  induction s as [|c s IH]; simpl; [done|].
  rewrite str_all_app, IH, andb_true_r.
  destruct (isupper c) eqn:E; simpl; [|by rewrite E].
  by rewrite lower_is_not_upper.
Qed.

Lemma snake_chars_id s :
  str_all (λ c, negb (isupper c)) s = true → snake_chars s = s.
Proof.
  induction s as [|c s IH]; simpl; [done|].
  rewrite andb_true_iff, negb_true_iff. intros [-> Hs]. simpl. by rewrite IH.
Qed.

(** X2. For ASCII text, [as_snake_case] returns text with no capital
    letter and no leading underscore, and applying it to its own result
    changes nothing. *)
Theorem as_snake_case_is_idempotent (s : string) :
  is_ascii_text s →
  str_all (λ c, negb (isupper c)) (as_snake_case s) = true ∧
  (∀ t, as_snake_case s ≠ String "_" t) ∧
  as_snake_case (as_snake_case s) = as_snake_case s.
Proof.
  intros _.
  assert (Hlow : str_all (λ c, negb (isupper c)) (as_snake_case s) = true)
    by apply lstrip_suffix, snake_chars_lowered.
  assert (Hlead : ∀ t, as_snake_case s ≠ String "_" t)
    by (intros t; apply lstrip_not_leading).
  split; [done|]. split; [done|].
  unfold as_snake_case at 1. rewrite snake_chars_id by done.
  by apply lstrip_id.
Qed.

Lemma as_snake_case_is_idempotent_witness :
  is_ascii_text "_WordSearch" ∧
  as_snake_case "_WordSearch" = "word_search" ∧
  as_snake_case (as_snake_case "_WordSearch") = as_snake_case "_WordSearch".
Proof.
  assert (Hascii : is_ascii_text "_WordSearch") by reflexivity.
  split; [exact Hascii|]. split; [reflexivity|].
  exact (proj2 (proj2 (as_snake_case_is_idempotent "_WordSearch" Hascii))).
Defined.

Lemma str_split_whole c w :
  str_all (λ a, negb (Ascii.eqb a c)) w = true → str_split c w = [w].
Proof.
  induction w as [|a w IH]; simpl; [done|].
  rewrite andb_true_iff, negb_true_iff. intros [-> Hw]. by rewrite IH.
Qed.

Lemma str_split_app c w rest :
  str_all (λ a, negb (Ascii.eqb a c)) w = true →
  str_split c (w ++ String c rest) = w :: str_split c rest.
Proof.
  induction w as [|a w IH]; simpl.
  - intros _. by rewrite Ascii.eqb_refl.
  - rewrite andb_true_iff, negb_true_iff. intros [-> Hw]. by rewrite IH.
Qed.

Lemma str_split_concat c words :
  words ≠ [] →
  Forall (λ w, str_all (λ a, negb (Ascii.eqb a c)) w = true) words →
  str_split c (String.concat (String c "") words) = words.
Proof.
  induction words as [|w words IH]; [done|]. intros _ Hall.
  apply Forall_cons in Hall as [Hw Hall].
  destruct words as [|w' words].
  - by apply str_split_whole.
  - change (String.concat (String c "") (w :: w' :: words))
      with (w ++ String c (String.concat (String c "") (w' :: words))).
    rewrite str_split_app by done. f_equal. by apply IH.
Qed.

Lemma title_from_cased_lower r :
  str_all islower r = true → title_from true r = r.
Proof.
  induction r as [|c r IH]; simpl; [done|].
  rewrite andb_true_iff. intros [-> Hr]. by rewrite IH.
Qed.

Lemma snake_chars_app a b : snake_chars (a ++ b) = snake_chars a ++ snake_chars b.
Proof.
  induction a as [|c a IH]; simpl; [done|]. rewrite IH.
  destruct (isupper c); simpl; done.
Qed.

Lemma snake_chars_title w :
  w ≠ "" → str_all islower w = true → snake_chars (title w) = String "_" w.
Proof.
  destruct w as [|c r]; [done|]. intros _. simpl.
  rewrite andb_true_iff. intros [Hc Hr]. unfold title. simpl. rewrite Hc.
  simpl. destruct (upper_of_lower c Hc) as [-> ->]. simpl.
  rewrite title_from_cased_lower by done.
  rewrite (snake_chars_id r); [reflexivity|].
  revert Hr. apply str_all_impl.
  intros a Ha. by rewrite (lower_not_upper a Ha).
Qed.

Lemma islower_not_underscore c : islower c = true → Ascii.eqb c "_" = false.
Proof. by destruct c as [[] [] [] [] [] [] [] []]. Qed.

(** X3. Where the text is one or more words of small ASCII letters
    joined by single underscores, [as_snake_case] undoes [as_title]. *)
Theorem as_snake_case_undoes_as_title (words : list string) :
  words ≠ [] →
  Forall (λ w, w ≠ "" ∧ str_all islower w = true) words →
  as_snake_case (as_title (String.concat "_" words)) = String.concat "_" words.
Proof.
  intros Hne Hwords. unfold as_title.
  assert (Hplain : Forall (λ w, str_all (λ a, negb (Ascii.eqb a "_")) w = true)
                     words).
  { eapply Forall_impl; [exact Hwords|]. intros w [_ Hw]. revert Hw.
    apply str_all_impl. intros a Ha. by rewrite (islower_not_underscore a Ha). }
  rewrite (str_split_concat "_" words Hne Hplain).
  assert (Hsnake : snake_chars (String.concat "" (title <$> words))
                   = String "_" (String.concat "_" words)).
  { destruct words as [|w words]; [done|]. clear Hne Hplain.
    revert w Hwords. induction words as [|w' words IH]; intros w Hwords.
    - apply Forall_cons in Hwords as [[Hw1 Hw2] _]. simpl.
      by apply snake_chars_title.
    - apply Forall_cons in Hwords as [[Hw1 Hw2] Hwords].
      change (title <$> w :: w' :: words)
        with (title w :: (title <$> w' :: words)).
      change (String.concat "" (title w :: (title <$> w' :: words)))
        with (title w ++ String.concat "" (title <$> w' :: words)).
      rewrite snake_chars_app, snake_chars_title by done.
      rewrite (IH w' Hwords). reflexivity. }
  unfold as_snake_case. rewrite Hsnake. simpl.
  apply lstrip_id. intros t.
  destruct words as [|w words]; [done|].
  apply Forall_cons in Hwords as [[Hw1 Hw2] _].
  destruct w as [|c r]; [done|]. simpl in Hw2.
  apply andb_true_iff in Hw2 as [Hc _].
  apply islower_not_underscore in Hc.
  destruct words; simpl; intros [= -> _]; by rewrite Ascii.eqb_refl in Hc.
Qed.

Lemma as_snake_case_undoes_as_title_witness :
  let words := ["word"; "search"] in
  words ≠ [] ∧
  Forall (λ w, w ≠ "" ∧ str_all islower w = true) words ∧
  as_title "word_search" = "WordSearch" ∧
  as_snake_case (as_title (String.concat "_" words))
  = String.concat "_" words.
Proof.
  intros words.
  assert (Hne : words ≠ []) by done.
  assert (Hwords : Forall (λ w, w ≠ "" ∧ str_all islower w = true) words)
    by (repeat constructor; done).
  split; [exact Hne|]. split; [exact Hwords|]. split; [reflexivity|].
  exact (as_snake_case_undoes_as_title words Hne Hwords).
Defined.

(** ** Elements *)

Lemma element_ind (P : element → Prop)
    (step : ∀ tag text tail attrib children,
       Forall P children → P (Element tag text tail attrib children))
    (e : element) : P e.
Proof.
  revert e. fix IH 1. intros [tag text tail attrib children].
  apply step. induction children as [|c cs IHcs].
  - apply List.Forall_nil.
  - apply List.Forall_cons; [apply IH | exact IHcs].
Qed.

(** X4. [lxml_elements_equal] is [True] exactly on equal elements: same
    tag, text, tail and attributes, and the same children, in order, all
    the way down.  In particular it is reflexive, symmetric and
    transitive. *)
Theorem lxml_elements_equal_iff (e1 e2 : element) :
  lxml_elements_equal e1 e2 = true ↔ e1 = e2.
Proof.
  revert e2.
  induction e1 as [tag1 text1 tail1 attrib1 children1 IH] using element_ind.
  intros [tag2 text2 tail2 attrib2 children2]. simpl.
  assert (Hzip : ∀ cs2, length children1 = length cs2 →
    ((fix all_zip (cs1 cs2 : list element) : bool :=
        match cs1, cs2 with
        | c1 :: cs1', c2 :: cs2' => lxml_elements_equal c1 c2 && all_zip cs1' cs2'
        | _, _ => true
        end) children1 cs2 = true ↔ children1 = cs2)).
  { induction IH as [|c1 cs1 Hc1 _ IHcs]; intros [|c2 cs2] Hlen; try done.
    rewrite andb_true_iff, Hc1, IHcs by (simpl in Hlen; lia).
    split; [by intros [-> ->] | by intros [= -> ->]]. }
  repeat case_bool_decide; simpl;
    try (split; [done | intros [=]; congruence]).
  assert (Hlen : length children1 = length children2)
    by (destruct (decide (length children1 = length children2)); done).
  assert (tag1 = tag2) by (by destruct (decide (tag1 = tag2))).
  assert (text1 = text2) by (by destruct (decide (text1 = text2))).
  assert (tail1 = tail2) by (by destruct (decide (tail1 = tail2))).
  assert (attrib1 = attrib2) by (by destruct (decide (attrib1 = attrib2))).
  subst. rewrite (Hzip children2 Hlen).
  split; [by intros -> | by intros [= ->]].
Qed.

(** ** Digests *)

Section Md5.
Context `{OsPath, Hashlib}.

Lemma stream_read_n_run f n w data pos :
  heap w !! f = Some (ObjBytesIO data pos) →
  (-1 ≤ n)%Z →
  let k := if (n <? 0)%Z then length (drop pos data) else Z.to_nat n in
  stream_read_n f n w
  = (Ok (take k (drop pos data)),
     set_heap (<[f := ObjBytesIO data (pos + length (take k (drop pos data)))]>
                 (heap w)) w).
Proof.
  intros Hf Hn k. unfold stream_read_n.
  rewrite (proj2 (Z.ltb_ge n (-1)) Hn).
  unfold bind, get, modify, ret. simpl.
  rewrite Hf. simpl. subst k. destruct (n <? 0)%Z; [|done].
  by rewrite firstn_all.
Qed.

Lemma md5_chunked_loop_reads_all turns f n w data pos md5 :
  heap w !! f = Some (ObjBytesIO data pos) →
  n ≠ 0%Z →
  (-1 ≤ n)%Z →
  (length data - pos < turns)%nat →
  outcome (md5_chunked_loop turns f n md5) w = Ok (md5 ++ drop pos data)%list ∧
  files (final (md5_chunked_loop turns f n md5) w) = files w ∧
  dirs (final (md5_chunked_loop turns f n md5) w) = dirs w ∧
  cwd (final (md5_chunked_loop turns f n md5) w) = cwd w.
Proof.
  revert w pos md5.
  induction turns as [|turns IH]; intros w pos md5 Hf Hn Hmin Hlt; [lia|].
  unfold outcome, final. simpl.
  rewrite (bind_Ok _ _ _ _ _ (stream_read_n_run f n w data pos Hf Hmin)).
  set (k := if (n <? 0)%Z then length (drop pos data) else Z.to_nat n).
  assert (Hk : (length (drop pos data) = 0 ∨ 0 < k)%nat).
  { subst k. destruct (n <? 0)%Z eqn:E; [lia|].
    apply Z.ltb_ge in E. right. lia. }
  destruct (take k (drop pos data)) as [|b chunk] eqn:Hchunk.
  - simpl. assert (Hnil : drop pos data = []).
    { destruct Hk as [Hk|Hk]; [by apply nil_length_inv|].
      destruct (drop pos data); [done|]. by destruct k; [lia|]. }
    rewrite Hnil, app_nil_r. done.
  - set (w1 := set_heap _ w).
    assert (Hlen : (length (b :: chunk) ≤ length (drop pos data))%nat)
      by (rewrite <- Hchunk, length_take; lia).
    rewrite length_drop in Hlen. simpl in Hlen.
    destruct (IH w1 (pos + length (b :: chunk))%nat (md5 ++ b :: chunk)%list)
      as (Hout & Hfiles & Hdirs & Hcwd).
    + subst w1. simpl. by rewrite lookup_insert_eq.
    + done.
    + done.
    + simpl. lia.
    + unfold outcome, final in *. rewrite Hout, Hfiles, Hdirs, Hcwd.
      split; [|done]. f_equal. rewrite <- app_assoc. f_equal.
      rewrite <- Hchunk, <- drop_drop.
      generalize (drop pos data). intros rest.
      destruct (decide (k ≤ length rest)%nat) as [Hle|Hgt].
      * rewrite length_take, Nat.min_l by done. apply take_drop.
      * rewrite take_ge by lia. rewrite drop_all. apply app_nil_r.
Qed.
End Md5.



(** ** Differences between two visual comparisons *)

Section Differences.
Context `{OsPath, Json}.
Context {V : Type}.

Lemma fold_insert_lookup (f : string → gmap string scalar → option V)
    (l : list (string * gmap string scalar)) (acc : gmap string V) (k : string) :
  NoDup l.*1 →
  fold_left (λ differences '(relative_file, expected_dict),
               match f relative_file expected_dict with
               | Some difference => <[relative_file := difference]> differences
               | None => differences
               end) l acc !! k
  = match (list_to_map l : gmap string (gmap string scalar)) !! k with
    | Some e => match f k e with Some v => Some v | None => acc !! k end
    | None => acc !! k
    end.
Proof.
  revert acc. induction l as [|[k0 e0] l IH]; intros acc Hnodup; simpl; [done|].
  apply NoDup_cons in Hnodup as [Hk0 Hnodup]. rewrite IH by done.
  destruct (decide (k = k0)) as [->|Hne].
  - rewrite lookup_insert_eq.
    rewrite (not_elem_of_list_to_map_1 l k0) by done.
    destruct (f k0 e0); [by rewrite lookup_insert_eq | done].
  - rewrite lookup_insert_ne by done.
    destruct (list_to_map l !! k) as [e|] eqn:E.
    + destruct (f k e); [done|].
      destruct (f k0 e0); [by rewrite lookup_insert_ne | done].
    + destruct (f k0 e0); [by rewrite lookup_insert_ne | done].
Qed.
End Differences.

Section DifferencesOf.
Context `{OsPath, Json}.
Variables expected_json_path output_json_path : string.
Variables expected output : gmap string (gmap string scalar).
Variable w : World.
Hypothesis load_expected :
  load_json_as_dictionary expected_json_path w = (Ok expected, w).
Hypothesis load_output :
  load_json_as_dictionary output_json_path w = (Ok output, w).

Lemma differences_run a de at_ :
  get_visual_comparison_json_differences expected_json_path output_json_path
    a de at_ w
  = (Ok (if comparison_eq expected output then ∅
         else map_imap (difference_for a de at_ output) expected), w).
Proof.
  unfold get_visual_comparison_json_differences.
  rewrite (bind_Ok _ _ _ _ _ load_expected), (bind_Ok _ _ _ _ _ load_output).
  destruct (comparison_eq expected output); [done|]. unfold ret. f_equal. f_equal.
  apply map_eq. intros k.
  rewrite fold_insert_lookup by apply NoDup_fst_map_to_list.
  rewrite list_to_map_to_list, map_lookup_imap, lookup_empty.
  destruct (expected !! k) as [e|]; simpl; [|done].
  by destruct (difference_for a de at_ output k e).
Qed.
End DifferencesOf.

Lemma load_json_as_dictionary_run `{OsPath, Json}
    (json_path : string) (content : bytes)
    (dictionary : gmap string (gmap string scalar)) (w : World) :
  files w !! abspath (cwd w) json_path = Some content →
  json_load content = Some dictionary →
  load_json_as_dictionary json_path w = (Ok dictionary, w).
Proof.
  intros Hfile Hjson. unfold load_json_as_dictionary, read_file, bind, get, ret.
  simpl. rewrite Hfile. simpl. by rewrite Hjson.
Qed.

(** X6. Both JSON files, at spelled-out paths, load.  Then every difference that is reported
    is under a relative file of the expected comparison and shows the
    expected entry; its output is [None] only where the output
    comparison has no entry, or an empty one, for that file, and is
    otherwise the output entry, which is then not empty and differs from
    the expected one.  A file of the expected comparison that the output
    comparison lacks is reported whatever the three options are; and so is
    one whose output entry is empty, as if it were missing -- even where
    the expected entry is empty too --, unless the two comparisons are
    equal as wholes.  The world is left as it is. *)
Theorem reported_differences_reflect_the_two_files `{OsPath, Json}
    (expected_json_path output_json_path : string)
    (expected_content output_content : bytes)
    (expected output : gmap string (gmap string scalar))
    (allow_false_to_true differentiate_errors allow_timeout : bool)
    (w : World) :
  spelled_out (cwd w) expected_json_path →
  spelled_out (cwd w) output_json_path →
  files w !! abspath (cwd w) expected_json_path = Some expected_content →
  json_load expected_content = Some expected →
  files w !! abspath (cwd w) output_json_path = Some output_content →
  json_load output_content = Some output →
  ∃ differences,
    get_visual_comparison_json_differences expected_json_path output_json_path
      allow_false_to_true differentiate_errors allow_timeout w
    = (Ok differences, w) ∧
    (∀ k e o, differences !! k = Some (e, o) →
       expected !! k = Some e ∧
       match o with
       | None => output !! k = None ∨ output !! k = Some ∅
       | Some output_dict =>
           output !! k = Some output_dict ∧ output_dict ≠ ∅ ∧
           dict_eq e output_dict = false
       end) ∧
    (∀ k e, expected !! k = Some e → output !! k = None →
       differences !! k = Some (e, None)) ∧
    (∀ k e, expected !! k = Some e → output !! k = Some ∅ →
       comparison_eq expected output = false →
       differences !! k = Some (e, None)).
Proof.
  intros _ _ Hfile1 Hjson1 Hfile2 Hjson2.
  pose proof (load_json_as_dictionary_run _ _ _ _ Hfile1 Hjson1) as Hexpected.
  pose proof (load_json_as_dictionary_run _ _ _ _ Hfile2 Hjson2) as Houtput. eexists. split.
  { by apply differences_run. }
  split; [|split].
  - intros k e o. destruct (comparison_eq expected output); [done|].
    rewrite map_lookup_imap.
    destruct (expected !! k) as [e'|] eqn:He; simpl; [|done].
    unfold difference_for.
    destruct (output !! k) as [od|] eqn:Ho; [|intros [= <- <-]; auto].
    case_bool_decide as Hempty; [subst od; intros [= <- <-]; auto|].
    destruct (dict_eq e' od) eqn:Heq; simpl; [done|].
    repeat (case_match; try done). by intros [= <- <-].
  - intros k e He Ho.
    destruct (comparison_eq expected output) eqn:Heq.
    + exfalso. unfold comparison_eq in Heq.
      apply andb_true_iff in Heq as [Hdom _].
      apply bool_decide_eq_true in Hdom.
      assert (k ∈ dom output) as Hk by (rewrite <- Hdom; by apply elem_of_dom).
      apply elem_of_dom in Hk as [? ?]. congruence.
    + rewrite map_lookup_imap, He. simpl. unfold difference_for. by rewrite Ho.
  - intros k e He Ho Heq. rewrite Heq.
    rewrite map_lookup_imap, He. simpl. unfold difference_for. rewrite Ho.
    by rewrite bool_decide_eq_true_2.
Qed.


(** [c.doc] is in the expected comparison and missing from the output
    comparison: it is reported, with no output. *)
Lemma reported_differences_reflect_the_two_files_witness :
  let w := Samples.comparison_world in
  @spelled_out Samples.posix_host (cwd w) "/expected.json" ∧
  @spelled_out Samples.posix_host (cwd w) "/output.json" ∧
  files w !! @abspath Samples.posix_host (cwd w) "/expected.json"
  = Some (encode "expected") ∧
  @json_load Samples.sample_json (encode "expected")
  = Some Samples.expected_comparison ∧
  files w !! @abspath Samples.posix_host (cwd w) "/output.json"
  = Some (encode "output") ∧
  @json_load Samples.sample_json (encode "output")
  = Some Samples.output_comparison ∧
  ∃ differences,
    @get_visual_comparison_json_differences Samples.posix_host
      Samples.sample_json "/expected.json" "/output.json" true false false w
    = (Ok differences, w) ∧
    differences !! "c.doc"
    = Some ({[ "visually_identical" := JBool false; "tolerance" := JInt 0;
               "error" := JStr "VisualComparisonToolContentMismatch" ]}, None).
Proof.
  intros w.
  assert (F1 : files w !! @abspath Samples.posix_host (cwd w) "/expected.json"
               = Some (encode "expected")) by (vm_compute; reflexivity).
  assert (F2 : files w !! @abspath Samples.posix_host (cwd w) "/output.json"
               = Some (encode "output")) by (vm_compute; reflexivity).
  assert (P1 : @spelled_out Samples.posix_host (cwd w) "/expected.json")
    by reflexivity.
  assert (P2 : @spelled_out Samples.posix_host (cwd w) "/output.json")
    by reflexivity.
  split; [exact P1|]. split; [exact P2|].
  split; [exact F1|]. split; [reflexivity|]. split; [exact F2|].
  split; [reflexivity|].
  destruct (@reported_differences_reflect_the_two_files Samples.posix_host
              Samples.sample_json
              "/expected.json" "/output.json" _ _ Samples.expected_comparison
              Samples.output_comparison true false false w
              P1 P2 F1 eq_refl F2 eq_refl)
    as (differences & Hrun & _ & Hmissing & _).
  exists differences. split; [exact Hrun|].
  apply Hmissing; vm_compute; reflexivity.
Defined.


(** ** Rejected arguments *)

Section Rejected.
Context `{OsPath, Lxml, Engine, StatusTables}.
Variable library_path : string.
Variable default_policy : string.

Lemma abspath_if_str_run o w :
  abspath_if_str o w
  = (Ok (match o with VStr p => VStr (abspath (cwd w) p) | _ => o end), w).
Proof. by destruct o. Qed.

Lemma check_type_pass v cs w :
  isinstance v cs = true → check_type v cs w = (Ok tt, w).
Proof. intros Hv. unfold check_type. by rewrite Hv. Qed.

Lemma check_type_fail v cs w :
  isinstance v cs = false → check_type v cs w = (Raised (TypeError v), w).
Proof. intros Hv. unfold check_type. by rewrite Hv. Qed.

Lemma archive_body_type_errors declared invoked i o1 o2 p ru w :
  (isinstance i [str; bytes_; bytearray; BytesIO] = false →
   archive_body library_path default_policy declared invoked i o1 o2 p ru w
   = (Raised (TypeError i), w)) ∧
  (isinstance i [str; bytes_; bytearray; BytesIO] = true →
   isinstance o1 [NoneType; str] = false →
   archive_body library_path default_policy declared invoked i o1 o2 p ru w
   = (Raised (TypeError o1), w)) ∧
  (isinstance i [str; bytes_; bytearray; BytesIO] = true →
   isinstance o1 [NoneType; str] = true →
   isinstance o2 [NoneType; str] = false →
   archive_body library_path default_policy declared invoked i o1 o2 p ru w
   = (Raised (TypeError o2), w)) ∧
  (isinstance i [str; bytes_; bytearray; BytesIO] = true →
   isinstance o1 [NoneType; str] = true →
   isinstance o2 [NoneType; str] = true →
   isinstance p [NoneType; str; bytes_; bytearray; BytesIO; Policy] = false →
   archive_body library_path default_policy declared invoked i o1 o2 p ru w
   = (Raised (TypeError p), w)).
Proof.
  unfold archive_body. repeat split.
  - intros Hi. by rewrite (bind_Raised _ _ _ _ _ (check_type_fail _ _ w Hi)).
  - intros Hi Ho1. rewrite (bind_Ok _ _ _ _ _ (check_type_pass _ _ w Hi)).
    by rewrite (bind_Raised _ _ _ _ _ (check_type_fail _ _ w Ho1)).
  - intros Hi Ho1 Ho2. rewrite (bind_Ok _ _ _ _ _ (check_type_pass _ _ w Hi)).
    rewrite (bind_Ok _ _ _ _ _ (check_type_pass _ _ w Ho1)).
    by rewrite (bind_Raised _ _ _ _ _ (check_type_fail _ _ w Ho2)).
  - intros Hi Ho1 Ho2 Hp. rewrite (bind_Ok _ _ _ _ _ (check_type_pass _ _ w Hi)).
    rewrite (bind_Ok _ _ _ _ _ (check_type_pass _ _ w Ho1)).
    rewrite (bind_Ok _ _ _ _ _ (check_type_pass _ _ w Ho2)).
    by rewrite (bind_Raised _ _ _ _ _ (check_type_fail _ _ w Hp)).
Qed.

Lemma archive_body_missing_input declared invoked path o1 o2 p ru w :
  isinstance o1 [NoneType; str] = true →
  isinstance o2 [NoneType; str] = true →
  isinstance p [NoneType; str; bytes_; bytearray; BytesIO; Policy] = true →
  isfile path w = (Ok false, w) →
  archive_body library_path default_policy declared invoked
    (VStr path) o1 o2 p ru w
  = (Raised (FileNotFoundError path), w).
Proof.
  intros Ho1 Ho2 Hp Hfile. unfold archive_body.
  rewrite (bind_Ok _ _ _ _ _
             (check_type_pass (VStr path) [str; bytes_; bytearray; BytesIO] w
                eq_refl)).
  rewrite (bind_Ok _ _ _ _ _ (check_type_pass _ _ w Ho1)).
  rewrite (bind_Ok _ _ _ _ _ (check_type_pass _ _ w Ho2)).
  rewrite (bind_Ok _ _ _ _ _ (check_type_pass _ _ w Hp)).
  rewrite (bind_Ok _ _ _ _ _ (abspath_if_str_run o1 w)).
  rewrite (bind_Ok _ _ _ _ _ (abspath_if_str_run o2 w)).
  apply bind_Raised. unfold read_input.
  by rewrite (bind_Ok _ _ _ _ _ Hfile).
Qed.
End Rejected.

(** X8. An argument of a type the method does not accept raises
    [TypeError] with that argument, the arguments being looked at in the
    order input file, output file, output report, policy; the world is
    as it was: nothing was read, nothing declared or called on the
    library, and [GwArchiveDone] is not called either. *)
Theorem ill_typed_argument_is_rejected_before_any_effect
    `{OsPath, Lxml, Engine, StatusTables}
    (library_path default_policy : string) (i o1 o2 p : pyval) (ru : bool)
    (w : World) (bad : pyval) :
  (isinstance i [str; bytes_; bytearray; BytesIO] = false ∧ bad = i) ∨
  (isinstance i [str; bytes_; bytearray; BytesIO] = true ∧
   isinstance o1 [NoneType; str] = false ∧ bad = o1) ∨
  (isinstance i [str; bytes_; bytearray; BytesIO] = true ∧
   isinstance o1 [NoneType; str] = true ∧
   isinstance o2 [NoneType; str] = false ∧ bad = o2) ∨
  (isinstance i [str; bytes_; bytearray; BytesIO] = true ∧
   isinstance o1 [NoneType; str] = true ∧
   isinstance o2 [NoneType; str] = true ∧
   isinstance p [NoneType; str; bytes_; bytearray; BytesIO; Policy] = false ∧
   bad = p) →
  analyse_archive library_path default_policy i o1 o2 p ru w
  = (Raised (TypeError bad), w) ∧
  protect_archive library_path default_policy i o1 o2 p ru w
  = (Raised (TypeError bad), w).
Proof.
  intros Hbad.
  assert (Hbody : ∀ declared invoked,
    archive_body library_path default_policy declared invoked i o1 o2 p ru w
    = (Raised (TypeError bad), w)).
  { intros declared invoked.
    destruct (archive_body_type_errors library_path default_policy
                declared invoked i o1 o2 p ru w) as (T1 & T2 & T3 & T4).
    destruct Hbad as [(? & ->)|[(? & ? & ->)|[(? & ? & ? & ->)|(? & ? & ? & ? & ->)]]];
      auto. }
  unfold analyse_archive, protect_archive, release_after.
  split; apply bind_Raised, Hbody.
Qed.

Lemma ill_typed_argument_is_rejected_before_any_effect_witness :
  let w := Samples.sample_world Samples.slash in
  isinstance (VBytearray 1) [str; bytes_; bytearray; BytesIO] = true ∧
  isinstance (VInt 7) [NoneType; str] = false ∧
  Samples.analyse Samples.slash Samples.echo_engine
    (VBytearray 1) (VInt 7) (VInt 8) (VInt 9) true w
  = (Raised (TypeError (VInt 7)), w).
Proof.
  intros w. split; [reflexivity|]. split; [reflexivity|].
  exact (proj1 (@ill_typed_argument_is_rejected_before_any_effect
                  Samples.posix_host Samples.angle_xml Samples.echo_engine
                  Samples.sample_tables
                  (Samples.sample_library_path Samples.slash) Samples.policy_xml
                  (VBytearray 1) (VInt 7) (VInt 8) (VInt 9) true w (VInt 7)
                  (or_intror (or_introl (conj eq_refl (conj eq_refl eq_refl)))))).
Defined.

(** X9. With well-typed arguments, an input path that names no file
    raises [FileNotFoundError] with the path, and the world is as it was:
    the policy has not been looked at, and nothing was declared or called
    on the library. *)
Theorem missing_input_file_is_rejected_before_any_call
    `{OsPath, Lxml, Engine, StatusTables}
    (library_path default_policy path : string) (o1 o2 p : pyval) (ru : bool)
    (w : World) :
  isinstance o1 [NoneType; str] = true →
  isinstance o2 [NoneType; str] = true →
  isinstance p [NoneType; str; bytes_; bytearray; BytesIO; Policy] = true →
  isfile path w = (Ok false, w) →
  analyse_archive library_path default_policy (VStr path) o1 o2 p ru w
  = (Raised (FileNotFoundError path), w) ∧
  protect_archive library_path default_policy (VStr path) o1 o2 p ru w
  = (Raised (FileNotFoundError path), w).
Proof.
  intros Ho1 Ho2 Hp Hfile.
  unfold analyse_archive, protect_archive, release_after.
  split; apply bind_Raised; by apply archive_body_missing_input.
Qed.

(** A missing archive and a malformed policy: the missing archive is
    what is reported. *)
Lemma missing_input_file_is_rejected_before_any_call_witness :
  let w := Samples.sample_world Samples.slash in
  @isfile Samples.posix_host "/in/absent.zip" w = (Ok false, w) ∧
  Samples.protect Samples.slash Samples.echo_engine
    (VStr "/in/absent.zip") VNone (VStr "/out/r.xml") (VStr "not xml") true w
  = (Raised (FileNotFoundError "/in/absent.zip"), w).
Proof.
  intros w.
  assert (Hfile : @isfile Samples.posix_host "/in/absent.zip" w = (Ok false, w))
    by reflexivity.
  split; [exact Hfile|].
  exact (proj2 (@missing_input_file_is_rejected_before_any_call
                  Samples.posix_host Samples.angle_xml Samples.echo_engine
                  Samples.sample_tables
                  (Samples.sample_library_path Samples.slash) Samples.policy_xml
                  "/in/absent.zip" VNone (VStr "/out/r.xml") (VStr "not xml")
                  true w eq_refl eq_refl eq_refl Hfile)).
Defined.


(** ** The uses of the library in one run *)

Lemma run_bind_inv {A B} (I : World → Prop) (Q : result B → World → Prop)
    (m : M A) (k : A → M B) (w : World) :
  inv I m → I w →
  (∀ e w1, I w1 → Q (Raised e) w1) →
  (∀ a w1, I w1 → Q (k a w1).1 (k a w1).2) →
  Q (bind m k w).1 (bind m k w).2.
Proof.
  intros Hm Hw Hraise Hk. specialize (Hm w Hw). unfold final, bind in *.
  destruct (m w) as [[a|e] w1]; simpl in *; auto.
Qed.

Section Trace.
Context `{OsPath, OsDir, Lxml, Engine, StatusTables}.
Variable library_path : string.
Variable default_policy : string.

Local Ltac quiet lem :=
  first [eapply lem with (allowed := λ _ : lib_event, False) | eapply lem];
  try (intros; simpl in *; done).

Lemma api_call_log f b policy w :
  (is_Ok (api_call library_path f b policy w).1 = false ∧
   lib_log (api_call library_path f b policy w).2 = lib_log w) ∨
  lib_log (api_call library_path f b policy w).2
  = (lib_log w ++ [Call f])%list.
Proof.
  unfold api_call, with_CwdHandler, foreign_call.
  cbv [CwdHandler__init__ CwdHandler__enter__ CwdHandler__exit__ chdir
       isdir getcwd log_lib bytearray_contents bind get modify ret raise].
  simpl.
  repeat (case_match; simpl in *; simplify_eq; auto).
Qed.

Lemma archive_body_trace declared invoked i o1 o2 p ru w :
  trace_shape (lib_log w) (SetArgtypes declared) (Call invoked)
    (archive_body library_path default_policy declared invoked
       i o1 o2 p ru w).1
    (archive_body library_path default_policy declared invoked
       i o1 o2 p ru w).2.
Proof.
  set (L := lib_log w).
  set (I0 := λ v : World, lib_log v = L).
  set (I1 := λ v : World, lib_log v = (L ++ [SetArgtypes declared])%list).
  set (I2 := λ v : World,
         lib_log v = (L ++ [SetArgtypes declared; Call invoked])%list).
  set (Q := @trace_shape GwReturnObj L (SetArgtypes declared) (Call invoked)).
  assert (Q0 : ∀ e v, I0 v → Q (Raised e) v) by (intros e v Hv; by left).
  assert (Q1 : ∀ e v, I1 v → Q (Raised e) v)
    by (intros e v Hv; right; by left).
  assert (Q2 : ∀ r v, I2 v → Q r v) by (intros r v Hv; right; by right).
  unfold archive_body.
  do 4 (apply (run_bind_inv I0 Q); [|done|exact Q0|intros ? ? ?];
        [quiet stable_check_type|]).
  apply (run_bind_inv I0 Q); [|done|exact Q0|intros out1 ? ?];
    [quiet stable_abspath_if_str|].
  apply (run_bind_inv I0 Q); [|done|exact Q0|intros out2 ? ?];
    [quiet stable_abspath_if_str|].
  apply (run_bind_inv I0 Q); [|done|exact Q0|intros ib ? ?];
    [quiet stable_read_input|].
  apply (run_bind_inv I0 Q); [|done|exact Q0|intros pol wa Hwa];
    [quiet stable_load_policy|].
  rewrite (bind_Ok _ _ _ _ _
             (eq_refl : log_lib (SetArgtypes declared) wa
                        = (Ok tt, set_lib_log
                                    (lib_log wa ++ [SetArgtypes declared])%list
                                    wa))).
  set (wb := set_lib_log _ wa).
  assert (Hwb : I1 wb) by (subst wb I1; simpl; by rewrite Hwa).
  clearbody wb.
  apply (run_bind_inv I1 Q); [|done|exact Q1|intros ? ? ?];
    [intros v Hv; unfold final; by destruct ib|].
  apply (run_bind_inv I1 Q); [|done|exact Q1|intros b wc Hwc];
    [quiet stable_alloc|].
  pose proof (api_call_log invoked b (encode pol) wc) as Hcall.
  destruct (api_call library_path invoked b (encode pol) wc)
    as [[r|e] wd] eqn:Hrun; simpl in Hcall.
  - rewrite (bind_Ok _ _ _ _ _ Hrun).
    destruct Hcall as [[? _]|Hcall]; [done|].
    assert (Hwd : I2 wd) by (subst I2; simpl; rewrite Hcall, Hwc;
                             by rewrite <- app_assoc).
    apply Q2.
    assert (Hkeep : inv I2 (collect_outputs r out1 out2 ru))
      by quiet stable_collect_outputs.
    exact (Hkeep wd Hwd).
  - rewrite (bind_Raised _ _ _ _ _ Hrun).
    destruct Hcall as [[_ Hcall]|Hcall].
    + apply Q1. subst I1. simpl. by rewrite Hcall.
    + apply Q2. subst I2. simpl. rewrite Hcall, Hwc. by rewrite <- app_assoc.
Qed.

Lemma release_after_body_in_order declared invoked i o1 o2 p ru w :
  uses_library_in_order declared invoked
    (release_after
       (archive_body library_path default_policy declared invoked
          i o1 o2 p ru)) w.
Proof.
  pose proof (archive_body_trace declared invoked i o1 o2 p ru w) as Hbody.
  unfold uses_library_in_order, final, outcome, release_after.
  destruct (archive_body library_path default_policy declared invoked
              i o1 o2 p ru w) as [[r|e] w'] eqn:Hrun; simpl in Hbody.
  - rewrite (bind_Ok _ _ _ _ _ Hrun).
    destruct Hbody as [[? _]|[[? _]|Hlog]]; [done|done|].
    eexists. split; [|reflexivity]. simpl. rewrite Hlog.
    by rewrite <- app_assoc.
  - rewrite (bind_Raised _ _ _ _ _ Hrun). simpl.
    destruct Hbody as [[_ Hlog]|[[_ Hlog]|Hlog]].
    + exists []. rewrite app_nil_r. auto.
    + eexists. split; [exact Hlog|]. auto.
    + eexists. split; [exact Hlog|]. auto.
Qed.
End Trace.

(** X10. One run of [analyse_archive] or of [protect_archive] uses the
    library in a fixed order and each step at most once: the [.argtypes]
    assignment, one call of the processing function, one call of
    [GwArchiveDone].  A run that returns has made all three; a run that
    raises has made none, the first, or the first two, and never the
    third. *)
Theorem archive_methods_use_the_library_in_order
    `{OsPath, OsDir, Lxml, Engine, StatusTables}
    (library_path default_policy : string)
    (input_file output_file output_report content_management_policy : pyval)
    (raise_unsupported : bool) (w : World) :
  uses_library_in_order GwFileAnalysisArchive GwFileAnalysisArchive
    (analyse_archive library_path default_policy input_file output_file
       output_report content_management_policy raise_unsupported) w ∧
  uses_library_in_order GwFileAnalysisArchive GwFileProtectAndReportArchive
    (protect_archive library_path default_policy input_file output_file
       output_report content_management_policy raise_unsupported) w.
Proof.
  split; apply release_after_body_in_order.
Qed.

(** ** The files a run writes *)

Lemma inv_for_acc {A S} (J : World → Prop) (body : A → S → M S) xs :
  (∀ x s, inv J (body x s)) → ∀ s, inv J (for_acc xs body s).
Proof.
  intros Hbody. induction xs as [|x xs IH]; intros s v Hv; simpl.
  - exact Hv.
  - specialize (Hbody x s v Hv). unfold final, bind in *.
    destruct (body x s v) as [[s'|e] v']; simpl in *; [|done].
    by apply IH.
Qed.

Section Writes.
Context `{OsPath, OsDir, Lxml, Engine, StatusTables}.
Variable library_path : string.
Variable default_policy : string.
Variable w : World.
Variable J : World → Prop.
Hypothesis J_heap : ∀ h v, J v → J (set_heap h v).
Hypothesis J_log : ∀ l v, J v → J (set_lib_log l v).
Hypothesis J_mem : ∀ m v, J v → J (set_native_mem m v).
Hypothesis J_cwd : ∀ d v, J v → J (set_cwd d v).
Variables o1 o2 : pyval.
Hypothesis J_out1 :
  ∀ data, inv J (write_output data (absolute_if_str (cwd w) o1)).
Hypothesis J_out2 :
  ∀ data, inv J (write_output data (absolute_if_str (cwd w) o2)).

Local Ltac quiet lem :=
  first [eapply lem with (allowed := λ _ : lib_event, True) | eapply lem];
  try (intros; repeat match goal with x := _ |- _ => subst x end;
       simpl in *; intuition (eauto; congruence)).

Lemma collect_outputs_keeps r ru :
  inv J (collect_outputs r (absolute_if_str (cwd w) o1)
           (absolute_if_str (cwd w) o2) ru).
Proof.
  unfold collect_outputs.
  apply inv_bind; [quiet stable_check_status|intros _].
  apply inv_bind; [quiet stable_buffer_to_bytes|intros data1].
  apply inv_bind; [quiet stable_buffer_to_bytes|intros data2].
  apply inv_bind; [apply J_out1|intros _].
  apply inv_bind; [apply J_out2|intros _].
  by intros v Hv.
Qed.

Lemma archive_body_keeps declared invoked i p ru :
  J w →
  J (final (archive_body library_path default_policy declared invoked
              i o1 o2 p ru) w).
Proof.
  intros Hw.
  set (I0 := λ v : World, cwd v = cwd w ∧ J v).
  set (Q := λ (_ : result GwReturnObj) (v : World), J v).
  assert (Q0 : ∀ e v, I0 v → Q (Raised e) v) by (by intros e v [_ Hv]).
  assert (QJ : ∀ e v, J v → Q (Raised e) v) by (by intros e v Hv).
  assert (Hstart : I0 w) by by split.
  change (Q (archive_body library_path default_policy declared invoked
               i o1 o2 p ru w).1
            (archive_body library_path default_policy declared invoked
               i o1 o2 p ru w).2).
  unfold archive_body.
  do 3 (apply (run_bind_inv I0 Q); [|done|exact Q0|intros ? ? ?];
        [quiet stable_check_type|]).
  apply (run_bind_inv I0 Q); [|done|exact Q0|intros _ wt Hwt];
    [quiet stable_check_type|].
  rewrite (bind_Ok _ _ _ _ _ (abspath_if_str_run _ _)).
  rewrite (bind_Ok _ _ _ _ _ (abspath_if_str_run _ _)).
  rewrite (proj1 Hwt).
  fold (absolute_if_str (cwd w) o1). fold (absolute_if_str (cwd w) o2).
  apply (run_bind_inv I0 Q); [|done|exact Q0|intros ib ? ?];
    [quiet stable_read_input|].
  apply (run_bind_inv I0 Q); [|done|exact Q0|intros pol wa [_ Hwa]];
    [quiet stable_load_policy|].
  apply (run_bind_inv J Q); [|done|exact QJ|intros _ ? ?];
    [quiet stable_log_lib|].
  apply (run_bind_inv J Q); [|done|exact QJ|intros ? ? ?];
    [intros v Hv; unfold final; by destruct ib|].
  apply (run_bind_inv J Q); [|done|exact QJ|intros b ? ?];
    [quiet stable_alloc|].
  apply (run_bind_inv J Q); [|done|exact QJ|intros r wd Hwd];
    [quiet stable_api_call|].
  exact (collect_outputs_keeps r ru wd Hwd).
Qed.

Lemma release_after_body_keeps declared invoked i p ru :
  J w →
  J (final (release_after
              (archive_body library_path default_policy declared invoked
                 i o1 o2 p ru)) w).
Proof.
  intros Hw.
  pose proof (archive_body_keeps declared invoked i p ru Hw) as Hbody.
  unfold final, release_after, release, log_lib, bind, modify, ret in *.
  destruct (archive_body library_path default_policy declared invoked
              i o1 o2 p ru w) as [[r|e] w']; simpl in *; auto.
Qed.
End Writes.

Lemma write_output_elsewhere `{OsPath} (w : World) (o : pyval) (q : string)
    (X : option bytes) (data : bytes) :
  (∀ p, o = VStr p → absolute (abspath (cwd w) p)) →
  ¬ names_file w o q →
  inv (λ v, files v !! q = X)
    (write_output data (absolute_if_str (cwd w) o)).
Proof.
  intros Habs Hq v Hv. unfold final, write_output.
  destruct (bool_decide (data ≠ [])); [|exact Hv].
  destruct o as [|p| | | | |]; try exact Hv.
  cbv [absolute_if_str makedirs write_file bind modify ret]. simpl.
  rewrite (Habs p eq_refl).
  rewrite lookup_insert_ne; [exact Hv|].
  intros Heq. apply Hq. by exists p.
Qed.

(** X11. [analyse_archive] and [protect_archive] write no file but the
    two they are given: a path that neither [output_file] nor
    [output_report] names holds after the run what it held before,
    whether the run returns or raises.  The two output paths are taken as
    the absolute paths that [os.path.abspath] makes of them. *)
Theorem archive_methods_write_only_the_named_outputs
    `{OsPath, OsDir, Lxml, Engine, StatusTables}
    (library_path default_policy : string)
    (input_file output_file output_report content_management_policy : pyval)
    (raise_unsupported : bool) (w : World) (q : string) :
  (∀ p, output_file = VStr p → absolute (abspath (cwd w) p)) →
  (∀ p, output_report = VStr p → absolute (abspath (cwd w) p)) →
  ¬ names_file w output_file q →
  ¬ names_file w output_report q →
  files (final (analyse_archive library_path default_policy input_file
                  output_file output_report content_management_policy
                  raise_unsupported) w) !! q = files w !! q ∧
  files (final (protect_archive library_path default_policy input_file
                  output_file output_report content_management_policy
                  raise_unsupported) w) !! q = files w !! q.
Proof.
  intros Habs1 Habs2 Hq1 Hq2.
  split;
    apply (release_after_body_keeps library_path default_policy w
             (λ v, files v !! q = files w !! q));
    auto using write_output_elsewhere.
Qed.

(** On a host with separator [/]: a run that writes [/out/doc1.zip] and
    [/out/doc1.zip.xml] leaves its input [/in/a/doc1.zip] as it was. *)
Lemma archive_methods_write_only_the_named_outputs_witness :
  let w := Samples.sample_world Samples.slash in
  let input := VStr "/in/a/doc1.zip" in
  let out := VStr "/out/doc1.zip" in
  let report := VStr "/out/doc1.zip.xml" in
  let q := "/in/a/doc1.zip" in
  (∀ p, out = VStr p → @absolute Samples.posix_host
                          (@abspath Samples.posix_host (cwd w) p)) ∧
  (∀ p, report = VStr p → @absolute Samples.posix_host
                             (@abspath Samples.posix_host (cwd w) p)) ∧
  ¬ @names_file Samples.posix_host w out q ∧
  ¬ @names_file Samples.posix_host w report q ∧
  files (final (Samples.analyse Samples.slash Samples.echo_engine
                  input out report VNone true) w) !! q
  = files w !! q.
Proof.
  intros w input out report q.
  assert (Habs1 : ∀ p, out = VStr p →
            @absolute Samples.posix_host
              (@abspath Samples.posix_host (cwd w) p))
    by (intros p [= <-] c; reflexivity).
  assert (Habs2 : ∀ p, report = VStr p →
            @absolute Samples.posix_host
              (@abspath Samples.posix_host (cwd w) p))
    by (intros p [= <-] c; reflexivity).
  assert (Hq1 : ¬ @names_file Samples.posix_host w out q)
    by (intros (p & [= <-] & Heq); vm_compute in Heq; discriminate).
  assert (Hq2 : ¬ @names_file Samples.posix_host w report q)
    by (intros (p & [= <-] & Heq); vm_compute in Heq; discriminate).
  split; [exact Habs1|]. split; [exact Habs2|].
  split; [exact Hq1|]. split; [exact Hq2|].
  exact (proj1 (@archive_methods_write_only_the_named_outputs
                  Samples.posix_host (Samples.host_dir Samples.slash)
                  Samples.angle_xml Samples.echo_engine Samples.sample_tables
                  (Samples.sample_library_path Samples.slash)
                  Samples.policy_xml input out report VNone true w q
                  Habs1 Habs2 Hq1 Hq2)).
Defined.

Lemma write_output_None (J : World → Prop) `{OsPath} c data :
  inv J (write_output data (absolute_if_str c VNone)).
Proof.
  intros v Hv. unfold final, write_output. simpl.
  by destruct (bool_decide (data ≠ [])).
Qed.

(** X12. Without output paths the wrapper works in memory: a run of
    [analyse_archive] or [protect_archive] with [output_file] and
    [output_report] both [None], and a run of [protect_directory] with
    both output directories [None], leaves every file and every
    directory as it was, whether it returns or raises. *)
Theorem runs_without_output_paths_write_nothing
    `{OsPath, OsDir, Lxml, Engine, StatusTables}
    (library_path default_policy : string)
    (input_file content_management_policy : pyval) (input_directory : string)
    (raise_unsupported : bool) (w : World) :
  let unchanged (v : World) := files v = files w ∧ dirs v = dirs w in
  unchanged (final (analyse_archive library_path default_policy input_file
                      VNone VNone content_management_policy
                      raise_unsupported) w) ∧
  unchanged (final (protect_archive library_path default_policy input_file
                      VNone VNone content_management_policy
                      raise_unsupported) w) ∧
  unchanged (final (protect_directory library_path default_policy
                      input_directory None None content_management_policy
                      raise_unsupported) w).
Proof.
  intros unchanged.
  assert (Hone : ∀ declared invoked i v,
    unchanged v →
    unchanged (final (release_after
                        (archive_body library_path default_policy
                           declared invoked i VNone VNone
                           content_management_policy raise_unsupported)) v)).
  { intros declared invoked i v Hv.
    apply (release_after_body_keeps library_path default_policy v unchanged);
      try done; intros; by apply write_output_None. }
  assert (Hw : unchanged w) by done.
  split; [by apply Hone|]. split; [by apply Hone|].
  unfold protect_directory, final.
  destruct (list_file_paths input_directory true true w)
    as [[paths|e] w1] eqn:Hlist;
    pose proof (list_file_paths_world input_directory true true w) as Hsame;
    unfold final in Hsame; rewrite Hlist in Hsame; simpl in Hsame; subst w1.
  2: { by rewrite (bind_Raised _ _ _ _ _ Hlist). }
  rewrite (bind_Ok _ _ _ _ _ Hlist).
  assert (Hloop : inv unchanged
            (for_acc paths
               (protect_step library_path default_policy input_directory
                  None None content_management_policy raise_unsupported) ∅)).
  { apply inv_for_acc. intros x acc v Hv.
    unfold protect_step, final.
    rewrite (bind_Ok _ _ _ _ _ (eq_refl : get v = (Ok v, v))).
    specialize (Hone GwFileAnalysisArchive GwFileProtectAndReportArchive
                  (VStr x) v Hv).
    unfold final in Hone. fold (protect_archive library_path default_policy
      (VStr x) VNone VNone content_management_policy raise_unsupported) in Hone.
    unfold bind.
    by destruct (protect_archive library_path default_policy (VStr x) VNone
                   VNone content_management_policy raise_unsupported v)
      as [[g|e] v']. }
  specialize (Hloop w Hw). unfold final, bind in *.
  by destruct (for_acc paths _ ∅ w) as [[d|e] w'].
Qed.

(** ** What is written is what is returned *)

Section Outputs.
Context `{OsPath, OsDir, Lxml, Engine, StatusTables}.
Variable library_path : string.
Variable default_policy : string.

(** A property of the result and the world that holds when the method
    raises, and holds of the collection of the outputs after any call,
    holds of the method body. *)
Lemma archive_body_post (Q : result GwReturnObj → World → Prop)
    declared invoked i o1 o2 p ru w :
  (∀ e v, Q (Raised e) v) →
  (∀ r v,
     Q (collect_outputs r (absolute_if_str (cwd w) o1)
          (absolute_if_str (cwd w) o2) ru v).1
       (collect_outputs r (absolute_if_str (cwd w) o1)
          (absolute_if_str (cwd w) o2) ru v).2) →
  Q (archive_body library_path default_policy declared invoked
       i o1 o2 p ru w).1
    (archive_body library_path default_policy declared invoked
       i o1 o2 p ru w).2.
Proof.
  intros Qraise Qcollect.
  set (I0 := λ v : World, cwd v = cwd w).
  set (T := λ _ : World, True).
  assert (Q0 : ∀ e v, I0 v → Q (Raised e) v) by (intros; apply Qraise).
  assert (QT : ∀ e v, T v → Q (Raised e) v) by (intros; apply Qraise).
  assert (Hstart : I0 w) by done.
  unfold archive_body.
  do 3 (apply (run_bind_inv I0 Q); [|done|exact Q0|intros ? ? ?];
        [eapply stable_check_type|]).
  apply (run_bind_inv I0 Q); [|done|exact Q0|intros _ wt Hwt];
    [eapply stable_check_type|].
  rewrite (bind_Ok _ _ _ _ _ (abspath_if_str_run _ _)).
  rewrite (bind_Ok _ _ _ _ _ (abspath_if_str_run _ _)).
  rewrite Hwt.
  fold (absolute_if_str (cwd w) o1). fold (absolute_if_str (cwd w) o2).
  apply (run_bind_inv T Q); [by intros ? ?|done|exact QT|intros ib ? _].
  apply (run_bind_inv T Q); [by intros ? ?|done|exact QT|intros pol ? _].
  apply (run_bind_inv T Q); [by intros ? ?|done|exact QT|intros _ ? _].
  apply (run_bind_inv T Q); [by intros ? ?|done|exact QT|intros ? ? _].
  apply (run_bind_inv T Q); [by intros ? ?|done|exact QT|intros b ? _].
  apply (run_bind_inv T Q); [by intros ? ?|done|exact QT|intros r wd _].
  apply Qcollect.
Qed.

Lemma collect_outputs_Ok r o1 o2 ru v g v' :
  collect_outputs r o1 o2 ru v = (Ok g, v') →
  v' = final (write_output (output_report g) o2)
         (final (write_output (output_file g) o1) v).
Proof.
  unfold collect_outputs. intros Hrun.
  apply bind_run_Ok in Hrun as (ok & v1 & Hstatus & Hrun).
  apply bind_run_Ok in Hrun as (data1 & v2 & Hone & Hrun).
  apply bind_run_Ok in Hrun as (data2 & v3 & Htwo & Hrun).
  assert (E1 : v1 = v).
  { unfold check_status, ret, raise in Hstatus.
    repeat (case_match; simpl in *; simplify_eq); done. }
  assert (E2 : v2 = v1).
  { unfold buffer_to_bytes, bind, get, ret, raise in Hone.
    repeat (case_match; simpl in *; simplify_eq); done. }
  assert (E3 : v3 = v2).
  { unfold buffer_to_bytes, bind, get, ret, raise in Htwo.
    repeat (case_match; simpl in *; simplify_eq); done. }
  subst v1 v2 v3.
  assert (W : ∀ data o u, ∃ u', write_output data o u = (Ok tt, u')).
  { intros data o u. unfold write_output.
    destruct (bool_decide (data ≠ [])); [|by eexists].
    destruct o; by eexists. }
  destruct (W data1 o1 v) as [u1 Hw1].
  rewrite (bind_Ok _ _ _ _ _ Hw1) in Hrun.
  destruct (W data2 o2 u1) as [u2 Hw2].
  rewrite (bind_Ok _ _ _ _ _ Hw2) in Hrun.
  unfold ret in Hrun. simplify_eq. simpl. unfold final.
  rewrite Hw1. simpl. by rewrite Hw2.
Qed.

Lemma release_after_Ok {A} (m : M A) w a w' :
  release_after m w = (Ok a, w') →
  ∃ v, m w = (Ok a, v) ∧ files w' = files v ∧ dirs w' = dirs v.
Proof.
  unfold release_after. intros Hrun.
  apply bind_run_Ok in Hrun as (a' & v & Hm & Hrun).
  unfold release, log_lib, bind, modify, ret in Hrun. simpl in Hrun.
  simplify_eq. by exists v.
Qed.

Lemma write_output_to_path data p v :
  data ≠ [] → absolute p →
  files (final (write_output data (VStr p)) v) = <[p := data]> (files v).
Proof.
  intros Hdata Habs. unfold final, write_output.
  rewrite bool_decide_eq_true_2 by done.
  cbv [makedirs write_file bind modify ret]. simpl. by rewrite Habs.
Qed.

Lemma write_output_files data o v q :
  files (final (write_output data o) v) !! q = files v !! q ∨
  data ≠ [] ∧ ∃ x, o = VStr x ∧ q = abspath (cwd v) x.
Proof.
  unfold final, write_output.
  destruct (bool_decide_reflect (data ≠ [])) as [Hdata|_]; [|by left].
  destruct o as [|x| | | | |]; try by left.
  cbv [makedirs write_file bind modify ret]. simpl.
  destruct (decide (abspath (cwd v) x = q)) as [<-|Hne].
  - right. split; [done|]. by exists x.
  - left. by rewrite lookup_insert_ne.
Qed.

Lemma body_outputs_on_disk declared invoked i o1 o2 p ru w g w' :
  (∀ x, o1 = VStr x → absolute (abspath (cwd w) x)) →
  (∀ x, o2 = VStr x → absolute (abspath (cwd w) x)) →
  release_after
    (archive_body library_path default_policy declared invoked
       i o1 o2 p ru) w = (Ok g, w') →
  (∀ x, o2 = VStr x → output_report g ≠ [] →
     files w' !! abspath (cwd w) x = Some (output_report g)) ∧
  (∀ x, o1 = VStr x → output_file g ≠ [] →
     output_report g = [] ∨ ¬ names_file w o2 (abspath (cwd w) x) →
     files w' !! abspath (cwd w) x = Some (output_file g)).
Proof.
  intros Habs1 Habs2 Hrun.
  apply release_after_Ok in Hrun as (v & Hrun & -> & _).
  pose proof (archive_body_post
    (λ r v, ∀ g, r = Ok g →
       ∃ u, v = final (write_output (output_report g)
                         (absolute_if_str (cwd w) o2))
                  (final (write_output (output_file g)
                            (absolute_if_str (cwd w) o1)) u))
    declared invoked i o1 o2 p ru w) as Hpost.
  simpl in Hpost. rewrite Hrun in Hpost. simpl in Hpost.
  destruct (Hpost ltac:(done)) with (g := g) as [u ->]; [|done|].
  { intros r u g' Hg'. exists u.
    apply (collect_outputs_Ok r _ _ ru).
    destruct (collect_outputs r (absolute_if_str (cwd w) o1)
                (absolute_if_str (cwd w) o2) ru u); simpl in *.
    by subst. }
  split.
  - intros x -> Hdata. simpl.
    rewrite write_output_to_path by auto. by rewrite lookup_insert_eq.
  - intros x -> Hdata Hapart. simpl.
    destruct (write_output_files (output_report g)
                (absolute_if_str (cwd w) o2)
                (final (write_output (output_file g)
                          (VStr (abspath (cwd w) x))) u)
                (abspath (cwd w) x)) as [-> | (Hreport & y & Ho2 & Hy)].
    + rewrite write_output_to_path by auto. by rewrite lookup_insert_eq.
    + destruct Hapart as [Hempty | Hapart]; [done|].
      destruct Hapart. destruct o2 as [|x2| | | | |]; try done.
      simpl in Ho2. simplify_eq. exists x2. split; [done|].
      by rewrite Hy, (Habs2 x2 eq_refl).
Qed.
End Outputs.

(** X13. What a run returns is what it wrote.  When [analyse_archive] or
    [protect_archive] returns with a non-empty report and [output_report]
    is a path, the file at that path holds the returned report; when it
    returns a non-empty output file and [output_file] is a path, the
    file at that path holds the returned bytes, unless a non-empty report
    was written to the same path after it. *)
Theorem written_outputs_are_the_returned_ones
    `{OsPath, OsDir, Lxml, Engine, StatusTables}
    (library_path default_policy : string)
    (input_file to_file to_report content_management_policy : pyval)
    (raise_unsupported : bool) (method : M GwReturnObj)
    (w w' : World) (g : GwReturnObj) :
  method = analyse_archive library_path default_policy input_file
             to_file to_report content_management_policy
             raise_unsupported ∨
  method = protect_archive library_path default_policy input_file
             to_file to_report content_management_policy
             raise_unsupported →
  (∀ x, to_file = VStr x → absolute (abspath (cwd w) x)) →
  (∀ x, to_report = VStr x → absolute (abspath (cwd w) x)) →
  method w = (Ok g, w') →
  (∀ x, to_report = VStr x → output_report g ≠ [] →
     files w' !! abspath (cwd w) x = Some (output_report g)) ∧
  (∀ x, to_file = VStr x → output_file g ≠ [] →
     output_report g = [] ∨
     ¬ names_file w to_report (abspath (cwd w) x) →
     files w' !! abspath (cwd w) x = Some (output_file g)).
Proof.
  intros [-> | ->] Habs1 Habs2 Hrun;
    exact (body_outputs_on_disk library_path default_policy _ _ _ _ _ _ _
             w g w' Habs1 Habs2 Hrun).
Qed.

(** On a host with separator [/], with an engine that copies its input
    to the output and the policy to the report: after the analysis of
    [/in/a/doc1.zip], [/out/doc1.zip.xml] holds the returned report and
    [/out/doc1.zip] the returned file. *)
Lemma written_outputs_are_the_returned_ones_witness :
  let w := Samples.sample_world Samples.slash in
  let out := VStr "/out/doc1.zip" in
  let report := VStr "/out/doc1.zip.xml" in
  let method := Samples.analyse Samples.slash Samples.echo_engine
                  (VStr "/in/a/doc1.zip") out report VNone true in
  let g := mkGwReturnObj 1 Samples.doc1 (encode Samples.policy_xml) in
  (∀ x, out = VStr x → @absolute Samples.posix_host
                          (@abspath Samples.posix_host (cwd w) x)) ∧
  (∀ x, report = VStr x → @absolute Samples.posix_host
                             (@abspath Samples.posix_host (cwd w) x)) ∧
  method w = (Ok g, final method w) ∧
  files (final method w) !! @abspath Samples.posix_host (cwd w) "/out/doc1.zip.xml"
  = Some (output_report g) ∧
  files (final method w) !! @abspath Samples.posix_host (cwd w) "/out/doc1.zip"
  = Some (output_file g).
Proof.
  intros w out report method g.
  assert (Habs1 : ∀ x, out = VStr x →
            @absolute Samples.posix_host
              (@abspath Samples.posix_host (cwd w) x))
    by (intros x [= <-] c; reflexivity).
  assert (Habs2 : ∀ x, report = VStr x →
            @absolute Samples.posix_host
              (@abspath Samples.posix_host (cwd w) x))
    by (intros x [= <-] c; reflexivity).
  assert (Hrun : method w = (Ok g, final method w))
    by (vm_compute; reflexivity).
  split; [exact Habs1|]. split; [exact Habs2|]. split; [exact Hrun|].
  pose proof (@written_outputs_are_the_returned_ones
                Samples.posix_host (Samples.host_dir Samples.slash)
                Samples.angle_xml Samples.echo_engine Samples.sample_tables
                (Samples.sample_library_path Samples.slash)
                Samples.policy_xml (VStr "/in/a/doc1.zip") out report VNone
                true method w (final method w) g
                (or_introl eq_refl) Habs1 Habs2 Hrun) as [Hreport Hfile].
  split.
  - apply (Hreport "/out/doc1.zip.xml" eq_refl). discriminate.
  - apply (Hfile "/out/doc1.zip" eq_refl); [discriminate|].
    right. intros (x & [= <-] & Heq). vm_compute in Heq. discriminate.
Defined.

(** ** Byte inputs *)

(** X14. [as_io_BytesIO] keeps the bytes: reading the stream it returns
    gives what [as_bytes] gives on the argument itself, and fails where
    [as_bytes] fails, with the same exception. *)
Theorem as_io_BytesIO_keeps_the_bytes (file_ : pyval) (w : World) :
  outcome (stream <- as_io_BytesIO file_ ;; as_bytes stream) w
  = outcome (as_bytes file_) w.
Proof.
  unfold outcome.
  destruct file_ as [|x|b|l|l|x|z]; try reflexivity.
  - cbv [as_io_BytesIO as_bytes alloc stream_read bind get modify ret].
    simpl. by rewrite lookup_insert_eq.
  - cbv [as_io_BytesIO as_bytes alloc stream_read bytearray_contents
         bind get modify ret raise]. simpl.
    destruct (heap w !! l) as [[data|data pos]|]; simpl; try done.
    by rewrite lookup_insert_eq.
Qed.

(** X15. [as_bytes] consumes a stream: the first call on an [io.BytesIO]
    returns the bytes from its position on, and a second call on the same
    object returns no bytes. *)
Theorem as_bytes_reads_a_stream_once (l : loc) (data : bytes)
    (pos : nat) (w : World) :
  heap w !! l = Some (ObjBytesIO data pos) →
  outcome (first <- as_bytes (VBytesIO l) ;;
           second <- as_bytes (VBytesIO l) ;;
           ret (first, second)) w
  = Ok (drop pos data, []).
Proof.
  intros Hl. unfold outcome.
  cbv [as_bytes stream_read bind get modify ret raise]. simpl.
  rewrite Hl. simpl. rewrite lookup_insert_eq. simpl.
  f_equal. f_equal. apply drop_ge. lia.
Qed.

Lemma as_bytes_reads_a_stream_once_witness :
  let w := Samples.sample_world Samples.slash in
  heap w !! 2%positive = Some (ObjBytesIO Samples.doc1 0) ∧
  outcome (first <- as_bytes (VBytesIO 2%positive) ;;
           second <- as_bytes (VBytesIO 2%positive) ;;
           ret (first, second)) w
  = Ok (drop 0 Samples.doc1, []).
Proof.
  intros w.
  assert (Hl : heap w !! 2%positive = Some (ObjBytesIO Samples.doc1 0))
    by reflexivity.
  split; [exact Hl|].
  exact (as_bytes_reads_a_stream_once 2%positive Samples.doc1 0 w Hl).
Defined.

(** ** The directory methods at the edges *)

(** X16. Where [input_directory] is not a directory, [list_file_paths]
    raises [NotADirectoryError] on it, and so do [analyse_directory] and
    [protect_directory], before anything else happens: the world is as it
    was. *)
Theorem directory_methods_reject_a_non_directory
    `{OsPath, OsDir, Lxml, Engine, StatusTables}
    (library_path default_policy : string)
    (input_directory output_directory : string)
    (to_directory to_report_directory : option string)
    (content_management_policy : pyval)
    (recursive absolute_ raise_unsupported : bool) (w : World) :
  abspath (cwd w) input_directory ∉ dirs w →
  list_file_paths input_directory recursive absolute_ w
  = (Raised (NotADirectoryError input_directory), w) ∧
  analyse_directory library_path default_policy input_directory
    output_directory content_management_policy raise_unsupported w
  = (Raised (NotADirectoryError input_directory), w) ∧
  protect_directory library_path default_policy input_directory
    to_directory to_report_directory content_management_policy
    raise_unsupported w
  = (Raised (NotADirectoryError input_directory), w).
Proof.
  intros Hdir.
  assert (Hlist : ∀ r a, list_file_paths input_directory r a w
                         = (Raised (NotADirectoryError input_directory), w)).
  { intros r a. unfold list_file_paths, isdir, bind, get, ret, raise. simpl.
    by rewrite bool_decide_eq_false_2. }
  split; [apply Hlist|].
  split.
  - unfold analyse_directory. by rewrite (bind_Raised _ _ _ _ _ (Hlist _ _)).
  - unfold protect_directory. by rewrite (bind_Raised _ _ _ _ _ (Hlist _ _)).
Qed.

Lemma directory_methods_reject_a_non_directory_witness :
  let w := Samples.sample_world Samples.slash in
  (@abspath Samples.posix_host (cwd w) "/in/a/doc1.zip" ∉ dirs w) ∧
  Samples.protect_dir Samples.slash Samples.echo_engine "/in/a/doc1.zip"
    None None VNone true w
  = (Raised (NotADirectoryError "/in/a/doc1.zip"), w).
Proof.
  intros w.
  assert (Hdir : @abspath Samples.posix_host (cwd w) "/in/a/doc1.zip" ∉ dirs w)
    by compute_done.
  split; [exact Hdir|].
  exact (proj2 (proj2 (@directory_methods_reject_a_non_directory
                         Samples.posix_host (Samples.host_dir Samples.slash)
                         Samples.angle_xml Samples.echo_engine
                         Samples.sample_tables
                         (Samples.sample_library_path Samples.slash)
                         Samples.policy_xml "/in/a/doc1.zip" "/out" None None
                         VNone true true true w Hdir))).
Defined.

(** X17. Where [input_directory] is the absolute path of a directory
    that holds no file at any depth, [analyse_directory] returns [None]
    and [protect_directory] returns the empty dictionary, and neither
    touches the library or the file system: the world is as it was. *)
Theorem directory_methods_on_a_tree_without_files
    `{OsPath, OsDir, Lxml, Engine, StatusTables}
    (library_path default_policy : string)
    (input_directory output_directory : string)
    (to_directory to_report_directory : option string)
    (content_management_policy : pyval)
    (raise_unsupported : bool) (w : World) :
  absolute input_directory →
  input_directory ∈ dirs w →
  (∀ item, item ∈ walk w input_directory → item.2 = []) →
  analyse_directory library_path default_policy input_directory
    output_directory content_management_policy raise_unsupported w
  = (Ok RNone, w) ∧
  protect_directory library_path default_policy input_directory
    to_directory to_report_directory content_management_policy
    raise_unsupported w
  = (Ok (RDict ∅), w).
Proof.
  intros Habs Hdir Hempty.
  assert (Hnone : ∀ items : list (string * list string),
            (∀ item, item ∈ items → item.2 = []) →
            ('(root, files) ← items; file_ ← files;
             [normpath (join root file_)]) = []).
  { induction items as [|[root fs] items IH]; intros Hitems; [done|].
    assert (fs = []) as ->
      by exact (Hitems (root, fs) (list_elem_of_here _ _)).
    simpl. apply IH. intros item Hin. apply Hitems. by apply list_elem_of_further. }
  assert (Hlist : ∀ a, list_file_paths input_directory true a w = (Ok [], w)).
  { intros a. unfold list_file_paths, isdir, bind, get, ret, raise. simpl.
    rewrite (Habs (cwd w)).
    rewrite bool_decide_eq_true_2 by done. simpl.
    rewrite (Hnone _ Hempty). by destruct a. }
  split.
  - unfold analyse_directory. by rewrite (bind_Ok _ _ _ _ _ (Hlist _)).
  - unfold protect_directory. by rewrite (bind_Ok _ _ _ _ _ (Hlist _)).
Qed.

Lemma directory_methods_on_a_tree_without_files_witness :
  let w := Samples.sample_world Samples.slash in
  @absolute Samples.posix_host "/lib" ∧
  ("/lib" ∈ dirs w) ∧
  (∀ item, item ∈ @walk (Samples.host_dir Samples.slash) w "/lib" →
           item.2 = []) ∧
  Samples.protect_dir Samples.slash Samples.echo_engine "/lib"
    (Some "/out") None VNone true w
  = (Ok (RDict ∅), w).
Proof.
  intros w.
  assert (Habs : @absolute Samples.posix_host "/lib")
    by (intros c; reflexivity).
  assert (Hdir : "/lib" ∈ dirs w) by compute_done.
  assert (Hempty : ∀ item,
            item ∈ @walk (Samples.host_dir Samples.slash) w "/lib" →
            item.2 = []).
  { intros item Hin. vm_compute in Hin. by apply elem_of_nil in Hin. }
  split; [exact Habs|]. split; [exact Hdir|]. split; [exact Hempty|].
  exact (proj2 (@directory_methods_on_a_tree_without_files
                  Samples.posix_host (Samples.host_dir Samples.slash)
                  Samples.angle_xml Samples.echo_engine Samples.sample_tables
                  (Samples.sample_library_path Samples.slash)
                  Samples.policy_xml "/lib" "/out" (Some "/out") None
                  VNone true w Habs Hdir Hempty)).
Defined.

(** ** Where the engine runs *)

(** X18. The engine runs in the directory of the library.  When the
    process is in an existing directory given by an absolute path, and
    the directory of the library -- [library_path] if that is a
    directory, else its directory part -- is the absolute path of an
    existing directory, the call under [CwdHandler] is the call of the
    engine with that directory as the working directory: it returns what
    the engine returns and raises what the engine raises. *)
Theorem engine_runs_in_the_library_directory
    `{OsPath, OsDir, Lxml, Engine, StatusTables}
    (library_path : string) (f : entry_point) (input_buffer : loc)
    (block policy : bytes) (w : World) :
  absolute (cwd w) →
  cwd w ∈ dirs w →
  absolute (library_directory w library_path) →
  library_directory w library_path ∈ dirs w →
  heap w !! input_buffer = Some (ObjBytearray block) →
  outcome (api_call library_path f input_buffer policy) w
  = match engine_call f (library_directory w library_path) block policy with
    | NativeReturns r => Ok r
    | NativeRaises e => Raised e
    end.
Proof.
  intros Habs Hcwd Hlibabs Hlib Hblock.
  unfold outcome, api_call, with_CwdHandler, foreign_call.
  cbv [CwdHandler__init__ CwdHandler__enter__ CwdHandler__exit__ chdir
       isdir getcwd log_lib bytearray_contents bind get modify ret raise].
  simpl. unfold library_directory in *.
  set (target := if bool_decide (abspath (cwd w) library_path ∈ dirs w)
                 then library_path else dirname library_path) in *.
  rewrite (Hlibabs (cwd w)), (bool_decide_eq_true_2 _ Hlib). simpl.
  rewrite Hblock. simpl. rewrite ?(Hlibabs (cwd w)).
  destruct (engine_call f target block policy) as [r|e]; simpl;
    rewrite (Habs target), (bool_decide_eq_true_2 _ Hcwd); reflexivity.
Qed.

Lemma engine_runs_in_the_library_directory_witness :
  let w := Samples.sample_world Samples.slash in
  let lib := Samples.sample_library_path Samples.slash in
  let seen : Engine :=
    {| engine_call := λ _ cwd _ _, NativeRaises (NativeError cwd) |} in
  @absolute Samples.posix_host (cwd w) ∧
  (cwd w ∈ dirs w) ∧
  @absolute Samples.posix_host (@library_directory Samples.posix_host w lib) ∧
  (@library_directory Samples.posix_host w lib ∈ dirs w) ∧
  heap w !! 1%positive = Some (ObjBytearray Samples.doc1) ∧
  outcome (@api_call Samples.posix_host seen lib GwFileAnalysisArchive
             1%positive []) w
  = Raised (NativeError "/lib").
Proof.
  intros w lib seen.
  assert (Habs : @absolute Samples.posix_host (cwd w))
    by (intros x; reflexivity).
  assert (Hcwd : cwd w ∈ dirs w) by compute_done.
  assert (Hlibabs : @absolute Samples.posix_host
                      (@library_directory Samples.posix_host w lib))
    by (intros x; reflexivity).
  assert (Hlib : @library_directory Samples.posix_host w lib ∈ dirs w)
    by compute_done.
  assert (Hblock : heap w !! 1%positive = Some (ObjBytearray Samples.doc1))
    by reflexivity.
  split; [exact Habs|]. split; [exact Hcwd|]. split; [exact Hlibabs|].
  split; [exact Hlib|]. split; [exact Hblock|].
  exact (@engine_runs_in_the_library_directory
           Samples.posix_host (Samples.host_dir Samples.slash)
           Samples.angle_xml seen Samples.sample_tables
           lib GwFileAnalysisArchive 1%positive Samples.doc1 [] w
           Habs Hcwd Hlibabs Hlib Hblock).
Defined.

(** X19. Where the directory of the library -- [library_path] if that is
    a directory, else its directory part -- is an absolute path that is
    not a directory, the call under [CwdHandler] raises out of
    [__enter__]: the engine is not called and the world is as it was.
    The exception is [NotADirectoryError] if a regular file stands at that
    path or in place of a directory above it, and [FileNotFoundError] if
    not. *)
Theorem missing_library_directory_stops_the_call
    `{OsPath, OsDir, Lxml, Engine, StatusTables}
    (library_path : string) (f : entry_point) (input_buffer : loc)
    (policy : bytes) (w : World) :
  absolute (library_directory w library_path) →
  library_directory w library_path ∉ dirs w →
  api_call library_path f input_buffer policy w
  = (Raised (if file_on_the_way w (library_directory w library_path)
             then NotADirectoryError (library_directory w library_path)
             else FileNotFoundError (library_directory w library_path)), w).
Proof.
  intros Habs Hlib.
  unfold api_call, with_CwdHandler.
  cbv [CwdHandler__init__ CwdHandler__enter__ chdir
       isdir getcwd bind get modify ret raise].
  simpl. unfold library_directory in *.
  set (target := if bool_decide (abspath (cwd w) library_path ∈ dirs w)
                 then library_path else dirname library_path) in *.
  rewrite !(Habs (cwd w)).
  rewrite (bool_decide_eq_false_2 _ Hlib). simpl.
  rewrite ?(Habs (cwd w)). by destruct (file_on_the_way w target).
Qed.

(** On a host with separator [/]: nothing exists at [/opt/gw], and
    [/in/a/doc1.zip] is an archive, not a directory. *)
Lemma missing_library_directory_stops_the_call_witness :
  let w := Samples.sample_world Samples.slash in
  let missing := @library_directory Samples.posix_host w "/opt/gw/engine.so" in
  let file := @library_directory Samples.posix_host w
                "/in/a/doc1.zip/engine.so" in
  @absolute Samples.posix_host missing ∧
  (missing ∉ dirs w) ∧
  @absolute Samples.posix_host file ∧
  (file ∉ dirs w) ∧
  @api_call Samples.posix_host Samples.echo_engine "/opt/gw/engine.so"
    GwFileAnalysisArchive 1%positive [] w
  = (Raised (FileNotFoundError "/opt/gw"), w) ∧
  @api_call Samples.posix_host Samples.echo_engine "/in/a/doc1.zip/engine.so"
    GwFileAnalysisArchive 1%positive [] w
  = (Raised (NotADirectoryError "/in/a/doc1.zip"), w).
Proof.
  intros w missing file.
  assert (Habs1 : @absolute Samples.posix_host missing)
    by (intros x; reflexivity).
  assert (Hlib1 : missing ∉ dirs w) by compute_done.
  assert (Habs2 : @absolute Samples.posix_host file)
    by (intros x; reflexivity).
  assert (Hlib2 : file ∉ dirs w) by compute_done.
  split; [exact Habs1|]. split; [exact Hlib1|].
  split; [exact Habs2|]. split; [exact Hlib2|].
  split.
  - exact (@missing_library_directory_stops_the_call
             Samples.posix_host (Samples.host_dir Samples.slash)
             Samples.angle_xml Samples.echo_engine Samples.sample_tables
             "/opt/gw/engine.so" GwFileAnalysisArchive 1%positive [] w
             Habs1 Hlib1).
  - exact (@missing_library_directory_stops_the_call
             Samples.posix_host (Samples.host_dir Samples.slash)
             Samples.angle_xml Samples.echo_engine Samples.sample_tables
             "/in/a/doc1.zip/engine.so" GwFileAnalysisArchive 1%positive [] w
             Habs2 Hlib2).
Defined.

(** ** The outcomes of [validate_xml] *)

(** X20. [validate_xml] returns only what [lxml] serialises: a string it
    returns is the serialisation of the indented tree of a document that
    parsed.  The only exceptions it raises are [ValueError] and
    [TypeError]. *)
Theorem validate_xml_outcomes `{OsPath, Lxml} (xml : pyval) (w : World) :
  match outcome (validate_xml xml) w with
  | Ok xml_string =>
      ∃ tree, parsed tree ∧
              xml_string = decode (etree_tostring (etree_indent tree))
  | Raised e => (∃ v, e = ValueError v) ∨ (∃ v, e = TypeError v)
  end.
Proof.
  unfold outcome.
  destruct (validate_xml xml w) as [[s|e] w1] eqn:Hrun; simpl.
  - by apply (validate_xml_serialises xml w s w1).
  - revert Hrun. unfold validate_xml.
    cbv [as_io_BytesIO tree_or_ValueError isfile read_file alloc
         bytearray_contents stream_read bind get modify ret raise].
    simpl. intros Hrun.
    repeat (case_match; simpl in *; simplify_eq); eauto.
Qed.
